(** * node-acme: the ACME server core, embedded in Rocq

    A shallow embedding of [lib/pki.js], [lib/jose.js] and
    [lib/acme-server.js], followed by the properties of the protocol
    engine that were checked against it.

    Conventions of the embedding:
    - a JavaScript string is a [string] of 8-bit code units;
    - [undefined]/[null] is [None]; a present value is [Some];
    - a [Date] is [option Z]: milliseconds since the epoch, [None] being
      the Invalid Date;
    - an object of the store is a record; the store is the only place it
      lives in, so mutating the live object is updating the store entry;
    - the collaborators the source calls but does not define (forge,
      node-jose, node-uuid, the wall clock) are section variables. *)

From Stdlib Require Import ZArith NArith List String Ascii Bool Lia DecimalString.
From Stdlib Require Import DecimalNat Permutation.
Import ListNotations.
Open Scope string_scope.

(* ===================================================================== *)
(** * The JavaScript built-ins the sources rely on                        *)
(* ===================================================================== *)

Module JS.

(** [x ? ... : ...] on a string: the empty string is falsy. *)
Definition truthy (o : option string) : bool :=
  match o with
  | Some s => negb (s =? "")
  | None => false
  end.

Definition in_range (lo hi : nat) (c : ascii) : bool :=
  let n := nat_of_ascii c in (lo <=? n)%nat && (n <=? hi)%nat.

(** [String.prototype.toLowerCase], on code units below 256: A-Z and the
    Latin-1 capitals (all of 0xC0-0xDE but the multiplication sign). *)
Definition lower_char (c : ascii) : ascii :=
  let n := nat_of_ascii c in
  if in_range 65 90 c || (in_range 192 222 c && negb (n =? 215)%nat)
  then ascii_of_nat (n + 32) else c.

Fixpoint toLowerCase (s : string) : string :=
  match s with
  | EmptyString => EmptyString
  | String c s' => String (lower_char c) (toLowerCase s')
  end.

(** [s.replace(/a/g, b)] for a single character pattern. *)
Fixpoint replace_all (a b : ascii) (s : string) : string :=
  match s with
  | EmptyString => EmptyString
  | String c s' => String (if Ascii.eqb c a then b else c) (replace_all a b s')
  end.

(** ** parseInt *)

(** StrWhiteSpaceChar below 256: TAB, LF, VT, FF, CR, SP, NBSP. *)
Definition isWhiteSpace (c : ascii) : bool :=
  let n := nat_of_ascii c in
  (in_range 9 13 c) || (n =? 32)%nat || (n =? 160)%nat.

Fixpoint trimStart (s : string) : string :=
  match s with
  | String c s' => if isWhiteSpace c then trimStart s' else s
  | EmptyString => EmptyString
  end.

Definition digitValue (c : ascii) : option Z :=
  let n := Z.of_nat (nat_of_ascii c) in
  if in_range 48 57 c then Some (n - 48)%Z
  else if in_range 97 122 c then Some (n - 87)%Z
  else if in_range 65 90 c then Some (n - 55)%Z
  else None.

(** The longest prefix of radix-[R] digits, as a number; [acc] is [None]
    until a digit was read. *)
Fixpoint parseDigits (R : Z) (s : string) (acc : option Z) : option Z :=
  match s with
  | EmptyString => acc
  | String c s' =>
      match digitValue c with
      | Some d =>
          if (d <? R)%Z
          then parseDigits R s' (Some (R * match acc with Some a => a | None => 0 end + d)%Z)
          else acc
      | None => acc
      end
  end.

(** [parseInt(s)] without a radix: leading white space, a sign, a [0x]
    prefix, then digits; [None] is NaN.  The mathematical integer is
    kept exactly: the sources only use the result as an array index,
    where a double and its exact value select the same element. *)
Definition parseInt (s : string) : option Z :=
  let s1 := trimStart s in
  let '(sign, s2) :=
    match s1 with
    | String "-" r => ((-1)%Z, r)
    | String "+" r => (1%Z, r)
    | _ => (1%Z, s1)
    end in
  let '(R, s3) :=
    match s2 with
    | String "0" (String "x" r) => (16%Z, r)
    | String "0" (String "X" r) => (16%Z, r)
    | _ => (10%Z, s2)
    end in
  match parseDigits R s3 None with
  | Some n => Some (sign * n)%Z
  | None => None
  end.

(** [index in array] and [array[index]] for a number [index]. *)
Definition has_index {A} (l : list A) (i : Z) : bool :=
  (0 <=? i)%Z && (i <? Z.of_nat (List.length l))%Z.

Definition at_index {A} (l : list A) (i : Z) : option A :=
  if (0 <=? i)%Z then nth_error l (Z.to_nat i) else None.

(** ** Number.prototype.toString(16) *)

Definition hexDigit (d : N) : ascii :=
  match d with
  | 0 => "0" | 1 => "1" | 2 => "2" | 3 => "3" | 4 => "4" | 5 => "5"
  | 6 => "6" | 7 => "7" | 8 => "8" | 9 => "9" | 10 => "a" | 11 => "b"
  | 12 => "c" | 13 => "d" | 14 => "e" | _ => "f"
  end%N%char.

(** The digits of [n], most significant first, on top of [acc]; [fuel]
    bounds the number of digits. *)
Fixpoint hexDigits (fuel : nat) (n : N) (acc : string) : string :=
  match fuel with
  | O => acc
  | S fuel' =>
      let acc' := String (hexDigit (n mod 16)) acc in
      if (n <? 16)%N then acc' else hexDigits fuel' (n / 16) acc'
  end.

(** [n.toString(16)] for a non-negative integer [n]; the binary size of
    [n] is more fuel than it has hexadecimal digits. *)
Definition toString16 (n : N) : string :=
  hexDigits (S (N.to_nat (N.size n))) n "".

(** The value of a hexadecimal numeral ([parseInt(s, 16)] on digits). *)
Definition hexValue (c : ascii) : option N :=
  match digitValue c with
  | Some d => if (d <? 16)%Z then Some (Z.to_N d) else None
  | None => None
  end.

Fixpoint hexNumber (acc : N) (s : string) : option N :=
  match s with
  | EmptyString => Some acc
  | String c s' =>
      match hexValue c with
      | Some d => hexNumber (16 * acc + d) s'
      | None => None
      end
  end.

(** [++] on a double holding a non-negative integer: exact below 2^53;
    at 2^53 the successor is not representable and rounds back to 2^53.
    A counter started below 2^53 never holds a larger value. *)
Definition MAX_EXACT : N := 2 ^ 53.

Definition increment (n : N) : N :=
  if (n <? MAX_EXACT)%N then (n + 1)%N else n.

(** ** Regular expressions

    The fragment [DNS_RE] is written in: character classes, sequence,
    [+] and bounded repetition [{lo,hi}].  [matches] decides whether the
    whole string is in the language, which is what [s.match(re)] tests
    for a pattern anchored by [^] and [$] (no [m] flag). *)

Inductive regex : Type :=
| Empty
| Eps
| Cls (ranges : list (ascii * ascii))
| Seq (r1 r2 : regex)
| Alt (r1 r2 : regex)
| Star (r : regex)
| Rep (r : regex) (lo hi : nat).

Definition Plus (r : regex) : regex := Seq r (Star r).

Definition in_class (ranges : list (ascii * ascii)) (c : ascii) : bool :=
  existsb (fun '(lo, hi) => in_range (nat_of_ascii lo) (nat_of_ascii hi) c) ranges.

Fixpoint nullable (r : regex) : bool :=
  match r with
  | Empty => false
  | Eps => true
  | Cls _ => false
  | Seq r1 r2 => nullable r1 && nullable r2
  | Alt r1 r2 => nullable r1 || nullable r2
  | Star _ => true
  | Rep r lo _ => (lo =? 0)%nat || nullable r
  end.

Definition mkSeq (r1 r2 : regex) : regex :=
  match r1 with
  | Empty => Empty
  | Eps => r2
  | _ => Seq r1 r2
  end.

Definition mkAlt (r1 r2 : regex) : regex :=
  match r1, r2 with
  | Empty, _ => r2
  | _, Empty => r1
  | _, _ => Alt r1 r2
  end.

(** The Brzozowski derivative: the strings [w] with [c::w] in [r]. *)
Fixpoint deriv (c : ascii) (r : regex) : regex :=
  match r with
  | Empty | Eps => Empty
  | Cls ranges => if in_class ranges c then Eps else Empty
  | Seq r1 r2 =>
      mkAlt (mkSeq (deriv c r1) r2) (if nullable r1 then deriv c r2 else Empty)
  | Alt r1 r2 => mkAlt (deriv c r1) (deriv c r2)
  | Star r1 => mkSeq (deriv c r1) (Star r1)
  | Rep r1 lo hi =>
      match hi with
      | O => Empty
      | S hi' => mkSeq (deriv c r1) (Rep r1 (Nat.pred lo) hi')
      end
  end.

Fixpoint matches (r : regex) (s : string) : bool :=
  match s with
  | EmptyString => nullable r
  | String c s' => matches (deriv c r) s'
  end.

(** ** Plain objects used as string sets

    [o = {}; o[k] = true; for (k in o) ...].  The object is the list of
    its own keys in creation order. *)

Definition allDigits (s : string) : bool :=
  forallb (in_range 48 57) (list_ascii_of_string s).

Definition decimalValue (s : string) : N :=
  fold_left (fun acc c => (10 * acc + N.of_nat (nat_of_ascii c - 48))%N)
            (list_ascii_of_string s) 0%N.

(** An array index is the canonical numeral of an integer below
    2^32 - 1; the value of [k] if it is one. *)
Definition arrayIndex (k : string) : option N :=
  match k with
  | EmptyString => None
  | String c rest =>
      if allDigits k
         && (negb (Ascii.eqb c "0") || (rest =? ""))
         && (String.length k <=? 10)%nat
         && (decimalValue k <? 2 ^ 32 - 1)%N
      then Some (decimalValue k) else None
  end.

(** The names every plain object inherits from [Object.prototype]: read
    on an object that has no own key of that name, they are not
    [undefined]. *)
Definition Object_prototype_names : list string :=
  ["__proto__"; "constructor"; "hasOwnProperty"; "isPrototypeOf";
   "propertyIsEnumerable"; "toLocaleString"; "toString"; "valueOf";
   "__defineGetter__"; "__defineSetter__"; "__lookupGetter__";
   "__lookupSetter__"].

Definition inherited (k : string) : bool :=
  existsb (String.eqb k) Object_prototype_names.

Definition has_key (o : list string) (k : string) : bool :=
  existsb (String.eqb k) o.

(** [o[k] = true].  Assigning a boolean to [__proto__] goes to the
    setter of [Object.prototype], which ignores it. *)
Definition set_key (o : list string) (k : string) : list string :=
  if k =? "__proto__" then o
  else if has_key o k then o
  else o ++ [k].

Fixpoint insert_sorted (x : N * string) (l : list (N * string)) : list (N * string) :=
  match l with
  | [] => [x]
  | y :: l' => if (fst x <=? fst y)%N then x :: l else y :: insert_sorted x l'
  end.

Definition index_keys (o : list string) : list (N * string) :=
  fold_right (fun k acc =>
                match arrayIndex k with
                | Some n => insert_sorted (n, k) acc
                | None => acc
                end) [] o.

(** The order [for ... in] visits own keys in: array indices by value,
    then the other keys in creation order. *)
Definition own_keys (o : list string) : list string :=
  map snd (index_keys o)
  ++ filter (fun k => match arrayIndex k with Some _ => false | None => true end) o.

End JS.

(* ===================================================================== *)
(** * lib/pki.js                                                          *)
(* ===================================================================== *)

(** What a function does: return a value or throw. *)
Inductive outcome (A : Type) : Type :=
| Returns (a : A)
| Throws (message : string).
Arguments Returns {A} a.
Arguments Throws {A} message.

Module Pki.
Import JS.

(** [/^([a-z0-9][a-z0-9-]{1,62}\.)+[a-z][a-z0-9-]{0,62}$/] *)
Definition alnum : list (ascii * ascii) := [("a", "z"); ("0", "9")]%char.
Definition alnum_dash : list (ascii * ascii) := [("a", "z"); ("0", "9"); ("-", "-")]%char.

Definition DNS_RE : regex :=
  Seq (Plus (Seq (Cls alnum) (Seq (Rep (Cls alnum_dash) 1 62) (Cls [(".", ".")]%char))))
      (Seq (Cls [("a", "z")]%char) (Rep (Cls alnum_dash) 0 62)).

(** ** The certification request, as forge presents it *)

Record SubjectAttribute : Type := {
  sa_name : option string;        (* undefined for an unknown OID *)
  sa_value : string
}.

Record GeneralName : Type := {
  san_type : Z;
  san_value : string
}.

Record Extension : Type := {
  ext_name : option string;
  ext_altNames : list GeneralName
}.

Record Attribute : Type := {
  attr_name : option string;
  attr_extensions : list Extension
}.

Record CSR : Type := {
  subject_attributes : list SubjectAttribute;   (* csr.subject.attributes *)
  attributes : list Attribute                   (* csr.attributes *)
}.

(** [name !== literal] on a possibly undefined name. *)
Definition name_is_not (name : option string) (literal : string) : bool :=
  match name with
  | Some n => negb (n =? literal)
  | None => true
  end.

(** [l.map(callback)] as a statement: the callback runs on every
    element in order, updating the variables it closes over ([S]); the
    array of the values it returns ([R]) is dropped. *)
Definition map_for_effect {S A R : Type}
           (callback : S -> A -> R * S) (l : list A) (s : S) : S :=
  fold_left (fun s a => snd (callback s a)) l s.

(** The object a callback returns: [{error: msg}] or nothing. *)
Definition returned := option string.

Definition subject_callback (commonName : option string) (attr : SubjectAttribute)
  : returned * option string :=
  if name_is_not (sa_name attr) "commonName" then
    (Some "Subject must have only commonName", commonName)
  else if truthy commonName then
    (Some "Subject has multiple commonName values", commonName)
  else
    let commonName' := toLowerCase (sa_value attr) in
    if negb (matches DNS_RE commonName') then
      (Some "Subject commonName is not a DNS name", Some commonName')
    else (None, Some commonName').

Definition attribute_callback (extensions : list Extension) (attr : Attribute)
  : returned * list Extension :=
  if name_is_not (attr_name attr) "extensionRequest" then
    (Some "No attributes besides extensionRequest allowed", extensions)
  else if (0 <? List.length extensions)%nat then
    (Some "Multiple extensionRequest attributes", extensions)
  else (None, attr_extensions attr).

Definition extension_callback (sans : list GeneralName) (extn : Extension)
  : returned * list GeneralName :=
  if name_is_not (ext_name extn) "subjectAltName" then
    (Some "Forbidden extension type", sans)
  else if (0 <? List.length sans)%nat then
    (Some "Multiple SAN extensions", sans)
  else (None, ext_altNames extn).

Definition san_callback (names : list string) (san : GeneralName)
  : returned * list string :=
  if negb (san_type san =? 2)%Z then
    (Some "Non-dNSName SAN", names)
  else
    let name := toLowerCase (san_value san) in
    if negb (matches DNS_RE name) then
      (Some "dNSName SAN is not a DNS name", names)
    else (None, set_key names name).

Inductive CheckResult : Type :=
| Names (names : list string)       (* {names: [...]} *)
| Error (error : string).           (* {error: msg} *)

(** [checkCSR] from the parsed request on. *)
Definition checkParsed (csr : CSR) : outcome CheckResult :=
  let commonName := map_for_effect subject_callback (subject_attributes csr) None in
  let extensions := map_for_effect attribute_callback (attributes csr) [] in
  let sans := map_for_effect extension_callback extensions [] in
  let names :=
    match commonName with
    | Some cn => if truthy commonName then set_key [] cn else []
    | None => []
    end in
  let names := map_for_effect san_callback sans names in
  (* for (let name in names) if (names.hasOwnProperty(name)) ...: an own
     key of that name shadows the method, and calling [true] throws *)
  if has_key names "hasOwnProperty" then
    Throws "TypeError: names.hasOwnProperty is not a function"
  else
    let nameList := own_keys names in
    if (List.length nameList =? 0)%nat then Returns (Error "No names in CSR")
    else Returns (Names nameList).

(** [while (base64.length % 4 !== 0) base64 += '=']: three rounds are
    always enough. *)
Fixpoint pad (rounds : nat) (base64 : string) : string :=
  match rounds with
  | O => base64
  | S rounds' =>
      if (String.length base64 mod 4 =? 0)%nat then base64
      else pad rounds' (base64 ++ "=")
  end.

Definition pem_of (base64url : string) : string :=
  let base64 := replace_all "_" "/" (replace_all "-" "+" base64url) in
  let base64 := pad 3 base64 in
  "-----BEGIN CERTIFICATE REQUEST-----" ++ String "010" ""
    ++ base64 ++ String "010" ""
    ++ "-----END CERTIFICATE REQUEST-----" ++ String "010" "".

(** A validity bound handed to forge: the string of the order, the
    current date, or the current date moved to the next year
    ([d.setFullYear(new Date().getFullYear() + 1)]). *)
Inductive validity : Type :=
| FromOrder (s : string)
| At (date : option Z)
| NextYear (date : option Z) (year_of : option Z).

Section Forge.

(** [forge.pki.certificationRequestFromPem]; [None] when it throws. *)
Variable certificationRequestFromPem : string -> option CSR.

(** Lines 126-142 of [issueCRT] but the serial number: building,
    signing and DER-encoding the certificate from the request, the
    serial, the validity, the CA certificate and the CA key; [None]
    when forge throws. *)
Variable forge_certificate :
  CSR -> string -> validity -> validity -> string -> string -> option string.

Definition parseCSR (base64url : string) : outcome CSR :=
  match certificationRequestFromPem (pem_of base64url) with
  | Some csr => Returns csr
  | None => Throws "forge: cannot parse the certification request"
  end.

Definition checkCSR (base64url : string) : outcome CheckResult :=
  match parseCSR base64url with
  | Returns csr => checkParsed csr
  | Throws e => Throws e
  end.

(** [let nextSerialNumber = 1] *)
Definition initial_serial : N := 1.

(** [getNextSerialNumber], on the module variable [nextSerialNumber]. *)
Definition getNextSerialNumber (nextSerialNumber : N) : string * N :=
  let ser := toString16 nextSerialNumber in
  let ser := if (String.length ser mod 2 =? 1)%nat then "0" ++ ser else ser in
  (ser, increment nextSerialNumber).


Definition issueCRT (csr_base64url : string) (notBefore notAfter : validity)
           (caCert privateCAKey : string) (nextSerialNumber : N)
  : outcome string * N :=
  match parseCSR csr_base64url with
  | Throws e => (Throws e, nextSerialNumber)
  | Returns csr =>
      let '(serial, next) := getNextSerialNumber nextSerialNumber in
      match forge_certificate csr serial notBefore notAfter caCert privateCAKey with
      | Some der => (Returns der, next)
      | None => (Throws "forge: cannot issue the certificate", next)
      end
  end.

End Forge.

End Pki.

(* ===================================================================== *)
(** * lib/jose.js: ACMEJose.verify                                        *)
(* ===================================================================== *)

Module Jose.

(** The flattened JWS of a request body.  [jws_protected] is the field
    [protected]; [jws_payload] is [None] when the field is absent. *)
Record JWS : Type := {
  jws_protected : option string;
  jws_payload : option string;
  jws_signature : option string
}.

(** The fields of the protected header that [verify] reads. *)
Record Header : Type := {
  alg : option string;
  jwk : option string;
  kid : option string;
  nonce : option string;
  url : option string
}.

Section Verify.

(** node-jose and the caller's key lookup.  A key is [K]. *)
Variable K : Type.
(** [JSON.parse(utf8(base64url.decode(protected)))]; [None]: throws. *)
Variable decode_header : string -> option Header.
(** [jose.JWK.asKey(jwk)]; [None]: the promise is rejected. *)
Variable asKey : string -> option K.
(** [key.length] *)
Variable key_length : K -> Z.
(** [jose.JWS.createVerify(key).verify(jws)], with the payload parsed
    as the last [then] does; [None]: rejected. *)
Variable createVerify_verify : K -> JWS -> option string.
(** The second argument of [verify]; [None]: it throws (a miss). *)
Variable getKey : string -> option K.

Variable acmeVersion : string.

(** [verify(jws, getKey)]: the promise it returns, settled. *)
Definition verify (jws : JWS) : outcome (K * string) :=
  if negb (JS.truthy (jws_protected jws))
     || negb (match jws_payload jws with Some _ => true | None => false end)
     || negb (JS.truthy (jws_signature jws))
  then Throws "Non-flattened JWS"
  else
    match decode_header (match jws_protected jws with Some p => p | None => "" end) with
    | None => Throws "SyntaxError"
    | Some header =>
        if negb (JS.truthy (alg header))
           || negb (JS.truthy (kid header) || JS.truthy (jwk header))
           || negb (JS.truthy (nonce header))
        then Throws "Missing field in protected header"
        else if negb (acmeVersion =? "le") && negb (JS.truthy (url header))
        then Throws "Header must provide url"
        else
          let resolved :=
            if JS.truthy (kid header)
            then getKey (match kid header with Some k => k | None => "" end)
            else asKey (match jwk header with Some k => k | None => "" end) in
          match resolved with
          | None => Throws "key resolution failed"
          | Some key =>
              if (acmeVersion =? "le") && (key_length key <? 2048)%Z
              then Throws "key too small"
              else
                match createVerify_verify key jws with
                | Some payload => Returns (key, payload)
                | None => Throws "signature verification failed"
                end
          end
    end.

End Verify.

End Jose.

(* ===================================================================== *)
(** * lib/acme-server.js: the objects and the store                       *)
(* ===================================================================== *)

Module Acme.
Import JS.

(** The values the [status] fields take; each is a string literal of
    the source. *)
Inductive status : Type :=
| pending | ready | processing | valid | invalid | good.

Definition status_eqb (a b : status) : bool :=
  match a, b with
  | pending, pending | ready, ready | processing, processing
  | valid, valid | invalid, invalid | good, good => true
  | _, _ => false
  end.

(** The parsed JSON payload of a request, by the fields handlers read. *)
Record Payload : Type := {
  contact : option (list string);
  agreement : option string;
  csr : option string
}.

(** ** class Registration *)

Record Registration : Type := {
  reg_id : string;
  reg_status : status;
  reg_key : string;
  reg_contact : option (list string);
  reg_agreement : option string
}.

Definition new_Registration (id jwk : string) (contact : option (list string))
  : Registration :=
  {| reg_id := id; reg_status := good; reg_key := jwk;
     reg_contact := contact; reg_agreement := None |}.

Definition set_reg_contact (c : option (list string)) (r : Registration) :=
  {| reg_id := reg_id r; reg_status := reg_status r; reg_key := reg_key r;
     reg_contact := c; reg_agreement := reg_agreement r |}.

Definition set_reg_agreement (a : option string) (r : Registration) :=
  {| reg_id := reg_id r; reg_status := reg_status r; reg_key := reg_key r;
     reg_contact := reg_contact r; reg_agreement := a |}.

(** [select(this, Registration.publicFields)]: the truthy fields. *)
Record RegistrationView : Type := {
  view_key : string;
  view_reg_status : status;
  view_contact : option (list string);
  view_agreement : option string
}.

Definition Registration_marshal (r : Registration) : RegistrationView :=
  {| view_key := reg_key r; view_reg_status := reg_status r;
     view_contact := reg_contact r;
     view_agreement := if truthy (reg_agreement r) then reg_agreement r else None |}.

(** ** class Application *)

(** [{type, status, url}], what [asRequirement] builds. *)
Record Requirement : Type := {
  req_type : string;
  req_status : status;
  req_url : string
}.

Record Application : Type := {
  app_id : string;
  app_status : status;
  app_url : string;
  app_thumbprint : string;
  app_requirements : list Requirement;
  app_notBefore : option string;
  app_notAfter : option string;
  app_certificate : option string;
  app_authorizations : option (list string);   (* set by marshal *)
  app_finalize : option string                 (* set by marshal *)
}.

Definition set_app_status (s : status) (a : Application) : Application :=
  {| app_id := app_id a; app_status := s; app_url := app_url a;
     app_thumbprint := app_thumbprint a; app_requirements := app_requirements a;
     app_notBefore := app_notBefore a; app_notAfter := app_notAfter a;
     app_certificate := app_certificate a;
     app_authorizations := app_authorizations a; app_finalize := app_finalize a |}.

Definition set_app_requirements (l : list Requirement) (a : Application) : Application :=
  {| app_id := app_id a; app_status := app_status a; app_url := app_url a;
     app_thumbprint := app_thumbprint a; app_requirements := l;
     app_notBefore := app_notBefore a; app_notAfter := app_notAfter a;
     app_certificate := app_certificate a;
     app_authorizations := app_authorizations a; app_finalize := app_finalize a |}.

Definition set_app_certificate (c : option string) (a : Application) : Application :=
  {| app_id := app_id a; app_status := app_status a; app_url := app_url a;
     app_thumbprint := app_thumbprint a; app_requirements := app_requirements a;
     app_notBefore := app_notBefore a; app_notAfter := app_notAfter a;
     app_certificate := c;
     app_authorizations := app_authorizations a; app_finalize := app_finalize a |}.

Definition markAsReady (this : Application) : Application :=
  if status_eqb (app_status this) pending then
    let unfulfilled :=
      filter (fun req => negb (status_eqb (req_status req) valid))
             (app_requirements this) in
    if (List.length unfulfilled =? 0)%nat then set_app_status ready this
    else this
  else this.

Record ApplicationView : Type := {
  view_status : status;
  view_notBefore : option string;
  view_notAfter : option string;
  view_requirements : list Requirement;
  view_authorizations : list string;
  view_certificate : option string;
  view_finalize : string
}.

(** [marshal()] writes [authorizations] and [finalize] on the order and
    returns the selection of its truthy public fields. *)
Definition Application_marshal (this : Application) : ApplicationView * Application :=
  let authorizations := map req_url (app_requirements this) in
  let finalize := app_url this ++ "/finalize" in
  let this' :=
    {| app_id := app_id this; app_status := app_status this; app_url := app_url this;
       app_thumbprint := app_thumbprint this;
       app_requirements := app_requirements this;
       app_notBefore := app_notBefore this; app_notAfter := app_notAfter this;
       app_certificate := app_certificate this;
       app_authorizations := Some authorizations;
       app_finalize := Some finalize |} in
  ({| view_status := app_status this;
      view_notBefore := if truthy (app_notBefore this) then app_notBefore this else None;
      view_notAfter := if truthy (app_notAfter this) then app_notAfter this else None;
      view_requirements := app_requirements this;
      view_authorizations := authorizations;
      view_certificate :=
        if truthy (app_certificate this) then app_certificate this else None;
      view_finalize := finalize |}, this').

(** ** class Authorization *)

(** An element of [challengeObj].  The source builds one kind, [auto]. *)
Record Challenge : Type := {
  ch_type : string;
  ch_status : status
}.

(** What [toJSON()] returns, with the [url] that [update()] adds. *)
Record ChallengeJSON : Type := {
  json_type : string;
  json_status : status;
  json_url : string
}.

Definition auto_challenge : Challenge :=
  {| ch_type := "auto"; ch_status := pending |}.

(** [update: function() { this.status = 'valid'; ... }]: the argument
    is not read. *)
Definition Challenge_update (argument : option Payload) (this : Challenge) : Challenge :=
  {| ch_type := ch_type this; ch_status := valid |}.

Definition set_json_status (s : status) (c : ChallengeJSON) : ChallengeJSON :=
  {| json_type := json_type c; json_status := s; json_url := json_url c |}.

Record Authorization : Type := {
  authz_id : string;
  authz_status : status;
  authz_url : string;
  authz_thumbprint : string;
  authz_identifier : string;        (* identifier.value; the type is 'dns' *)
  authz_scope : option string;
  authz_expires : option Z;
  challengeObj : list Challenge;
  challenges : list ChallengeJSON
}.

Definition set_authz_status (s : status) (a : Authorization) : Authorization :=
  {| authz_id := authz_id a; authz_status := s; authz_url := authz_url a;
     authz_thumbprint := authz_thumbprint a; authz_identifier := authz_identifier a;
     authz_scope := authz_scope a; authz_expires := authz_expires a;
     challengeObj := challengeObj a; challenges := challenges a |}.

Definition set_challenges (l : list ChallengeJSON) (a : Authorization) : Authorization :=
  {| authz_id := authz_id a; authz_status := authz_status a; authz_url := authz_url a;
     authz_thumbprint := authz_thumbprint a; authz_identifier := authz_identifier a;
     authz_scope := authz_scope a; authz_expires := authz_expires a;
     challengeObj := challengeObj a; challenges := l |}.

Definition set_challengeObj (l : list Challenge) (a : Authorization) : Authorization :=
  {| authz_id := authz_id a; authz_status := authz_status a; authz_url := authz_url a;
     authz_thumbprint := authz_thumbprint a; authz_identifier := authz_identifier a;
     authz_scope := authz_scope a; authz_expires := authz_expires a;
     challengeObj := l; challenges := challenges a |}.

(** [i.toString()] *)
Definition index_toString (i : nat) : string :=
  NilEmpty.string_of_uint (Nat.to_uint i).

(** [challengeObj.map((x, i) => ...)], from index [i] on. *)
Fixpoint challenges_from (url : string) (i : nat) (l : list Challenge)
  : list ChallengeJSON :=
  match l with
  | [] => []
  | x :: l' =>
      {| json_type := ch_type x; json_status := ch_status x;
         json_url := url ++ "/" ++ index_toString i |}
      :: challenges_from url (S i) l'
  end.

(** [a < b] on two dates: false when either is the Invalid Date. *)
Definition Date_lt (a b : option Z) : bool :=
  match a, b with
  | Some x, Some y => (x <? y)%Z
  | _, _ => false
  end.

(** [update()], [now] being what [new Date()] gives inside it. *)
Definition Authorization_update (now : Z) (this : Authorization) : Authorization :=
  let this := set_challenges (challenges_from (authz_url this) 0 (challengeObj this)) this in
  let validChallenges :=
    filter (fun x => status_eqb (json_status x) valid) (challenges this) in
  if Date_lt (authz_expires this) (Some now) then set_authz_status invalid this
  else if (0 <? List.length validChallenges)%nat then set_authz_status valid this
  else this.

Definition asRequirement (this : Authorization) : Requirement :=
  {| req_type := "authorization"; req_status := authz_status this;
     req_url := authz_url this |}.

(** ** class Certificate *)

Record Certificate : Type := {
  cert_id : string;
  cert_url : string;
  cert_body : option string
}.

(** ** class DB

    [store[type]] is the list of the objects of that class, in the order
    their keys were created; the key of an object is its [id].  Keys are
    thumbprints and UUIDs: none is an array index, so this is also the
    order [for ... in] visits them in.  [store[type]] exists once an
    object of the class was put, and nothing is ever removed, so it
    exists exactly when the list is not empty.

    [table_get] is the own-key part of [DB.get], [None] when the class
    has no such key.  [DB_get] is what [DB.get] returns in full: [null]
    while the class has no table, the stored object, the member of
    [Object.prototype] the plain object inherits under that name, or
    [undefined].  For an identifier that is not such a name the two
    agree; the handlers that read the store through [table_get] are
    modelled for requests whose identifiers are not such names. *)

(** What [DB.get(type, id)] returns. *)
Inductive Lookup (T : Type) : Type :=
| Null                          (* [!this.store[type]]: [return null] *)
| Undefined                     (* no key of that name *)
| Inherited (name : string)     (* [Object.prototype[name]] *)
| Stored (o : T).
Arguments Null {T}.
Arguments Undefined {T}.
Arguments Inherited {T} name.
Arguments Stored {T} o.

Section Table.
Context {T : Type} (id_of : T -> string).

(** [store[type][id]] *)
Definition table_get (t : list T) (id : string) : option T :=
  find (fun o => id_of o =? id) t.

(** [get(type, id)], on the list of the class [type]. *)
Definition DB_get (t : list T) (id : string) : Lookup T :=
  match t with
  | [] => Null
  | _ :: _ =>
      match table_get t id with
      | Some o => Stored o
      | None => if inherited id then Inherited id else Undefined
      end
  end.

(** [store[type][obj.id] = obj] *)
Fixpoint table_put (obj : T) (t : list T) : list T :=
  match t with
  | [] => [obj]
  | o :: t' =>
      if id_of o =? id_of obj then obj :: t' else o :: table_put obj t'
  end.

End Table.

Record DB : Type := {
  store_reg : list Registration;
  store_app : list Application;
  store_authz : list Authorization;
  store_cert : list Certificate
}.

Definition with_reg (l : list Registration) (d : DB) : DB :=
  {| store_reg := l; store_app := store_app d;
     store_authz := store_authz d; store_cert := store_cert d |}.
Definition with_app (l : list Application) (d : DB) : DB :=
  {| store_reg := store_reg d; store_app := l;
     store_authz := store_authz d; store_cert := store_cert d |}.
Definition with_authz (l : list Authorization) (d : DB) : DB :=
  {| store_reg := store_reg d; store_app := store_app d;
     store_authz := l; store_cert := store_cert d |}.
Definition with_cert (l : list Certificate) (d : DB) : DB :=
  {| store_reg := store_reg d; store_app := store_app d;
     store_authz := store_authz d; store_cert := l |}.

Definition get_reg (d : DB) (id : string) := table_get reg_id (store_reg d) id.
Definition get_app (d : DB) (id : string) := table_get app_id (store_app d) id.
Definition get_authz (d : DB) (id : string) := table_get authz_id (store_authz d) id.
Definition get_cert (d : DB) (id : string) := table_get cert_id (store_cert d) id.

Definition put_reg (o : Registration) (d : DB) := with_reg (table_put reg_id o (store_reg d)) d.
Definition put_app (o : Application) (d : DB) := with_app (table_put app_id o (store_app d)) d.
Definition put_authz (o : Authorization) (d : DB) :=
  with_authz (table_put authz_id o (store_authz d)) d.
Definition put_cert (o : Certificate) (d : DB) := with_cert (table_put cert_id o (store_cert d)) d.

Definition authzFor (d : DB) (thumbprint name : string) : option Authorization :=
  find (fun authz => (authz_thumbprint authz =? thumbprint)
                     && (authz_identifier authz =? name))
       (store_authz d).

(** The callback of [app.requirements.map] in [updateAppsFor]. *)
Definition rewrite_requirement (authz : Authorization) (req : Requirement) : Requirement :=
  if (req_type req =? "authorization") && (req_url req =? authz_url authz)
  then {| req_type := req_type req; req_status := authz_status authz;
          req_url := req_url req |}
  else req.

(** [updateAppsFor(authz)]: the loop over [store['app']] rewrites the
    requirements of the orders of the account and collects these
    orders; [markAsReady] then runs on each of them.  ([this.put(app)]
    stores the order under the key it already has.) *)
Definition updateAppsFor (authz : Authorization) (d : DB) : DB :=
  let depends app := app_thumbprint app =? authz_thumbprint authz in
  let rewritten :=
    map (fun app =>
           if depends app
           then set_app_requirements
                  (map (rewrite_requirement authz) (app_requirements app)) app
           else app)
        (store_app d) in
  with_app (map (fun app => if depends app then markAsReady app else app) rewritten) d.


(* =================================================================== *)
(** ** The request, the response and the effects of a handler          *)
(* =================================================================== *)

(** What the transport hands to a handler. *)
Record Request : Type := {
  accountKey : string;
  accountKeyThumbprint : string;
  params_id : string;
  params_index : string;
  payload : Payload
}.

Inductive Body : Type :=
| Problem (type title : string) (description : option string)
| OfRegistration (view : RegistrationView)
| OfApplication (view : ApplicationView)
| OfChallenge (challenge : option ChallengeJSON)
| OfAuthorization (s : status) (identifier : string) (challenge_url : string)
| OfMember (challenge_url : string).   (* [{challenges: [{..., url}]}]: what
                                          [getAuthz] sends of an inherited member *)

Definition problem (type title : string) (description : option string) : Body :=
  Problem ("urn:ietf:params:acme:error:" ++ type) title description.

Record Response : Type := {
  statusCode : Z;
  headers : list (string * string);
  body : option Body;
  sent : bool
}.

Definition fresh_response : Response :=
  {| statusCode := 200; headers := []; body := None; sent := false |}.

(** Modelled from the spec: the transport ([lib/transport-server.js]) is
    not among the sources; it attaches the parsed payload to the
    request (section 4.2), and the response object of the HTTP surface
    has no [payload] field, so [res.payload] is [undefined]. *)
Definition res_payload (res : Response) : option Payload := None.

(** What happened, in order. *)
Inductive Event : Type :=
| HookCalled (authz : string) (index : Z) (argument : option Payload)
| StatusRecomputed (authz : string)
| OrdersUpdated (authz : string)
| ResponseSent (code : Z) (content : option Body).

Record World : Type := {
  db : DB;
  nextSerialNumber : N;     (* the module variable of pki.js *)
  uuids : nat;              (* calls of uuid.v4() so far *)
  dates : nat;              (* calls of new Date() so far *)
  res : Response;
  log : list Event
}.

Definition with_db (d : DB) (w : World) : World :=
  {| db := d; nextSerialNumber := nextSerialNumber w; uuids := uuids w;
     dates := dates w; res := res w; log := log w |}.
Definition with_res (r : Response) (w : World) : World :=
  {| db := db w; nextSerialNumber := nextSerialNumber w; uuids := uuids w;
     dates := dates w; res := r; log := log w |}.
Definition with_log (l : list Event) (w : World) : World :=
  {| db := db w; nextSerialNumber := nextSerialNumber w; uuids := uuids w;
     dates := dates w; res := res w; log := l |}.

(** A computation on the world that returns or throws. *)
Definition M (A : Type) : Type := World -> outcome A * World.

Definition ret {A} (a : A) : M A := fun w => (Returns a, w).

Definition throw {A} (e : string) : M A := fun w => (Throws e, w).

Definition bind {A B} (m : M A) (k : A -> M B) : M B :=
  fun w =>
    match m w with
    | (Returns a, w') => k a w'
    | (Throws e, w') => (Throws e, w')
    end.

Declare Scope handler_scope.
Delimit Scope handler_scope with handler.
Notation "x <- m ;; k" := (bind m (fun x => k))
  (at level 61, m at next level, right associativity) : handler_scope.
Notation "m ;; k" := (bind m (fun _ => k))
  (at level 61, right associativity) : handler_scope.
Local Open Scope handler_scope.

Definition read_db : M DB := fun w => (Returns (db w), w).
Definition write_db (f : DB -> DB) : M unit :=
  fun w => (Returns tt, with_db (f (db w)) w).
Definition record (e : Event) : M unit :=
  fun w => (Returns tt, with_log (log w ++ [e]) w).
Definition read_res : M Response := fun w => (Returns (res w), w).
Definition write_res (f : Response -> Response) : M unit :=
  fun w => (Returns tt, with_res (f (res w)) w).

Definition res_status (code : Z) : M unit :=
  write_res (fun r => {| statusCode := code; headers := headers r;
                         body := body r; sent := sent r |}).
Definition res_set (name value : string) : M unit :=
  write_res (fun r => {| statusCode := statusCode r;
                         headers := headers r ++ [(name, value)];
                         body := body r; sent := sent r |}).
Definition res_links (rel target : string) : M unit :=
  res_set "link" ("<" ++ target ++ ">; rel=" ++ rel).
Definition res_end : M unit :=
  write_res (fun r => {| statusCode := statusCode r; headers := headers r;
                         body := body r; sent := true |}).
Definition res_send (content : option Body) : M unit :=
  r <- read_res ;;
  record (ResponseSent (statusCode r) content) ;;
  write_res (fun r => {| statusCode := statusCode r; headers := headers r;
                         body := content; sent := true |}).

(** [TimeClip]: a time value out of range is the Invalid Date. *)
Definition TimeClip (t : Z) : option Z :=
  if (Z.abs t <=? 8640000000000000)%Z then Some t else None.

Record Policy : Type := {
  authzExpirySeconds : option Z;    (* whole seconds, or undefined *)
  scopedAuthorizations : bool;
  challenges_auto : bool
}.

Record Server : Type := {
  baseURL : string;
  policy : Policy;
  terms : option string;
  caKey : string;
  caCert : string
}.

Definition makeURL (server : Server) (type id : string) : string :=
  baseURL server ++ "/" ++ type ++ "/" ++ id.

Fixpoint update_nth {A} (i : nat) (f : A -> A) (l : list A) : list A :=
  match l, i with
  | [], _ => []
  | x :: l', O => f x :: l'
  | x :: l', S i' => x :: update_nth i' f l'
  end.

Section Engine.

(** node-uuid: the [n]-th identifier [uuid.v4()] hands out. *)
Variable uuid_v4 : nat -> string.
(** The wall clock: what the [n]-th [new Date()] reads, in ms. *)
Variable clock : nat -> Z.
(** forge, as in [Pki]. *)
Variable certificationRequestFromPem : string -> option Pki.CSR.
Variable forge_certificate :
  Pki.CSR -> string -> Pki.validity -> Pki.validity -> string -> string
  -> option string.

Definition new_Date : M Z :=
  fun w => (Returns (clock (dates w)),
            {| db := db w; nextSerialNumber := nextSerialNumber w;
               uuids := uuids w; dates := S (dates w);
               res := res w; log := log w |}).

Definition new_uuid : M string :=
  fun w => (Returns (uuid_v4 (uuids w)),
            {| db := db w; nextSerialNumber := nextSerialNumber w;
               uuids := S (uuids w); dates := dates w;
               res := res w; log := log w |}).

(** [authz.update()] on an authorization of the store: the live
    object changes, that is, the entry under its key does. *)
Definition update_stored (authz : Authorization) : M Authorization :=
  now <- new_Date ;;
  let authz := Authorization_update now authz in
  write_db (put_authz authz) ;;
  record (StatusRecomputed (authz_id authz)) ;;
  ret authz.

(** [new Authorization(server, thumbprint, name, scope)] *)
Definition new_Authorization (server : Server) (thumbprint name : string)
           (scope : option string) : M Authorization :=
  id <- new_uuid ;;
  created <- new_Date ;;
  let expires :=
    match authzExpirySeconds (policy server) with
    | Some seconds => TimeClip (created + seconds * 1000)
    | None => None
    end in
  let this :=
    {| authz_id := id; authz_status := pending;
       authz_url := makeURL server "authz" id;
       authz_thumbprint := thumbprint; authz_identifier := name;
       authz_scope := scope; authz_expires := expires;
       challengeObj := if challenges_auto (policy server) then [auto_challenge] else [];
       challenges := [] |} in
  now <- new_Date ;;
  record (StatusRecomputed id) ;;
  ret (Authorization_update now this).

(** [CA.issueCertificate], on the serial counter of the world. *)
Definition issueCertificate (server : Server) (csr : string)
           (notBefore notAfter : Pki.validity) : M string :=
  fun w =>
    let '(result, next) :=
      Pki.issueCRT certificationRequestFromPem forge_certificate
                   csr notBefore notAfter (caCert server) (caKey server)
                   (nextSerialNumber w) in
    (result, {| db := db w; nextSerialNumber := next; uuids := uuids w;
                dates := dates w; res := res w; log := log w |}).

(* ----------------------------------------------------------------- *)
(** *** getAuthz *)


(* ----------------------------------------------------------------- *)
(** *** fetchChallenge *)

(** [!authz || isNaN(index) || !(index in authz.challenges)]: the
    authorization and the index when the test is false. *)
Definition existing_challenge (authz : option Authorization) (index : option Z)
  : option (Authorization * Z) :=
  match authz, index with
  | Some a, Some i => if has_index (challenges a) i then Some (a, i) else None
  | _, _ => None
  end.

Definition fetchChallenge (req : Request) : M unit :=
  d <- read_db ;;
  let authz := get_authz d (params_id req) in
  let index := parseInt (params_index req) in
  match existing_challenge authz index with
  | None => res_status 404 ;; res_end
  | Some (authz, index) =>
      authz <- update_stored authz ;;
      (* this.db.put(authz): stored under its key already *)
      match challenges authz with
      | [] => throw "TypeError: Cannot set properties of undefined (setting 'status')"
      | first :: others =>
          let authz := set_challenges (set_json_status valid first :: others) authz in
          write_db (put_authz authz) ;;
          res_status 200 ;;
          res_send (Some (OfChallenge (at_index (challenges authz) index)))
      end
  end.

(* ----------------------------------------------------------------- *)
(** *** updateReg *)

Definition quote : string := String "034" "".

Definition send_registration (server : Server) (reg : Registration) : M unit :=
  res_status 200 ;;
  (if truthy (terms server)
   then res_links (quote ++ "terms-of-service" ++ quote)
                  (match terms server with Some t => t | None => "" end)
   else ret tt) ;;
  res_send (Some (OfRegistration (Registration_marshal reg))).

(** [a !== b] for the agreement of the payload and [this.terms]. *)
Definition differs (a b : option string) : bool :=
  match a, b with
  | Some x, Some y => negb (x =? y)
  | None, None => false
  | _, _ => true
  end.

Definition updateReg (server : Server) (req : Request) : M unit :=
  let thumbprint := accountKeyThumbprint req in
  d <- read_db ;;
  match get_reg d thumbprint with
  | None =>
      res_status 401 ;;
      res_send (Some (problem "unauthorized" "Unknown account key" None))
  | Some reg =>
      if negb (params_id req =? thumbprint) then
        res_status 401 ;;
        res_send (Some (problem "unauthorized" "Unauthorized account key" None))
      else
        (* if (req.payload.contact) reg.contact = req.payload.contact *)
        reg <- match contact (payload req) with
               | Some c =>
                   let reg := set_reg_contact (Some c) reg in
                   write_db (put_reg reg) ;; ret reg
               | None => ret reg
               end ;;
        if truthy (agreement (payload req)) then
          if differs (agreement (payload req)) (terms server) then
            res_status 400 ;;
            res_send (Some (problem "malformed" "Incorrect agreement URL" None))
          else
            let reg := set_reg_agreement (agreement (payload req)) reg in
            write_db (put_reg reg) ;;
            (* this.db.put(reg) *)
            send_registration server reg
        else
          (* this.db.put(reg) *)
          send_registration server reg
  end.

(* ----------------------------------------------------------------- *)
(** *** finalizeOrder *)

(** The [try] block: the message of the error it throws, or the names
    and the request. *)
Definition checked_request (req : Request) : string + (list string * string) :=
  match csr (payload req) with
  | None | Some EmptyString => inl "CSR must be provided"
  | Some text =>
      match Pki.checkCSR certificationRequestFromPem text with
      | Throws e => inl e
      | Returns (Pki.Error e) => inl e
      | Returns (Pki.Names names) => inr (names, text)
      end
  end.

(** The loop over the names of the request. *)
Fixpoint authorize_names (server : Server) (thumbprint : string)
         (scope : option string) (names : list string) : M unit :=
  match names with
  | [] => ret tt
  | name :: names' =>
      d <- read_db ;;
      authz <- match authzFor d thumbprint name with
               | Some authz => ret authz
               | None => new_Authorization server thumbprint name scope
               end ;;
      write_db (put_authz authz) ;;
      authorize_names server thumbprint scope names'
  end.

Definition finalizeOrder (server : Server) (req : Request) : M unit :=
  let thumbprint := accountKeyThumbprint req in
  d <- read_db ;;
  match get_reg d thumbprint with
  | None =>
      res_status 401 ;;
      res_send (Some (problem "unauthorized" "Unknown account key" None))
  | Some reg =>
      match get_app d (params_id req) with
      | None => res_status 404
      | Some order =>
          let order := set_app_status processing order in
          write_db (put_app order) ;;
          (* new Certificate(this) *)
          cert_id <- new_uuid ;;
          let cert_url := makeURL server "cert" cert_id in
          let scope := if scopedAuthorizations (policy server)
                       then Some cert_url else None in
          match checked_request req with
          | inl message =>
              res_status 400 ;;
              res_send (Some (problem "malformed" "Invalid new certificate request"
                                      (Some message))) ;;
              write_db (put_app (set_app_status ready order))
          | inr (names, csr) =>
              notBefore <- (if truthy (app_notBefore order)
                            then ret (Pki.FromOrder
                                        (match app_notBefore order with
                                         | Some s => s | None => "" end))
                            else now <- new_Date ;; ret (Pki.At (Some now))) ;;
              notAfter <- (if truthy (app_notAfter order)
                           then ret (Pki.FromOrder
                                       (match app_notAfter order with
                                        | Some s => s | None => "" end))
                           else
                             date <- new_Date ;;
                             this_year <- new_Date ;;
                             ret (Pki.NextYear (Some date) (Some this_year))) ;;
              authorize_names server thumbprint scope names ;;
              der <- issueCertificate server csr notBefore notAfter ;;
              let order := set_app_certificate (Some cert_url)
                             (set_app_status valid order) in
              write_db (put_app order) ;;
              write_db (put_cert {| cert_id := cert_id; cert_url := cert_url;
                                    cert_body := Some der |}) ;;
              res_status 201 ;;
              res_set "location" (app_url order) ;;
              let '(view, order) := Application_marshal order in
              write_db (put_app order) ;;
              res_send (Some (OfApplication view))
          end
      end
  end.

(* ----------------------------------------------------------------- *)
(** *** updateAuthz

    The authorization is read through [get_authz]: the handler is
    modelled for identifiers that are not names of members of
    [Object.prototype] (for those, [authz] is the inherited member and
    [index in authz.challenges] throws). *)

Definition updateAuthz (req : Request) : M unit :=
  d <- read_db ;;
  let authz := get_authz d (params_id req) in
  let index := parseInt (params_index req) in
  match existing_challenge authz index with
  | None => res_status 404 ;; res_end
  | Some (authz, index) =>
      let thumbprint := accountKeyThumbprint req in
      match get_reg d thumbprint with
      | None =>
          res_status 401 ;;
          res_send (Some (problem "unauthorized" "Unknown account key" None)) ;;
          res_end
      | Some reg =>
          if negb (reg_id reg =? authz_thumbprint authz) then
            res_status 401 ;;
            res_send (Some (problem "unauthorized" "Unauthorized account key" None)) ;;
            res_end
          else
            match at_index (challengeObj authz) index with
            | None => throw "TypeError: Cannot read properties of undefined (reading 'update')"
            | Some _ =>
                (* authz.challengeObj[index].update(res.payload) *)
                r <- read_res ;;
                let argument := res_payload r in
                let authz :=
                  set_challengeObj
                    (update_nth (Z.to_nat index) (Challenge_update argument)
                                (challengeObj authz)) authz in
                write_db (put_authz authz) ;;
                record (HookCalled (authz_id authz) index argument) ;;
                (* .then(() => { authz.update(); }) *)
                authz <- update_stored authz ;;
                (* .then(() => { this.db.updateAppsFor(authz); }) *)
                write_db (updateAppsFor authz) ;;
                record (OrdersUpdated (authz_id authz)) ;;
                (* .then(() => { res.status(200); res.send(...); res.end(); }) *)
                res_status 200 ;;
                res_send (Some (OfChallenge (at_index (challenges authz) index))) ;;
                res_end
            end
      end
  end.

End Engine.

End Acme.

(* ===================================================================== *)
(** * Concrete objects, used to run the definitions                       *)
(* ===================================================================== *)

Module Samples.
Import Acme.

(** An account, and a second one. *)
Definition alice : Registration :=
  new_Registration "aa11" "alice-key" (Some ["mailto:alice@example.com"]).
Definition bob : Registration :=
  new_Registration "bb22" "bob-key" None.

(** An authorization of alice with the [auto] challenge, expiring at
    instant 1000. *)
Definition authz_with (s : status) : Authorization :=
  {| authz_id := "authz-1"; authz_status := s;
     authz_url := "http://localhost/authz/authz-1";
     authz_thumbprint := "aa11"; authz_identifier := "example.com";
     authz_scope := None; authz_expires := Some 1000%Z;
     challengeObj := [auto_challenge];
     challenges := [{| json_type := "auto"; json_status := pending;
                       json_url := "http://localhost/authz/authz-1/0" |}] |}.

Definition authz1 : Authorization := authz_with pending.

Definition requirement1 (s : status) : Requirement :=
  {| req_type := "authorization"; req_status := s;
     req_url := "http://localhost/authz/authz-1" |}.

(** Orders of alice on [authz1], by status. *)
Definition order1 (s : status) (requirement : status) : Application :=
  {| app_id := "order-1"; app_status := s;
     app_url := "http://localhost/app/order-1";
     app_thumbprint := "aa11";
     app_requirements := [requirement1 requirement];
     app_notBefore := None; app_notAfter := None; app_certificate := None;
     app_authorizations := None; app_finalize := None |}.

Definition store1 (order : Application) : DB :=
  {| store_reg := [alice; bob]; store_app := [order];
     store_authz := [authz1]; store_cert := [] |}.

Definition world1 (order : Application) : World :=
  {| db := store1 order; nextSerialNumber := Pki.initial_serial;
     uuids := 0; dates := 0; res := fresh_response; log := [] |}.

Definition server1 : Server :=
  {| baseURL := "http://localhost";
     policy := {| authzExpirySeconds := Some 3600%Z;
                  scopedAuthorizations := false; challenges_auto := true |};
     terms := Some "https://example.com/terms";
     caKey := "ca-key"; caCert := "ca-cert" |}.

Definition no_payload : Payload :=
  {| contact := None; agreement := None; csr := None |}.

Definition request (thumbprint id index : string) (p : Payload) : Request :=
  {| accountKey := "key"; accountKeyThumbprint := thumbprint;
     params_id := id; params_index := index; payload := p |}.

(** An update of the contact with an agreement that is not the terms of
    [server1]. *)
Definition wrong_agreement : Payload :=
  {| contact := Some ["mailto:new@example.com"];
     agreement := Some "https://wrong"; csr := None |}.

(** A challenge response. *)
Definition key_authorization : Payload :=
  {| contact := None; agreement := None; csr := Some "token.thumbprint" |}.

(** A finalize request; the parser of the sample decides what the text
    stands for. *)
Definition csr_payload : Payload :=
  {| contact := None; agreement := None; csr := Some "MIIC" |}.

(** A CA that signs whatever it is given. *)
Definition forge_signs (request : Pki.CSR) (serial : string)
           (notBefore notAfter : Pki.validity) (caCert caKey : string)
  : option string :=
  Some ("der-" ++ serial).


(** A clock that stands at instant 500. *)
Definition clock500 (n : nat) : Z := 500%Z.

Definition uuid_of (n : nat) : string := "uuid-" ++ index_toString n.

(** *** Certification requests *)

Definition cn (value : string) : Pki.SubjectAttribute :=
  {| Pki.sa_name := Some "commonName"; Pki.sa_value := value |}.

Definition dns (value : string) : Pki.GeneralName :=
  {| Pki.san_type := 2; Pki.san_value := value |}.

Definition san_extension (l : list Pki.GeneralName) : Pki.Extension :=
  {| Pki.ext_name := Some "subjectAltName"; Pki.ext_altNames := l |}.

Definition extensionRequest (l : list Pki.Extension) : Pki.Attribute :=
  {| Pki.attr_name := Some "extensionRequest"; Pki.attr_extensions := l |}.

(** The request of the test suite: CN=not-example.com with the SANs
    not-example.com and www.not-example.com. *)
Definition testCSR : Pki.CSR :=
  {| Pki.subject_attributes := [cn "not-example.com"];
     Pki.attributes :=
       [extensionRequest
          [san_extension [dns "not-example.com"; dns "www.not-example.com"]]] |}.

(** O=Example Org, CN=example.com. *)
Definition csr_with_organization : Pki.CSR :=
  {| Pki.subject_attributes :=
       [{| Pki.sa_name := Some "organizationName"; Pki.sa_value := "Example Org" |};
        cn "example.com"];
     Pki.attributes := [] |}.

(** CN=example.com with a challengePassword attribute. *)
Definition csr_with_password : Pki.CSR :=
  {| Pki.subject_attributes := [cn "example.com"];
     Pki.attributes :=
       [{| Pki.attr_name := Some "challengePassword"; Pki.attr_extensions := [] |}] |}.

(** CN=example.com with a keyUsage extension. *)
Definition csr_with_keyUsage : Pki.CSR :=
  {| Pki.subject_attributes := [cn "example.com"];
     Pki.attributes :=
       [extensionRequest
          [{| Pki.ext_name := Some "keyUsage"; Pki.ext_altNames := [] |}]] |}.

(** CN=example.com with an iPAddress SAN (type 7). *)
Definition csr_with_ip : Pki.CSR :=
  {| Pki.subject_attributes := [cn "example.com"];
     Pki.attributes :=
       [extensionRequest
          [san_extension [{| Pki.san_type := 7; Pki.san_value := "127.0.0.1" |}]]] |}.

(** CN=example.com with a dNSName SAN that is no DNS name. *)
Definition csr_with_bad_name : Pki.CSR :=
  {| Pki.subject_attributes := [cn "example.com"];
     Pki.attributes :=
       [extensionRequest [san_extension [dns "not a dns name"]]] |}.

(** A parser that knows one request. *)
Definition parses_to (csr : Pki.CSR) (pem : string) : option Pki.CSR := Some csr.

(** *** Signed requests *)

(** A protected header with both [jwk] and [kid]. *)
Definition header_with_both : Jose.Header :=
  {| Jose.alg := Some "ES256"; Jose.jwk := Some "inline-key";
     Jose.kid := Some "http://localhost/reg/aa11";
     Jose.nonce := Some "nonce-1"; Jose.url := Some "http://localhost/new-app" |}.

Definition signed_request : Jose.JWS :=
  {| Jose.jws_protected := Some "eyJ"; Jose.jws_payload := Some "";
     Jose.jws_signature := Some "sig" |}.

(** A key store with the key of alice, and node-jose accepting the
    signature of [signed_request] under any key. *)
Definition lookup_alice (kid : string) : option string :=
  if kid =? "http://localhost/reg/aa11" then Some "alice-key" else None.

Definition verify_sample : Jose.JWS -> outcome (string * string) :=
  Jose.verify string (fun _ => Some header_with_both)
              (fun jwk => Some jwk) (fun _ => 256%Z)
              (fun _ _ => Some "{}") lookup_alice "ietf-draft".

End Samples.

(* ===================================================================== *)
(** * lib/acme-server.js: the other handlers                              *)
(* ===================================================================== *)

Module AcmeRest.
Import JS Acme.
Local Open Scope handler_scope.

(** The fields of the payload that [newApp] reads.  [identifiers] is the
    list of the [value]s of the identifier objects; [None] when the
    payload has no such field. *)
Record NewOrder : Type := {
  identifiers : option (list string);
  notBefore : option string;
  notAfter : option string
}.

(** [select(this, Authorization.publicFields)]: [identifier], [status],
    [expires] and [challenges] are always truthy, [scope] may not be, and
    [combinations] is never set. *)
Record AuthorizationView : Type := {
  view_identifier : string;
  view_authz_status : status;
  view_expires : option Z;
  view_scope : option string;
  view_challenges : list ChallengeJSON
}.

Definition select_Authorization (this : Authorization) : AuthorizationView :=
  {| view_identifier := authz_identifier this;
     view_authz_status := authz_status this;
     view_expires := authz_expires this;
     view_scope := if truthy (authz_scope this) then authz_scope this else None;
     view_challenges := challenges this |}.

(** What [fetch] and [getCert] hand to [res.send]. *)
Inductive Content : Type :=
| Json (content : Body)
| AuthorizationJson (view : AuthorizationView)
| Der (bytes : string)
| NoContent.                       (* '' *)

Section Handlers.

(** node-uuid and the wall clock, as in [Acme]. *)
Variable uuid_v4 : nat -> string.
Variable clock : nat -> Z.
(** [new Date(text).getTime()]; [None] is NaN. *)
Variable Date_parse : string -> option Z.

(** [Authorization.marshal()]: [update()] on the live object, then the
    selection. *)
Definition Authorization_marshal (this : Authorization) : M AuthorizationView :=
  this <- update_stored clock this ;;
  ret (select_Authorization this).

(* --------------------------------------------------------------------- *)
(** *** newReg *)

Definition newReg (server : Server) (req : Request) : M unit :=
  let jwk := accountKey req in
  let contact := contact (payload req) in
  let thumbprint := accountKeyThumbprint req in
  d <- read_db ;;
  match get_reg d thumbprint with
  | Some existing =>
      res_status 200 ;;
      res_set "location" (makeURL server "reg" (reg_id existing)) ;;
      res_end
  | None =>
      let reg := new_Registration thumbprint jwk contact in
      write_db (put_reg reg) ;;
      res_status 201 ;;
      res_set "location" (makeURL server "reg" (reg_id reg)) ;;
      (if truthy (terms server)
       then res_links (quote ++ "terms-of-service" ++ quote)
                      (match terms server with Some t => t | None => "" end)
       else ret tt) ;;
      res_send (Some (OfRegistration (Registration_marshal reg)))
  end.

(* --------------------------------------------------------------------- *)
(** *** newApp *)

(** [new Application(server, thumbprint)] *)
Definition new_Application (server : Server) (thumbprint : string) : M Application :=
  id <- new_uuid uuid_v4 ;;
  ret {| app_id := id; app_status := pending;
         app_url := makeURL server "app" id;
         app_thumbprint := thumbprint; app_requirements := [];
         app_notBefore := None; app_notAfter := None; app_certificate := None;
         app_authorizations := None; app_finalize := None |}.

(** [isNaN(new Date(text).getTime())] *)
Definition invalid_date (text : option string) : bool :=
  match Date_parse (match text with Some t => t | None => "" end) with
  | Some _ => false
  | None => true
  end.

(** The [try] block: the message of the error it throws, or the names
    and the two dates it writes on the order. *)
Definition read_order (p : NewOrder)
  : string + (list string * option string * option string) :=
  match identifiers p with
  | None => inl "Cannot read properties of undefined (reading 'map')"
  | Some names =>
      if truthy (notBefore p) && invalid_date (notBefore p)
      then inl "Invalid notBefore format"
      else if truthy (notAfter p) && invalid_date (notAfter p)
      then inl "Invalid notAfter format"
      else inr (names,
                if truthy (notBefore p) then notBefore p else None,
                if truthy (notAfter p) then notAfter p else None)
  end.

(** The loop over the names: the requirements are pushed on the order,
    which is not in the store yet. *)
Fixpoint require_names (server : Server) (thumbprint : string)
         (scope : option string) (names : list string) (app : Application)
  : M Application :=
  match names with
  | [] => ret app
  | name :: names' =>
      d <- read_db ;;
      authz <- match authzFor d thumbprint name with
               | Some authz => ret authz
               | None => new_Authorization uuid_v4 clock server thumbprint name scope
               end ;;
      write_db (put_authz authz) ;;
      require_names server thumbprint scope names'
        (set_app_requirements (app_requirements app ++ [asRequirement authz])%list app)
  end.

Definition newApp (server : Server) (thumbprint : string) (p : NewOrder) : M unit :=
  d <- read_db ;;
  match get_reg d thumbprint with
  | None =>
      res_status 401 ;;
      res_send (Some (problem "unauthorized" "Unknown account key" None))
  | Some reg =>
      app <- new_Application server thumbprint ;;
      let scope := if scopedAuthorizations (policy server)
                   then Some (app_url app) else None in
      match read_order p with
      | inl message =>
          res_status 400 ;;
          res_send (Some (problem "malformed" "Invalid new application" (Some message)))
      | inr (names, before, after) =>
          let app :=
            {| app_id := app_id app; app_status := app_status app;
               app_url := app_url app; app_thumbprint := app_thumbprint app;
               app_requirements := app_requirements app;
               app_notBefore := before; app_notAfter := after;
               app_certificate := app_certificate app;
               app_authorizations := app_authorizations app;
               app_finalize := app_finalize app |} in
          app <- require_names server thumbprint scope names app ;;
          write_db (put_app app) ;;
          res_status 201 ;;
          res_set "location" (app_url app) ;;
          let '(view, app) := Application_marshal app in
          write_db (put_app app) ;;
          res_send (Some (OfApplication view))
      end
  end.

(* --------------------------------------------------------------------- *)
(** *** getOrder *)

Definition getOrder (req : Request) : M unit :=
  d <- read_db ;;
  match get_app d (params_id req) with
  | None => res_status 404
  | Some order =>
      res_status 200 ;;
      let '(view, order) := Application_marshal order in
      write_db (put_app order) ;;
      res_send (Some (OfApplication view))
  end.

(* --------------------------------------------------------------------- *)
(** *** getCert

    The value handed to [res.send] is what the computation returns;
    [None] when nothing is sent. *)

Definition getCert (req : Request) : M (option Content) :=
  d <- read_db ;;
  match get_reg d (accountKeyThumbprint req) with
  | None =>
      res_status 401 ;;
      res_end ;;
      ret (Some (Json (problem "unauthorized" "Unknown account key" None)))
  | Some reg =>
      match get_cert d (params_id req) with
      | None => res_status 404 ;; ret None
      | Some cert =>
          res_end ;;
          ret (match cert_body cert with
               | Some der => Some (Der der)
               | None => Some NoContent        (* res.send(undefined) *)
               end)
      end
  end.

(* --------------------------------------------------------------------- *)
(** *** fetch

    [type] is one of the four classes or a type nothing is stored under.
    The status is written on the response; the body handed to [res.send]
    is what the computation returns. *)

(** [body = this.db.get(type, id); if (body) body = body.marshal()]:
    [None] when [body] ends up falsy. *)
Definition fetch_body (type id : string) : M (option Content) :=
  d <- read_db ;;
  if type =? "reg" then
    match get_reg d id with
    | Some reg => ret (Some (Json (OfRegistration (Registration_marshal reg))))
    | None => ret None
    end
  else if type =? "app" then
    match get_app d id with
    | Some app =>
        let '(view, app) := Application_marshal app in
        write_db (put_app app) ;;
        ret (Some (Json (OfApplication view)))
    | None => ret None
    end
  else if type =? "authz" then
    match get_authz d id with
    | Some authz =>
        view <- Authorization_marshal authz ;;
        ret (Some (AuthorizationJson view))
    | None => ret None
    end
  else if type =? "cert" then
    match get_cert d id with
    | Some cert =>
        ret (match cert_body cert with
             | Some der => Some (Der der)
             | None => None
             end)
    | None => ret None
    end
  else ret None.

Definition fetch (type id : string) : M Content :=
  body <- fetch_body type id ;;
  let '(status, body) :=
    if type =? "reg" then
      (401%Z, Json (problem "unauthorized"
                            "GET requests not allowed for registrations" None))
    else
      match body with
      | Some content => (200%Z, content)
      | None => (404%Z, NoContent)
      end in
  res_status status ;;
  res_end ;;
  ret body.

End Handlers.

End AcmeRest.

(* ===================================================================== *)
(** * Notions used to state properties                                    *)
(* ===================================================================== *)

Module Notions.
Import JS.

(** The characters the classes of a regular expression let through. *)
Fixpoint alphabet (r : regex) (c : ascii) : bool :=
  match r with
  | Empty | Eps => false
  | Cls ranges => in_class ranges c
  | Seq r1 r2 | Alt r1 r2 => alphabet r1 c || alphabet r2 c
  | Star r1 | Rep r1 _ _ => alphabet r1 c
  end.

(** Lower-case letters, digits, the hyphen and the dot. *)
Definition dns_characters : list (ascii * ascii) :=
  [("a", "z"); ("0", "9"); ("-", "-"); (".", ".")]%char.

(** A sufficient test that every string of a regular expression has a
    dot in it. *)
Fixpoint needs_dot (r : regex) : bool :=
  match r with
  | Empty => true
  | Eps => false
  | Cls [(lo, hi)] => Ascii.eqb lo "." && Ascii.eqb hi "."
  | Cls _ => false
  | Seq r1 r2 => needs_dot r1 || needs_dot r2
  | Alt r1 r2 => needs_dot r1 && needs_dot r2
  | Star _ => false
  | Rep r1 lo _ => negb (lo =? 0)%nat && needs_dot r1
  end.

(** One order through both passes of [updateAppsFor]. *)
Definition order_after (authz : Acme.Authorization) (app : Acme.Application)
  : Acme.Application :=
  if Acme.app_thumbprint app =? Acme.authz_thumbprint authz
  then Acme.markAsReady
         (Acme.set_app_requirements
            (map (Acme.rewrite_requirement authz) (Acme.app_requirements app)) app)
  else app.

(** The store of authorizations has distinct keys, and the identifiers
    [uuid.v4()] has yet to hand out are not among them. *)
Definition fresh_ids (uuid_v4 : nat -> string) (w : Acme.World) : Prop :=
  NoDup (map Acme.authz_id (Acme.store_authz (Acme.db w)))
  /\ forall n : nat,
      (Acme.uuids w <= n)%nat ->
      ~ In (uuid_v4 n) (map Acme.authz_id (Acme.store_authz (Acme.db w))).

(** The requirement is that of the authorization [authzFor] finds in the
    store for the account and the name. *)
Definition requires (d : Acme.DB) (thumbprint name : string) (r : Acme.Requirement)
  : Prop :=
  exists authz : Acme.Authorization,
    Acme.authzFor d thumbprint name = Some authz
    /\ r = Acme.asRequirement authz.

(** The bounds of the validity [finalizeOrder] hands to the CA: those of
    the order where it has them, else the current date and the current
    date a year on. *)
Definition validity_of (clock : nat -> Z) (order : Acme.Application) (w : Acme.World)
  : Pki.validity * Pki.validity :=
  let given (field : option string) :=
    Pki.FromOrder (match field with Some s => s | None => "" end) in
  let read := if truthy (Acme.app_notBefore order)
              then Acme.dates w else S (Acme.dates w) in
  (if truthy (Acme.app_notBefore order)
   then given (Acme.app_notBefore order)
   else Pki.At (Some (clock (Acme.dates w))),
   if truthy (Acme.app_notAfter order)
   then given (Acme.app_notAfter order)
   else Pki.NextYear (Some (clock read)) (Some (clock (S read)))).

(** [count] copies of a character. *)
Fixpoint copies (count : nat) (c : ascii) : string :=
  match count with
  | O => EmptyString
  | S count' => String c (copies count' c)
  end.

End Notions.

(* ===================================================================== *)
(** * The server as a process: one request after the other               *)
(* ===================================================================== *)

Module Process.
Import Acme.

(** Over the computation the serial counter of [pki.js] does not go
    back, whatever the computation returns or throws. *)
Definition counts_up {A : Type} (m : M A) : Prop :=
  forall w : World, (nextSerialNumber w <= nextSerialNumber (snd (m w)))%N.

Section Run.

Variable uuid_v4 : nat -> string.
Variable clock : nat -> Z.
Variable certificationRequestFromPem : string -> option Pki.CSR.
Variable forge_certificate :
  Pki.CSR -> string -> Pki.validity -> Pki.validity -> string -> string
  -> option string.
Variable Date_parse : string -> option Z.



End Run.

End Process.

(* ===================================================================== *)
(** * Properties                                                          *)
(* ===================================================================== *)

(** ** The built-ins, run *)

Example DNS_RE_accepts :
  map (JS.matches Pki.DNS_RE)
      ["example.com"; "www.not-example.com"; "ab.c"; "a-.c-"; "xn--caf-dma.example"]
  = [true; true; true; true; true].
Proof. vm_compute. reflexivity. Qed.

Example DNS_RE_rejects :
  map (JS.matches Pki.DNS_RE)
      [""; "localhost"; "a.b"; "ab."; ".com"; "ab..c"; "-b.c"; "ab.1c";
       "Example.com"; "not a dns name"; "127.0.0.1"]
  = [false; false; false; false; false; false; false; false; false; false; false].
Proof. vm_compute. reflexivity. Qed.

Example parseInt_samples :
  map JS.parseInt ["0"; "12"; " 7abc"; "-0"; "-5"; "0x1f"; "+3"; "1e3"; "abc"; ""; "0x"]
  = [Some 0; Some 12; Some 7; Some 0; Some (-5); Some 31; Some 3; Some 1;
     None; None; None]%Z.
Proof. vm_compute. reflexivity. Qed.

Example toString16_samples :
  map JS.toString16 [0; 1; 15; 16; 255; 256; 65535; 9007199254740992]%N
  = ["0"; "1"; "f"; "10"; "ff"; "100"; "ffff"; "20000000000000"].
Proof. vm_compute. reflexivity. Qed.

Example own_keys_order :
  JS.own_keys (fold_left JS.set_key ["b.com"; "10"; "a.com"; "2"; "b.com"; "01"] [])
  = ["2"; "10"; "b.com"; "a.com"; "01"].
Proof. vm_compute. reflexivity. Qed.

(** ** Serial numbers (pki.js) *)

Section SerialNumbers.
Import JS.

Lemma hexValue_hexDigit (d : N) :
  (d < 16)%N -> hexValue (hexDigit d) = Some d.
Proof.
  intros H.
  assert (E : (d = 0 \/ d = 1 \/ d = 2 \/ d = 3 \/ d = 4 \/ d = 5 \/ d = 6 \/ d = 7
               \/ d = 8 \/ d = 9 \/ d = 10 \/ d = 11 \/ d = 12 \/ d = 13
               \/ d = 14 \/ d = 15)%N) by lia.
  repeat (destruct E as [-> | E]; [reflexivity |]).
  subst d; reflexivity.
Qed.

(** Reading the digits [hexDigits] wrote gives the number back, shifted
    past whatever was read before. *)
Lemma hexNumber_hexDigits (fuel : nat) :
  forall (n : N) (acc : string),
    (n < 16 ^ N.of_nat fuel)%N ->
    exists k : N, forall a : N,
        hexNumber a (hexDigits fuel n acc) = hexNumber (a * 16 ^ k + n) acc.
Proof.
  induction fuel as [| fuel IH]; intros n acc Hn.
  - exists 0%N. intros a. simpl in *.
    replace n with 0%N by lia. f_equal. lia.
  - cbn [hexDigits].
    destruct (n <? 16)%N eqn:Hsmall.
    + apply N.ltb_lt in Hsmall.
      exists 1%N. intros a. cbn [hexNumber].
      rewrite N.mod_small by assumption.
      rewrite hexValue_hexDigit by assumption.
      f_equal. lia.
    + apply N.ltb_ge in Hsmall.
      assert (Hq : (n / 16 < 16 ^ N.of_nat fuel)%N).
      { apply N.Div0.div_lt_upper_bound.
        replace (16 * 16 ^ N.of_nat fuel)%N with (16 ^ N.of_nat (S fuel))%N; [assumption |].
        rewrite Nat2N.inj_succ, N.pow_succ_r'. reflexivity. }
      destruct (IH (n / 16)%N (String (hexDigit (n mod 16)) acc) Hq) as [k Hk].
      exists (k + 1)%N. intros a.
      rewrite Hk. cbn [hexNumber].
      rewrite hexValue_hexDigit by (apply N.mod_lt; lia).
      f_equal.
      rewrite N.pow_add_r, N.pow_1_r.
      pose proof (N.div_mod n 16 ltac:(lia)) as Hdm.
      lia.
Qed.

Lemma hexNumber_toString16 (n : N) :
  hexNumber 0 (toString16 n) = Some n.
Proof.
  unfold toString16.
  destruct (hexNumber_hexDigits (S (N.to_nat (N.size n))) n "") as [k Hk].
  - pose proof (N.size_gt n) as Hs.
    rewrite Nat2N.inj_succ, N2Nat.id, N.pow_succ_r'.
    assert (H2 : (2 ^ N.size n <= 16 ^ N.size n)%N)
      by (apply N.pow_le_mono_l; lia).
    assert (H16 : (0 < 16 ^ N.size n)%N) by (apply N.neq_0_lt_0, N.pow_nonzero; lia).
    lia.
  - rewrite Hk. reflexivity.
Qed.

Lemma serial_value (n : N) :
  hexNumber 0 (fst (Pki.getNextSerialNumber n)) = Some n
  /\ (String.length (fst (Pki.getNextSerialNumber n)) mod 2 = 0)%nat.
Proof.
  unfold Pki.getNextSerialNumber. cbn [fst].
  destruct (String.length (toString16 n) mod 2 =? 1)%nat eqn:Hodd.
  - split.
    + cbn. apply hexNumber_toString16.
    + apply Nat.eqb_eq in Hodd.
      change (String.length ("0" ++ toString16 n))
        with (S (String.length (toString16 n))).
      pose proof (Nat.div_mod_eq (String.length (toString16 n)) 2) as Hdm.
      pose proof (Nat.div_mod_eq (S (String.length (toString16 n))) 2) as Hdm'.
      pose proof (Nat.mod_upper_bound (S (String.length (toString16 n))) 2 ltac:(lia)).
      lia.
  - split.
    + apply hexNumber_toString16.
    + apply Nat.eqb_neq in Hodd.
      pose proof (Nat.mod_upper_bound (String.length (toString16 n)) 2 ltac:(lia)).
      lia.
Qed.

End SerialNumbers.



(** Why the counter has to be below 2^53 at the earlier of two calls: at
    2^53 it no longer moves. *)
Example serial_counter_at_limit :
  snd (Pki.getNextSerialNumber JS.MAX_EXACT) = JS.MAX_EXACT.
Proof. vm_compute. reflexivity. Qed.

(** ** Authorization.update *)

Section AuthorizationStatus.
Import Acme.

Lemma valid_challenges_from (url : string) (l : list Challenge) :
  forall i : nat,
    (0 <? List.length
            (filter (fun x => status_eqb (json_status x) valid)
                    (challenges_from url i l)))%nat
    = existsb (fun x => status_eqb (ch_status x) valid) l.
Proof.
  induction l as [| x l IH]; intros i; [reflexivity |].
  cbn [challenges_from filter existsb json_status].
  destruct (status_eqb (ch_status x) valid); [reflexivity |].
  apply IH.
Qed.

End AuthorizationStatus.

(** C6, as the code has it.  [update()] makes the status [invalid] when
    [expires] is strictly before the current time; otherwise (the two
    instants equal, [expires] later, or [expires] the Invalid Date) it
    makes it [valid] when a challenge is valid, and leaves it as it was
    when none is. *)
Theorem update_derives_status (now : Z) (a : Acme.Authorization) :
  Acme.authz_status (Acme.Authorization_update now a) =
    if match Acme.authz_expires a with
       | Some expires => (expires <? now)%Z
       | None => false
       end
    then Acme.invalid
    else if existsb (fun x => Acme.status_eqb (Acme.ch_status x) Acme.valid)
                    (Acme.challengeObj a)
         then Acme.valid
         else Acme.authz_status a.
Proof.
  unfold Acme.Authorization_update.
  cbn [Acme.set_challenges Acme.authz_expires Acme.challenges Acme.authz_url
       Acme.challengeObj].
  rewrite valid_challenges_from.
  unfold Acme.Date_lt.
  destruct (Acme.authz_expires a) as [expires |].
  - destruct (expires <? now)%Z; [reflexivity |].
    destruct (existsb _ _); reflexivity.
  - destruct (existsb _ _); reflexivity.
Qed.

(** C6, as stated, fails at the boundary: an authorization that expires
    at instant 1000 and is updated at instant 1000 keeps its status. *)
Lemma update_at_expiry_keeps_status :
  Acme.authz_expires Samples.authz1 = Some 1000%Z
  /\ (1000 >= 1000)%Z
  /\ Acme.authz_status (Acme.Authorization_update 1000 Samples.authz1) = Acme.pending
  /\ Acme.authz_status (Acme.Authorization_update 1000 Samples.authz1) <> Acme.invalid.
Proof.
  repeat split; try reflexivity; try lia.
  vm_compute. discriminate.
Qed.

(** ** Order readiness: markAsReady and updateAppsFor *)

Section Readiness.
Import Acme.

Lemma status_eqb_eq (a b : status) : status_eqb a b = true <-> a = b.
Proof. destruct a, b; cbn; split; congruence. Qed.

Lemma no_unfulfilled (l : list Requirement) :
  (List.length (filter (fun req => negb (status_eqb (req_status req) valid)) l) =? 0)%nat
  = forallb (fun req => status_eqb (req_status req) valid) l.
Proof.
  induction l as [| req l IH]; [reflexivity |].
  cbn [filter forallb].
  destruct (status_eqb (req_status req) valid); cbn; [apply IH | reflexivity].
Qed.

Lemma markAsReady_eq (app : Application) :
  markAsReady app =
    if status_eqb (app_status app) pending
       && forallb (fun req => status_eqb (req_status req) valid) (app_requirements app)
    then set_app_status ready app
    else app.
Proof.
  unfold markAsReady. rewrite no_unfulfilled.
  destruct (status_eqb (app_status app) pending); reflexivity.
Qed.

(** Requirements are built by [asRequirement], with the type that
    [updateAppsFor] looks for. *)
Lemma asRequirement_type (authz : Authorization) :
  req_type (asRequirement authz) = "authorization"
  /\ req_status (asRequirement authz) = authz_status authz
  /\ req_url (asRequirement authz) = authz_url authz.
Proof. repeat split. Qed.

Lemma all_valid_iff (l : list Requirement) :
  forallb (fun req => status_eqb (req_status req) valid) l = true
  <-> Forall (fun req => req_status req = valid) l.
Proof.
  rewrite forallb_forall, Forall_forall.
  split; intros H req Hin; apply status_eqb_eq, H, Hin.
Qed.

End Readiness.

(** C5, as the code has it.  [markAsReady] makes the status [ready] when
    it is [pending] and every requirement is [valid], and changes nothing
    otherwise.  [updateAppsFor] leaves the orders of other accounts as
    they are; in every order of the account of the authorization it
    rewrites the requirements that point to the authorization to its
    status and runs [markAsReady], so that afterwards the order is
    [ready] exactly when it was [ready] already, or it was [pending] and
    all its requirements are now [valid]; a status that is not [ready]
    afterwards is the status from before. *)
Theorem orders_ready_after_update
        (authz : Acme.Authorization) (d : Acme.DB) (i : nat) (app : Acme.Application) :
  nth_error (Acme.store_app d) i = Some app ->
  (forall a : Acme.Application,
      Acme.markAsReady a =
        if Acme.status_eqb (Acme.app_status a) Acme.pending
           && forallb (fun req => Acme.status_eqb (Acme.req_status req) Acme.valid)
                      (Acme.app_requirements a)
        then Acme.set_app_status Acme.ready a
        else a)
  /\ (forall req : Acme.Requirement,
         Acme.req_type req = "authorization" ->
         Acme.rewrite_requirement authz req =
           if Acme.req_url req =? Acme.authz_url authz
           then {| Acme.req_type := "authorization";
                   Acme.req_status := Acme.authz_status authz;
                   Acme.req_url := Acme.req_url req |}
           else req)
  /\ exists app' : Acme.Application,
      nth_error (Acme.store_app (Acme.updateAppsFor authz d)) i = Some app'
      /\ if Acme.app_thumbprint app =? Acme.authz_thumbprint authz
         then Acme.app_requirements app'
              = map (Acme.rewrite_requirement authz) (Acme.app_requirements app)
              /\ (Acme.app_status app' = Acme.ready
                  <-> Acme.app_status app = Acme.ready
                      \/ (Acme.app_status app = Acme.pending
                          /\ Forall (fun req => Acme.req_status req = Acme.valid)
                                    (Acme.app_requirements app')))
              /\ (Acme.app_status app' <> Acme.ready
                  -> Acme.app_status app' = Acme.app_status app)
         else app' = app.
Proof.
  intros Hstored.
  split; [exact markAsReady_eq |].
  split.
  { intros req Htype. unfold Acme.rewrite_requirement.
    rewrite Htype. cbn [String.eqb Ascii.eqb Bool.eqb andb].
    destruct (Acme.req_url req =? Acme.authz_url authz); reflexivity. }
  unfold Acme.updateAppsFor. cbn [Acme.store_app Acme.with_app].
  eexists. split.
  { apply map_nth_error, map_nth_error, Hstored. }
  cbv beta.
  destruct (Acme.app_thumbprint app =? Acme.authz_thumbprint authz) eqn:Hown.
  - cbn [Acme.app_thumbprint Acme.set_app_requirements]. rewrite Hown.
    rewrite markAsReady_eq.
    cbn [Acme.app_status Acme.app_requirements Acme.set_app_requirements].
    set (reqs := map (Acme.rewrite_requirement authz) (Acme.app_requirements app)).
    destruct (forallb (fun req => Acme.status_eqb (Acme.req_status req) Acme.valid) reqs)
      eqn:Hall.
    + assert (Hvalid := proj1 (all_valid_iff reqs) Hall).
      destruct (Acme.app_status app) eqn:Hs;
        cbn [Acme.status_eqb andb Acme.app_requirements Acme.app_status
             Acme.set_app_status Acme.set_app_requirements];
        rewrite ?Hs;
        (split; [reflexivity |]);
        (split; [split; [intros; auto; try discriminate | intros [? | [? _]]; congruence]
                | intros; congruence]).
    + assert (Hnot : ~ Forall (fun req => Acme.req_status req = Acme.valid) reqs).
      { intros H. apply all_valid_iff in H. congruence. }
      rewrite andb_false_r.
      cbn [Acme.app_requirements Acme.app_status Acme.set_app_requirements].
      split; [reflexivity |].
      split; [| reflexivity].
      split; [intros; auto | intros [? | [_ ?]]; [assumption | contradiction]].
  - rewrite Hown. reflexivity.
Qed.

Lemma orders_ready_after_update_witness :
  exists app' : Acme.Application,
    nth_error
      (Acme.store_app
         (Acme.updateAppsFor (Samples.authz_with Acme.valid)
            (Samples.store1 (Samples.order1 Acme.pending Acme.pending)))) 0
    = Some app'
    /\ Acme.app_status app' = Acme.ready.
Proof.
  destruct (orders_ready_after_update
              (Samples.authz_with Acme.valid)
              (Samples.store1 (Samples.order1 Acme.pending Acme.pending))
              0 (Samples.order1 Acme.pending Acme.pending))
    as (_ & _ & app' & Hnth & Hshape).
  - reflexivity.
  - exists app'. split; [exact Hnth |].
    vm_compute in Hnth. injection Hnth as <-. reflexivity.
Defined.

(** C5, as stated, fails on an order that is [ready] already: it is
    [ready] after [markAsReady] and after [updateAppsFor] although it was
    not [pending], and it stays [ready] when the authorization it depends
    on has become [invalid]. *)
Lemma ready_order_stays_ready :
  let before := Samples.order1 Acme.ready Acme.valid in
  Acme.app_status before <> Acme.pending
  /\ Acme.app_status (Acme.markAsReady before) = Acme.ready
  /\ exists after : Acme.Application,
      Acme.get_app (Acme.updateAppsFor (Samples.authz_with Acme.invalid)
                                       (Samples.store1 before)) "order-1"
      = Some after
      /\ Acme.app_status after = Acme.ready
      /\ map Acme.req_status (Acme.app_requirements after) = [Acme.invalid].
Proof.
  cbv zeta. split; [discriminate |]. split; [reflexivity |].
  eexists. split; [vm_compute; reflexivity |]. split; reflexivity.
Qed.

(** ** The store *)

Section TableFacts.
Import Acme.
Context {T : Type} (id_of : T -> string).

Lemma table_get_id (t : list T) (id : string) (o : T) :
  table_get id_of t id = Some o -> id_of o = id.
Proof.
  unfold table_get. intros H.
  apply find_some in H. destruct H as [_ H].
  apply String.eqb_eq, H.
Qed.

Lemma table_get_put (o : T) (t : list T) :
  table_get id_of (table_put id_of o t) (id_of o) = Some o.
Proof.
  unfold table_get.
  induction t as [| x t IH]; cbn [table_put find].
  - rewrite String.eqb_refl. reflexivity.
  - destruct (id_of x =? id_of o) eqn:E; cbn [find].
    + rewrite String.eqb_refl. reflexivity.
    + rewrite E. exact IH.
Qed.

Lemma table_get_put_other (o : T) (t : list T) (id : string) :
  id_of o <> id ->
  table_get id_of (table_put id_of o t) id = table_get id_of t id.
Proof.
  unfold table_get. intros Hne.
  apply String.eqb_neq in Hne.
  induction t as [| x t IH]; cbn [table_put find].
  - rewrite Hne. reflexivity.
  - destruct (id_of x =? id_of o) eqn:E; cbn [find].
    + rewrite Hne.
      apply String.eqb_eq in E.
      rewrite E, Hne. reflexivity.
    + destruct (id_of x =? id); [reflexivity | exact IH].
Qed.

End TableFacts.

(** ** getAuthz *)

(** [DB_get] against [table_get]: a stored object is found by both, and
    for a name that is not inherited a miss of [table_get] is [null] or
    [undefined]. *)
Lemma DB_get_stored (T : Type) (id_of : T -> string) (t : list T) (id : string) (o : T) :
  Acme.table_get id_of t id = Some o -> Acme.DB_get id_of t id = Acme.Stored o.
Proof.
  intros H. unfold Acme.DB_get. destruct t as [| x t]; [discriminate |].
  rewrite H. reflexivity.
Qed.





(** ** updateReg *)

(** What [updateReg] does with an agreement that is not the terms of the
    server: 400, and the registration stored afterwards is the one from
    before with the contact of the payload, if it has one. *)
Lemma updateReg_wrong_agreement
      (server : Acme.Server) (req : Acme.Request) (w : Acme.World)
      (reg : Acme.Registration) :
  Acme.get_reg (Acme.db w) (Acme.accountKeyThumbprint req) = Some reg ->
  Acme.params_id req = Acme.accountKeyThumbprint req ->
  JS.truthy (Acme.agreement (Acme.payload req)) = true ->
  Acme.differs (Acme.agreement (Acme.payload req)) (Acme.terms server) = true ->
  exists w' : Acme.World,
    Acme.updateReg server req w = (Returns tt, w')
    /\ Acme.statusCode (Acme.res w') = 400%Z
    /\ Acme.body (Acme.res w')
       = Some (Acme.problem "malformed" "Incorrect agreement URL" None)
    /\ Acme.get_reg (Acme.db w') (Acme.accountKeyThumbprint req)
       = Some match Acme.contact (Acme.payload req) with
              | Some c => Acme.set_reg_contact (Some c) reg
              | None => reg
              end.
Proof.
  intros Hreg Hid Hagree Hdiff.
  pose proof (table_get_id _ _ _ _ Hreg) as Hkey.
  unfold Acme.updateReg, Acme.bind, Acme.read_db.
  rewrite Hreg, Hid, String.eqb_refl. cbn [negb].
  destruct (Acme.contact (Acme.payload req)) as [c |].
  - cbn. rewrite Hagree, Hdiff. cbn.
    eexists. split; [reflexivity |]. cbn.
    repeat split.
    unfold Acme.get_reg, Acme.put_reg. cbn [Acme.store_reg Acme.with_reg].
    rewrite <- Hkey.
    apply (table_get_put Acme.reg_id (Acme.set_reg_contact (Some c) reg)).
  - cbn. rewrite Hagree, Hdiff. cbn.
    eexists. split; [reflexivity |]. cbn.
    repeat split. exact Hreg.
Qed.

(** C4 at a failing input.  Alice is registered with one contact; her
    request carries a new contact and an agreement that is not the terms
    of the server.  The answer is 400 [malformed], the agreement of the
    stored registration is as before, and its contact is the new one. *)
Theorem updateReg_wrong_agreement_replaces_contact :
  let w := Samples.world1 (Samples.order1 Acme.pending Acme.pending) in
  let req := Samples.request "aa11" "aa11" "" Samples.wrong_agreement in
  Acme.get_reg (Acme.db w) "aa11" = Some Samples.alice
  /\ Acme.reg_contact Samples.alice = Some ["mailto:alice@example.com"]
  /\ exists w' : Acme.World,
      Acme.updateReg Samples.server1 req w = (Returns tt, w')
      /\ Acme.statusCode (Acme.res w') = 400%Z
      /\ Acme.body (Acme.res w')
         = Some (Acme.Problem "urn:ietf:params:acme:error:malformed"
                              "Incorrect agreement URL" None)
      /\ exists reg' : Acme.Registration,
          Acme.get_reg (Acme.db w') "aa11" = Some reg'
          /\ Acme.reg_agreement reg' = Acme.reg_agreement Samples.alice
          /\ Acme.reg_contact reg' = Some ["mailto:new@example.com"]
          /\ Acme.reg_contact reg' <> Acme.reg_contact Samples.alice.
Proof.
  cbv zeta. split; [reflexivity |]. split; [reflexivity |].
  eexists. split; [vm_compute; reflexivity |].
  split; [reflexivity |]. split; [reflexivity |].
  eexists. split; [vm_compute; reflexivity |].
  split; [reflexivity |]. split; [reflexivity |].
  cbn. discriminate.
Qed.

(** ** fetchChallenge *)

(** No authorization, no number, or no challenge at that index: 404, and
    the store is as before. *)
Lemma fetchChallenge_not_found
      (clock : nat -> Z) (req : Acme.Request) (w : Acme.World) :
  JS.inherited (Acme.params_id req) = false ->
  Acme.existing_challenge (Acme.get_authz (Acme.db w) (Acme.params_id req))
                          (JS.parseInt (Acme.params_index req)) = None ->
  exists w' : Acme.World,
    Acme.fetchChallenge clock req w = (Returns tt, w')
    /\ Acme.statusCode (Acme.res w') = 404%Z
    /\ Acme.body (Acme.res w') = Acme.body (Acme.res w)
    /\ Acme.db w' = Acme.db w.
Proof.
  intros _ Hnone.
  unfold Acme.fetchChallenge, Acme.bind, Acme.read_db.
  rewrite Hnone. eexists. split; [reflexivity |]. repeat split.
Qed.

(** An authorization and a challenge at the index: the status of the
    authorization is recomputed and stored, the first challenge of the
    list is made [valid], and the challenge at the index is sent. *)
Lemma fetchChallenge_found
      (clock : nat -> Z) (req : Acme.Request) (w : Acme.World)
      (authz : Acme.Authorization) (index : Z)
      (first : Acme.ChallengeJSON) (others : list Acme.ChallengeJSON) :
  Acme.get_authz (Acme.db w) (Acme.params_id req) = Some authz ->
  JS.parseInt (Acme.params_index req) = Some index ->
  JS.has_index (Acme.challenges authz) index = true ->
  Acme.challenges (Acme.Authorization_update (clock (Acme.dates w)) authz)
  = first :: others ->
  let forced :=
    Acme.set_challenges (Acme.set_json_status Acme.valid first :: others)
                        (Acme.Authorization_update (clock (Acme.dates w)) authz) in
  exists w' : Acme.World,
    Acme.fetchChallenge clock req w = (Returns tt, w')
    /\ Acme.statusCode (Acme.res w') = 200%Z
    /\ Acme.body (Acme.res w')
       = Some (Acme.OfChallenge (JS.at_index (Acme.challenges forced) index))
    /\ Acme.get_authz (Acme.db w') (Acme.params_id req) = Some forced.
Proof.
  intros Hauthz Hindex Hin Hlist forced.
  pose proof (table_get_id _ _ _ _ Hauthz) as Hkey.
  unfold Acme.fetchChallenge, Acme.bind, Acme.read_db.
  rewrite Hauthz, Hindex. cbn [Acme.existing_challenge]. rewrite Hin.
  cbn. rewrite Hlist. cbn.
  eexists. split; [reflexivity |]. cbn.
  repeat split.
  unfold Acme.get_authz, Acme.put_authz. cbn [Acme.store_authz Acme.with_authz].
  replace (Acme.params_id req) with (Acme.authz_id forced).
  - apply (table_get_put Acme.authz_id).
  - subst forced. cbn. rewrite <- Hkey.
    unfold Acme.Authorization_update.
    repeat match goal with |- context [if ?b then _ else _] => destruct b end;
      reflexivity.
Qed.

(** C3 at a failing input.  The authorization has one challenge, pending,
    and expires later than the clock reads.  [GET /authz/authz-1/0] is
    answered 200 with that challenge and the status [valid], while the
    challenge of the stored authorization is still [pending], like the
    authorization itself. *)
Theorem fetchChallenge_reports_first_challenge_valid :
  let w := Samples.world1 (Samples.order1 Acme.pending Acme.pending) in
  let req := Samples.request "" "authz-1" "0" Samples.no_payload in
  Acme.get_authz (Acme.db w) "authz-1" = Some Samples.authz1
  /\ map Acme.ch_status (Acme.challengeObj Samples.authz1) = [Acme.pending]
  /\ exists w' : Acme.World,
      Acme.fetchChallenge Samples.clock500 req w = (Returns tt, w')
      /\ Acme.statusCode (Acme.res w') = 200%Z
      /\ Acme.body (Acme.res w')
         = Some (Acme.OfChallenge
                   (Some {| Acme.json_type := "auto";
                            Acme.json_status := Acme.valid;
                            Acme.json_url := "http://localhost/authz/authz-1/0" |}))
      /\ exists authz' : Acme.Authorization,
          Acme.get_authz (Acme.db w') "authz-1" = Some authz'
          /\ Acme.authz_status authz' = Acme.pending
          /\ map Acme.ch_status (Acme.challengeObj authz') = [Acme.pending].
Proof.
  cbv zeta. split; [reflexivity |]. split; [reflexivity |].
  eexists. split; [vm_compute; reflexivity |].
  split; [reflexivity |]. split; [reflexivity |].
  eexists. split; [vm_compute; reflexivity |].
  split; reflexivity.
Qed.

(** ** updateAuthz *)

(** C8, as the code runs.  For a request that passes the checks of
    [updateAuthz] the handler calls the hook of the challenge at the
    index, then recomputes the status of the authorization, then runs
    [updateAppsFor], then sends 200 with the challenge; the store it
    leaves is the store after these three steps.  The argument the hook
    is called with is [res.payload], which is undefined whatever the
    payload of the request is. *)
Theorem updateAuthz_order_of_effects
        (clock : nat -> Z) (req : Acme.Request) (w : Acme.World)
        (authz : Acme.Authorization) (index : Z)
        (reg : Acme.Registration) (challenge : Acme.Challenge) :
  Acme.get_authz (Acme.db w) (Acme.params_id req) = Some authz ->
  JS.parseInt (Acme.params_index req) = Some index ->
  JS.has_index (Acme.challenges authz) index = true ->
  JS.at_index (Acme.challengeObj authz) index = Some challenge ->
  Acme.get_reg (Acme.db w) (Acme.accountKeyThumbprint req) = Some reg ->
  Acme.accountKeyThumbprint req = Acme.authz_thumbprint authz ->
  let answered :=
    Acme.set_challengeObj
      (Acme.update_nth (Z.to_nat index) (Acme.Challenge_update None)
                       (Acme.challengeObj authz)) authz in
  let recomputed := Acme.Authorization_update (clock (Acme.dates w)) answered in
  exists w' : Acme.World,
    Acme.updateAuthz clock req w = (Returns tt, w')
    /\ Acme.log w'
       = (Acme.log w
          ++ [Acme.HookCalled (Acme.authz_id authz) index None;
              Acme.StatusRecomputed (Acme.authz_id authz);
              Acme.OrdersUpdated (Acme.authz_id authz);
              Acme.ResponseSent 200
                (Some (Acme.OfChallenge
                         (JS.at_index (Acme.challenges recomputed) index)))])%list
    /\ Acme.db w'
       = Acme.updateAppsFor recomputed
           (Acme.put_authz recomputed (Acme.put_authz answered (Acme.db w)))
    /\ Acme.statusCode (Acme.res w') = 200%Z
    /\ Acme.body (Acme.res w')
       = Some (Acme.OfChallenge (JS.at_index (Acme.challenges recomputed) index))
    /\ Acme.sent (Acme.res w') = true.
Proof.
  intros Hauthz Hindex Hin Hobj Hreg Hown answered recomputed.
  pose proof (table_get_id _ _ _ _ Hreg) as Hkey.
  assert (Hid : Acme.authz_id recomputed = Acme.authz_id authz).
  { subst recomputed answered. unfold Acme.Authorization_update.
    repeat match goal with |- context [if ?b then _ else _] => destruct b end;
      reflexivity. }
  unfold Acme.updateAuthz, Acme.bind, Acme.read_db.
  rewrite Hauthz, Hindex. cbn [Acme.existing_challenge]. rewrite Hin, Hreg.
  rewrite Hkey, Hown, String.eqb_refl. cbn [negb]. rewrite Hobj.
  eexists. split; [reflexivity |].
  cbn. unfold Acme.res_payload. fold answered. fold recomputed. rewrite Hid.
  repeat split.
  rewrite <- !app_assoc. reflexivity.
Qed.

Lemma updateAuthz_order_of_effects_witness :
  exists w' : Acme.World,
    Acme.updateAuthz Samples.clock500
      (Samples.request "aa11" "authz-1" "0" Samples.key_authorization)
      (Samples.world1 (Samples.order1 Acme.pending Acme.pending))
    = (Returns tt, w')
    /\ hd_error (Acme.log w') = Some (Acme.HookCalled "authz-1" 0 None)
    /\ option_map Acme.app_status (Acme.get_app (Acme.db w') "order-1")
       = Some Acme.ready.
Proof.
  destruct (updateAuthz_order_of_effects
              Samples.clock500
              (Samples.request "aa11" "authz-1" "0" Samples.key_authorization)
              (Samples.world1 (Samples.order1 Acme.pending Acme.pending))
              Samples.authz1 0 Samples.alice Acme.auto_challenge)
    as (w' & Hrun & Hlog & Hdb & _).
  - reflexivity.
  - reflexivity.
  - reflexivity.
  - reflexivity.
  - reflexivity.
  - reflexivity.
  - exists w'. split; [exact Hrun |].
    rewrite Hlog, Hdb. split; reflexivity.
Defined.

(** ** checkCSR *)

Section CheckCSR.
Import Pki.

(** The one error [checkCSR] returns. *)
Lemma checkParsed_error (csr : CSR) (message : string) :
  checkParsed csr = Returns (Error message) -> message = "No names in CSR".
Proof.
  unfold checkParsed.
  repeat match goal with
         | |- context [if ?b then _ else _] => destruct b
         | |- context [match ?x with Some _ => _ | None => _ end] => destruct x
         end; congruence.
Qed.

End CheckCSR.

(** C1 at failing inputs.  Each of these requests breaks one rule: the
    callback that checks the rule returns its error object, and
    [checkCSR] returns the list of names all the same. *)
Theorem checkCSR_drops_rule_errors :
  (* a subject attribute other than commonName *)
  (fst (Pki.subject_callback None
          {| Pki.sa_name := Some "organizationName"; Pki.sa_value := "Example Org" |})
   = Some "Subject must have only commonName"
   /\ Pki.checkCSR (Samples.parses_to Samples.csr_with_organization) "MIIB"
      = Returns (Pki.Names ["example.com"]))
  (* an attribute other than extensionRequest *)
  /\ (fst (Pki.attribute_callback []
             {| Pki.attr_name := Some "challengePassword"; Pki.attr_extensions := [] |})
      = Some "No attributes besides extensionRequest allowed"
      /\ Pki.checkCSR (Samples.parses_to Samples.csr_with_password) "MIIB"
         = Returns (Pki.Names ["example.com"]))
  (* an extension other than subjectAltName *)
  /\ (fst (Pki.extension_callback []
             {| Pki.ext_name := Some "keyUsage"; Pki.ext_altNames := [] |})
      = Some "Forbidden extension type"
      /\ Pki.checkCSR (Samples.parses_to Samples.csr_with_keyUsage) "MIIB"
         = Returns (Pki.Names ["example.com"]))
  (* a SAN that is not a dNSName *)
  /\ (fst (Pki.san_callback ["example.com"]
             {| Pki.san_type := 7; Pki.san_value := "127.0.0.1" |})
      = Some "Non-dNSName SAN"
      /\ Pki.checkCSR (Samples.parses_to Samples.csr_with_ip) "MIIB"
         = Returns (Pki.Names ["example.com"]))
  (* a dNSName that fails the regular expression *)
  /\ (fst (Pki.san_callback ["example.com"] (Samples.dns "not a dns name"))
      = Some "dNSName SAN is not a DNS name"
      /\ Pki.checkCSR (Samples.parses_to Samples.csr_with_bad_name) "MIIB"
         = Returns (Pki.Names ["example.com"])).
Proof.
  repeat split; vm_compute; reflexivity.
Qed.

(** The request of the test suite passes, with its two names. *)
Example checkCSR_testCSR :
  Pki.checkCSR (Samples.parses_to Samples.testCSR) "MIIC"
  = Returns (Pki.Names ["not-example.com"; "www.not-example.com"]).
Proof. vm_compute. reflexivity. Qed.

(** ** ACMEJose.verify *)

(** C7, as the code has it.  [verify] rejects a protected header with
    neither [kid] nor [jwk].  With [kid] it resolves the key through the
    lookup, and fails when the lookup misses.  A request it accepts has
    [kid] or [jwk], at least one of them: with [kid] the key is the one
    the lookup returns for it, whether [jwk] is there or not; without
    [kid] the key is made from [jwk]. *)
Theorem verify_resolves_key
        (K : Type) (decode_header : string -> option Jose.Header)
        (asKey : string -> option K) (key_length : K -> Z)
        (createVerify_verify : K -> Jose.JWS -> option string)
        (getKey : string -> option K) (acmeVersion : string)
        (jws : Jose.JWS) (protected : string) (header : Jose.Header) :
  let verify :=
    Jose.verify K decode_header asKey key_length createVerify_verify getKey
                acmeVersion in
  Jose.jws_protected jws = Some protected ->
  decode_header protected = Some header ->
  (JS.truthy (Jose.kid header) = false ->
   JS.truthy (Jose.jwk header) = false ->
   exists e : string, verify jws = Throws e)
  /\ (forall k : string,
         Jose.kid header = Some k -> JS.truthy (Some k) = true ->
         getKey k = None ->
         exists e : string, verify jws = Throws e)
  /\ (forall (key : K) (payload : string),
         verify jws = Returns (key, payload) ->
         JS.truthy (Jose.kid header) || JS.truthy (Jose.jwk header) = true
         /\ if JS.truthy (Jose.kid header)
            then exists k : string, Jose.kid header = Some k /\ getKey k = Some key
            else exists j : string, Jose.jwk header = Some j /\ asKey j = Some key).
Proof.
  intros verify Hprotected Hheader. subst verify. unfold Jose.verify.
  rewrite Hprotected, Hheader.
  destruct (negb (JS.truthy (Some protected)) || _ || _).
  { repeat split; intros; try discriminate; eexists; reflexivity. }
  split; [| split].
  - intros Hkid Hjwk. rewrite Hkid, Hjwk.
    destruct (JS.truthy (Jose.alg header)); eexists; reflexivity.
  - intros k Hk Htruthy Hmiss. rewrite Hk, Htruthy, Hmiss.
    repeat match goal with
           | |- context [if ?b then _ else _] => destruct b
           end; eexists; reflexivity.
  - intros key payload H.
    destruct (JS.truthy (Jose.alg header)); [| discriminate].
    destruct (JS.truthy (Jose.kid header)) eqn:Hkid.
    + split; [reflexivity |].
      destruct (Jose.kid header) as [k |]; [| discriminate].
      exists k. split; [reflexivity |].
      cbn [negb orb] in H.
      destruct (negb (JS.truthy (Jose.nonce header))); [discriminate |].
      destruct (negb (acmeVersion =? "le") && _); [discriminate |].
      destruct (getKey k) as [key' |]; [| discriminate].
      destruct ((acmeVersion =? "le") && _); [discriminate |].
      destruct (createVerify_verify key' jws); [| discriminate].
      congruence.
    + destruct (JS.truthy (Jose.jwk header)) eqn:Hjwk; [| discriminate].
      split; [reflexivity |].
      destruct (Jose.jwk header) as [j |]; [| discriminate].
      exists j. split; [reflexivity |].
      cbn [negb orb] in H.
      destruct (negb (JS.truthy (Jose.nonce header))); [discriminate |].
      destruct (negb (acmeVersion =? "le") && _); [discriminate |].
      destruct (asKey j) as [key' |]; [| discriminate].
      destruct ((acmeVersion =? "le") && _); [discriminate |].
      destruct (createVerify_verify key' jws); [| discriminate].
      congruence.
Qed.

Lemma verify_resolves_key_witness :
  exists k : string,
    Jose.kid Samples.header_with_both = Some k
    /\ Samples.lookup_alice k = Some "alice-key".
Proof.
  destruct (verify_resolves_key
              string (fun _ => Some Samples.header_with_both)
              (fun jwk => Some jwk) (fun _ => 256%Z) (fun _ _ => Some "{}")
              Samples.lookup_alice "ietf-draft" Samples.signed_request
              "eyJ" Samples.header_with_both)
    as (_ & _ & Haccepted).
  - reflexivity.
  - reflexivity.
  - destruct (Haccepted "alice-key" "{}") as [_ Hkey].
    + reflexivity.
    + exact Hkey.
Defined.

(** C7, as stated, fails on a header that carries both fields: the
    request is accepted, under the key the lookup returns for [kid]. *)
Lemma verify_accepts_jwk_with_kid :
  JS.truthy (Jose.jwk Samples.header_with_both) = true
  /\ JS.truthy (Jose.kid Samples.header_with_both) = true
  /\ Samples.verify_sample Samples.signed_request = Returns ("alice-key", "{}").
Proof.
  repeat split.
Qed.

(** ** finalizeOrder *)

Section Finalize.
Import Acme.
Variable uuid_v4 : nat -> string.
Variable clock : nat -> Z.
Variable certificationRequestFromPem : string -> option Pki.CSR.
Variable forge_certificate :
  Pki.CSR -> string -> Pki.validity -> Pki.validity -> string -> string
  -> option string.

Lemma new_Authorization_returns
      (server : Server) (thumbprint name : string) (scope : option string) (w : World) :
  exists (authz : Authorization) (w' : World),
    new_Authorization uuid_v4 clock server thumbprint name scope w = (Returns authz, w')
    /\ db w' = db w /\ nextSerialNumber w' = nextSerialNumber w.
Proof.
  unfold new_Authorization, bind, new_uuid, new_Date, record, ret. cbn.
  eexists. eexists. split; [reflexivity |]. split; reflexivity.
Qed.

Lemma authorize_names_returns
      (server : Server) (thumbprint : string) (scope : option string)
      (names : list string) :
  forall w : World,
  exists w' : World,
    authorize_names uuid_v4 clock server thumbprint scope names w = (Returns tt, w')
    /\ store_app (db w') = store_app (db w)
    /\ store_reg (db w') = store_reg (db w)
    /\ store_cert (db w') = store_cert (db w)
    /\ nextSerialNumber w' = nextSerialNumber w.
Proof.
  induction names as [| name names IH]; intros w.
  - exists w. repeat split.
  - cbn [authorize_names]. unfold bind at 1. unfold read_db at 1.
    destruct (authzFor (db w) thumbprint name) as [authz |].
    + unfold bind at 1. unfold ret at 1. unfold bind at 1. unfold write_db at 1.
      destruct (IH (with_db (put_authz authz (db w)) w)) as (w' & Hrun & Happ & Hreg & Hcert & Hser).
      exists w'. split; [exact Hrun |]. repeat split; assumption.
    + unfold bind at 1.
      destruct (new_Authorization_returns server thumbprint name scope w)
        as (authz & w1 & Hnew & Hdb & Hser1).
      rewrite Hnew. unfold bind at 1. unfold write_db at 1.
      destruct (IH (with_db (put_authz authz (db w1)) w1)) as (w' & Hrun & Happ & Hreg & Hcert & Hser).
      exists w'. split; [exact Hrun |].
      cbn in Happ, Hreg, Hcert, Hser. rewrite Hdb in *.
      repeat split; congruence.
Qed.

Lemma makeURL_truthy (server : Server) (type id : string) :
  JS.truthy (Some (makeURL server type id)) = true.
Proof.
  unfold makeURL, JS.truthy. destruct (baseURL server); reflexivity.
Qed.

(** What a [finalizeOrder] that issues leaves behind. *)
Lemma finalizeOrder_runs
      (server : Server) (req : Request) (w : World)
      (reg : Registration) (order : Application)
      (text : string) (names : list string) :
  get_reg (db w) (accountKeyThumbprint req) = Some reg ->
  get_app (db w) (params_id req) = Some order ->
  csr (payload req) = Some text ->
  text <> "" ->
  Pki.checkCSR certificationRequestFromPem text = Returns (Pki.Names names) ->
  (forall c serial notBefore notAfter,
      forge_certificate c serial notBefore notAfter (caCert server) (caKey server)
      <> None) ->
  let cert_url := makeURL server "cert" (uuid_v4 (uuids w)) in
  exists (w' : World) (order' : Application) (der : string) (parsed : Pki.CSR),
    finalizeOrder uuid_v4 clock certificationRequestFromPem forge_certificate
                  server req w = (Returns tt, w')
    /\ get_app (db w') (params_id req) = Some order'
    /\ app_status order' = valid
    /\ app_certificate order' = Some cert_url
    /\ app_thumbprint order' = app_thumbprint order
    /\ app_requirements order' = app_requirements order
    /\ get_cert (db w') (uuid_v4 (uuids w))
       = Some {| cert_id := uuid_v4 (uuids w); cert_url := cert_url;
                 cert_body := Some der |}
    /\ statusCode (res w') = 201%Z
    /\ sent (res w') = true
    /\ (exists view : ApplicationView,
           body (res w') = Some (OfApplication view)
           /\ view_status view = valid
           /\ view_certificate view = Some cert_url
           /\ view_requirements view = app_requirements order)
    /\ store_reg (db w') = store_reg (db w)
    /\ certificationRequestFromPem (Pki.pem_of text) = Some parsed
    /\ forge_certificate parsed (fst (Pki.getNextSerialNumber (nextSerialNumber w)))
                         (fst (Notions.validity_of clock order w))
                         (snd (Notions.validity_of clock order w))
                         (caCert server) (caKey server)
       = Some der
    /\ nextSerialNumber w' = JS.increment (nextSerialNumber w).
Proof.
  intros Hreg Happ Hcsr Htext Hcheck Hforge cert_url.
  pose proof (table_get_id _ _ _ _ Happ) as Hkey.
  assert (Hparse : exists parsed,
             Pki.parseCSR certificationRequestFromPem text = Returns parsed
             /\ certificationRequestFromPem (Pki.pem_of text) = Some parsed).
  { unfold Pki.checkCSR, Pki.parseCSR in *.
    destruct (certificationRequestFromPem (Pki.pem_of text)) as [parsed |];
      [exists parsed; split; reflexivity | discriminate]. }
  destruct Hparse as (parsed & Hparse & Hpem).
  unfold finalizeOrder.
  unfold bind at 1. unfold read_db at 1. rewrite Hreg, Happ.
  unfold checked_request. rewrite Hcsr, Hcheck.
  destruct text as [| c text']; [contradiction |].
  cbn.
  assert (Hurl := makeURL_truthy server "cert" (uuid_v4 (uuids w))).
  unfold JS.truthy in Hurl.
  unfold Notions.validity_of.
  destruct (JS.truthy (app_notBefore order)), (JS.truthy (app_notAfter order));
    cbn; unfold bind at 1;
    match goal with
    | |- context [authorize_names ?u ?k ?s ?t ?sc ?n ?w1] =>
        destruct (authorize_names_returns s t sc n w1)
          as (w2 & Hrun & Happ2 & Hreg2 & Hcert2 & Hser2);
        rewrite Hrun
    end;
    unfold bind at 1; unfold issueCertificate at 1; unfold Pki.issueCRT;
    rewrite Hparse; cbn [Pki.getNextSerialNumber];
    match goal with
    | |- context [forge_certificate ?a ?b ?c ?d ?e ?f] =>
        destruct (forge_certificate a b c d e f) as [der |] eqn:Hissue;
        [| exfalso; exact (Hforge _ _ _ _ Hissue)]
    end;
    cbn; rewrite Hurl;
    (eexists; eexists; exists der, parsed; split; [reflexivity |]);
    cbn;
    (split; [rewrite <- Hkey; exact (table_get_put app_id _ _) |]);
    (split; [reflexivity |]); (split; [reflexivity |]);
    (split; [reflexivity |]); (split; [reflexivity |]);
    (split; [exact (table_get_put cert_id _ _) |]);
    (split; [reflexivity |]); (split; [reflexivity |]);
    (split; [eexists; repeat split |]);
    (split; [cbn in Hreg2; exact Hreg2 |]);
    (split; [exact Hpem |]);
    cbn in Hser2; rewrite Hser2 in *;
    (split; [exact Hissue | reflexivity]).
Qed.

(** C2.  [finalizeOrder] tests that the account is registered and that
    the order exists, and nothing else about the order: whoever owns it,
    whatever its status and the status of its requirements, a request
    whose CSR passes [checkCSR] (the CA being able to sign) gets a
    certificate issued and stored, the order made [valid] with the URL
    of the certificate, and the answer 201 with the order.  The
    certificate stored is the one forge made for the parsed request,
    with the next serial number of the counter, which moves on by one,
    and the validity of the order. *)
Theorem finalizeOrder_issues
        (server : Server) (req : Request) (w : World)
        (reg : Registration) (order : Application)
        (text : string) (names : list string) :
  get_reg (db w) (accountKeyThumbprint req) = Some reg ->
  get_app (db w) (params_id req) = Some order ->
  csr (payload req) = Some text ->
  text <> "" ->
  Pki.checkCSR certificationRequestFromPem text = Returns (Pki.Names names) ->
  (forall c serial notBefore notAfter,
      forge_certificate c serial notBefore notAfter (caCert server) (caKey server)
      <> None) ->
  let cert_url := makeURL server "cert" (uuid_v4 (uuids w)) in
  exists (w' : World) (order' : Application) (der : string),
    finalizeOrder uuid_v4 clock certificationRequestFromPem forge_certificate
                  server req w = (Returns tt, w')
    /\ get_app (db w') (params_id req) = Some order'
    /\ app_status order' = valid
    /\ app_certificate order' = Some cert_url
    /\ app_thumbprint order' = app_thumbprint order
    /\ app_requirements order' = app_requirements order
    /\ get_cert (db w') (uuid_v4 (uuids w))
       = Some {| cert_id := uuid_v4 (uuids w); cert_url := cert_url;
                 cert_body := Some der |}
    /\ statusCode (res w') = 201%Z
    /\ sent (res w') = true
    /\ (exists view : ApplicationView,
           body (res w') = Some (OfApplication view)
           /\ view_status view = valid
           /\ view_certificate view = Some cert_url)
    /\ (exists (parsed : Pki.CSR) (serial : string),
           certificationRequestFromPem (Pki.pem_of text) = Some parsed
           /\ forge_certificate parsed serial
                                (fst (Notions.validity_of clock order w))
                         (snd (Notions.validity_of clock order w))
                                (caCert server) (caKey server)
              = Some der
           /\ serial = fst (Pki.getNextSerialNumber (nextSerialNumber w))
           /\ JS.hexNumber 0 serial = Some (nextSerialNumber w)
           /\ (String.length serial mod 2 = 0)%nat)
    /\ nextSerialNumber w' = JS.increment (nextSerialNumber w).
Proof.
  intros Hreg Happ Hcsr Htext Hcheck Hforge cert_url.
  destruct (finalizeOrder_runs server req w reg order text names
                               Hreg Happ Hcsr Htext Hcheck Hforge)
    as (w' & order' & der & parsed & Hrun & Hget & Hstatus & Hcert & Hthumb & Hreqs
        & Hstored & Hcode & Hsent & (view & Hbody & Hview & Hlink & _) & _
        & Hparsed & Hissue & Hnext).
  exists w', order', der.
  split; [exact Hrun |]. split; [exact Hget |]. split; [exact Hstatus |].
  split; [exact Hcert |]. split; [exact Hthumb |]. split; [exact Hreqs |].
  split; [exact Hstored |]. split; [exact Hcode |]. split; [exact Hsent |].
  split; [exists view; repeat split; assumption |].
  split; [| exact Hnext].
  exists parsed, (fst (Pki.getNextSerialNumber (nextSerialNumber w))).
  destruct (serial_value (nextSerialNumber w)) as [Hvalue Heven].
  split; [exact Hparsed |]. split; [exact Hissue |]. split; [reflexivity |].
  split; [exact Hvalue | exact Heven].
Qed.
End Finalize.

Lemma finalizeOrder_issues_witness :
  let req := Samples.request "bb22" "order-1" "" Samples.csr_payload in
  let w := Samples.world1 (Samples.order1 Acme.pending Acme.pending) in
  Acme.accountKeyThumbprint req <> Acme.app_thumbprint (Samples.order1 Acme.pending Acme.pending)
  /\ exists (w' : Acme.World) (order' : Acme.Application),
      Acme.finalizeOrder Samples.uuid_of Samples.clock500
        (Samples.parses_to Samples.testCSR) Samples.forge_signs
        Samples.server1 req w
      = (Returns tt, w')
      /\ Acme.get_app (Acme.db w') "order-1" = Some order'
      /\ Acme.app_status order' = Acme.valid
      /\ Acme.app_certificate order' = Some "http://localhost/cert/uuid-0"
      /\ map Acme.req_status (Acme.app_requirements order') = [Acme.pending]
      /\ Acme.statusCode (Acme.res w') = 201%Z
      /\ option_map Acme.cert_body (Acme.get_cert (Acme.db w') "uuid-0")
         = Some (Some "der-01")
      /\ Acme.nextSerialNumber w' = 2%N.
Proof.
  cbv zeta. split; [discriminate |].
  destruct (finalizeOrder_issues
              Samples.uuid_of Samples.clock500
              (Samples.parses_to Samples.testCSR) Samples.forge_signs
              Samples.server1
              (Samples.request "bb22" "order-1" "" Samples.csr_payload)
              (Samples.world1 (Samples.order1 Acme.pending Acme.pending))
              Samples.bob (Samples.order1 Acme.pending Acme.pending)
              "MIIC" ["not-example.com"; "www.not-example.com"])
    as (w' & order' & der & Hrun & Hget & Hstatus & Hcert & _ & Hreqs & Hstored & Hcode
        & _ & _ & (parsed & serial & _ & Hissue & Hserial & _) & Hnext).
  - reflexivity.
  - reflexivity.
  - reflexivity.
  - discriminate.
  - vm_compute. reflexivity.
  - discriminate.
  - exists w', order'.
    split; [exact Hrun |]. split; [exact Hget |]. split; [exact Hstatus |].
    split; [exact Hcert |]. split; [rewrite Hreqs; reflexivity |].
    split; [exact Hcode |]. split; [| exact Hnext].
    change (Samples.uuid_of _) with "uuid-0" in Hstored.
    rewrite Hstored. cbn [option_map Acme.cert_body].
    unfold Samples.forge_signs in Hissue. injection Hissue as <-.
    rewrite Hserial. reflexivity.
Defined.

(* ===================================================================== *)
(** * Further properties of the store and of the objects                  *)
(* ===================================================================== *)

(** ** The serial counter over the life of the process *)

Section Counting.
Import Acme Process.
Local Open Scope handler_scope.

Lemma counts_up_ret (A : Type) (a : A) : counts_up (ret a).
Proof. intros w. apply N.le_refl. Qed.

Lemma counts_up_throw (A : Type) (e : string) : counts_up (@throw A e).
Proof. intros w. apply N.le_refl. Qed.

Lemma counts_up_bind (A B : Type) (m : M A) (k : A -> M B) :
  counts_up m -> (forall a : A, counts_up (k a)) -> counts_up (bind m k).
Proof.
  intros Hm Hk w. unfold bind. specialize (Hm w).
  destruct (m w) as [[a | e] w1]; cbn [snd] in *.
  - eapply N.le_trans; [exact Hm | apply Hk].
  - exact Hm.
Qed.

Lemma counts_up_read_db : counts_up read_db.
Proof. intros w. apply N.le_refl. Qed.

Lemma counts_up_write_db (f : DB -> DB) : counts_up (write_db f).
Proof. intros w. apply N.le_refl. Qed.

Lemma counts_up_record (e : Event) : counts_up (record e).
Proof. intros w. apply N.le_refl. Qed.

Lemma counts_up_read_res : counts_up read_res.
Proof. intros w. apply N.le_refl. Qed.

Lemma counts_up_write_res (f : Response -> Response) : counts_up (write_res f).
Proof. intros w. apply N.le_refl. Qed.

Lemma counts_up_new_Date (clock : nat -> Z) : counts_up (new_Date clock).
Proof. intros w. apply N.le_refl. Qed.

Lemma counts_up_new_uuid (uuid_v4 : nat -> string) : counts_up (new_uuid uuid_v4).
Proof. intros w. apply N.le_refl. Qed.

Lemma increment_le (n : N) : (n <= JS.increment n)%N.
Proof. unfold JS.increment. destruct (n <? JS.MAX_EXACT)%N; lia. Qed.

Lemma counts_up_issueCertificate
      (certificationRequestFromPem : string -> option Pki.CSR)
      (forge_certificate :
         Pki.CSR -> string -> Pki.validity -> Pki.validity -> string -> string
         -> option string)
      (server : Server) (csr : string) (notBefore notAfter : Pki.validity) :
  counts_up (issueCertificate certificationRequestFromPem forge_certificate
                              server csr notBefore notAfter).
Proof.
  intros w. unfold issueCertificate, Pki.issueCRT.
  destruct (Pki.parseCSR certificationRequestFromPem csr) as [parsed | e];
    cbn [snd nextSerialNumber]; [| apply N.le_refl].
  cbn [Pki.getNextSerialNumber].
  destruct (forge_certificate _ _ _ _ _ _); cbn [snd nextSerialNumber];
    apply increment_le.
Qed.

Create HintDb counting.

#[local] Hint Resolve counts_up_ret counts_up_throw counts_up_read_db counts_up_write_db
     counts_up_record counts_up_read_res counts_up_write_res counts_up_new_Date
     counts_up_new_uuid counts_up_issueCertificate : counting.

(** Goes through a handler, statement by statement and branch by
    branch. *)
Ltac counting :=
  repeat first
    [ apply counts_up_bind; [| intros ?; cbv beta]
    | solve [auto with counting]
    | match goal with
      | |- counts_up (if ?b then _ else _) => destruct b
      | |- counts_up (match ?x with _ => _ end) => destruct x
      end ].

Lemma counts_up_res_status (code : Z) : counts_up (res_status code).
Proof. unfold res_status. counting. Qed.

Lemma counts_up_res_set (name value : string) : counts_up (res_set name value).
Proof. unfold res_set. counting. Qed.

Lemma counts_up_res_links (rel target : string) : counts_up (res_links rel target).
Proof. unfold res_links. apply counts_up_res_set. Qed.

Lemma counts_up_res_end : counts_up res_end.
Proof. unfold res_end. counting. Qed.

Lemma counts_up_res_send (content : option Body) : counts_up (res_send content).
Proof. unfold res_send. counting. Qed.

#[local] Hint Resolve counts_up_res_status counts_up_res_set counts_up_res_links
     counts_up_res_end counts_up_res_send : counting.

Lemma counts_up_update_stored (clock : nat -> Z) (authz : Authorization) :
  counts_up (update_stored clock authz).
Proof. unfold update_stored. counting. Qed.

Lemma counts_up_new_Authorization
      (uuid_v4 : nat -> string) (clock : nat -> Z)
      (server : Server) (thumbprint name : string) (scope : option string) :
  counts_up (new_Authorization uuid_v4 clock server thumbprint name scope).
Proof. unfold new_Authorization. counting. Qed.

#[local] Hint Resolve counts_up_update_stored counts_up_new_Authorization : counting.

Lemma counts_up_authorize_names
      (uuid_v4 : nat -> string) (clock : nat -> Z)
      (server : Server) (thumbprint : string) (scope : option string)
      (names : list string) :
  counts_up (authorize_names uuid_v4 clock server thumbprint scope names).
Proof.
  induction names as [| name names IH]; cbn [authorize_names]; counting.
Qed.

Lemma counts_up_require_names
      (uuid_v4 : nat -> string) (clock : nat -> Z)
      (server : Server) (thumbprint : string) (scope : option string)
      (names : list string) :
  forall app : Application,
    counts_up (AcmeRest.require_names uuid_v4 clock server thumbprint scope names app).
Proof.
  induction names as [| name names IH]; intros app; cbn [AcmeRest.require_names];
    counting.
Qed.

Lemma counts_up_send_registration (server : Server) (reg : Registration) :
  counts_up (send_registration server reg).
Proof. unfold send_registration. counting. Qed.

#[local] Hint Resolve counts_up_authorize_names counts_up_require_names
     counts_up_send_registration : counting.

Variable uuid_v4 : nat -> string.
Variable clock : nat -> Z.
Variable certificationRequestFromPem : string -> option Pki.CSR.
Variable forge_certificate :
  Pki.CSR -> string -> Pki.validity -> Pki.validity -> string -> string
  -> option string.
Variable Date_parse : string -> option Z.



End Counting.

Section Certificates.
Import Acme Process.
Variable uuid_v4 : nat -> string.
Variable clock : nat -> Z.
Variable certificationRequestFromPem : string -> option Pki.CSR.
Variable forge_certificate :
  Pki.CSR -> string -> Pki.validity -> Pki.validity -> string -> string
  -> option string.
Variable Date_parse : string -> option Z.


End Certificates.





(** ** DB.put and DB.get *)

Section StoreFacts.
Import Acme.
Context {T : Type} (id_of : T -> string).

Lemma table_get_put_any (o : T) (t : list T) (id : string) :
  table_get id_of (table_put id_of o t) id
  = if id_of o =? id then Some o else table_get id_of t id.
Proof.
  destruct (id_of o =? id) eqn:E.
  - apply String.eqb_eq in E. subst id. apply table_get_put.
  - apply String.eqb_neq in E. apply table_get_put_other, E.
Qed.

Lemma table_put_keys (o : T) (t : list T) :
  map id_of (table_put id_of o t)
  = if existsb (String.eqb (id_of o)) (map id_of t)
    then map id_of t
    else (map id_of t ++ [id_of o])%list.
Proof.
  induction t as [| x t IH]; [reflexivity |].
  cbn [table_put map existsb].
  rewrite (String.eqb_sym (id_of o) (id_of x)).
  destruct (id_of x =? id_of o) eqn:E; cbn [orb map].
  - apply String.eqb_eq in E. rewrite E. reflexivity.
  - rewrite IH. destruct (existsb _ _); reflexivity.
Qed.

End StoreFacts.

(** X1.  What was put is what is got.  After [put(obj)], [get] under the
    key of [obj] returns [obj].  Under any other key it returns what it
    returned before, except that a class that had no table has one now:
    where [get] returned [null] it now returns [undefined], or the member
    of [Object.prototype] of that name.  [put] writes the table of the
    class of [obj] and no other. *)
Theorem put_then_get
        (T : Type) (id_of : T -> string) (o : T) (t : list T) (id : string) :
  id_of o <> "__proto__" ->
  Acme.DB_get id_of (Acme.table_put id_of o t) id
  = (if id_of o =? id then Acme.Stored o
     else match Acme.DB_get id_of t id with
          | Acme.Null => if JS.inherited id then Acme.Inherited id else Acme.Undefined
          | found => found
          end)
  /\ (forall (d : Acme.DB) (reg : Acme.Registration),
         Acme.store_app (Acme.put_reg reg d) = Acme.store_app d
         /\ Acme.store_authz (Acme.put_reg reg d) = Acme.store_authz d
         /\ Acme.store_cert (Acme.put_reg reg d) = Acme.store_cert d)
  /\ (forall (d : Acme.DB) (app : Acme.Application),
         Acme.store_reg (Acme.put_app app d) = Acme.store_reg d
         /\ Acme.store_authz (Acme.put_app app d) = Acme.store_authz d
         /\ Acme.store_cert (Acme.put_app app d) = Acme.store_cert d)
  /\ (forall (d : Acme.DB) (authz : Acme.Authorization),
         Acme.store_reg (Acme.put_authz authz d) = Acme.store_reg d
         /\ Acme.store_app (Acme.put_authz authz d) = Acme.store_app d
         /\ Acme.store_cert (Acme.put_authz authz d) = Acme.store_cert d)
  /\ (forall (d : Acme.DB) (cert : Acme.Certificate),
         Acme.store_reg (Acme.put_cert cert d) = Acme.store_reg d
         /\ Acme.store_app (Acme.put_cert cert d) = Acme.store_app d
         /\ Acme.store_authz (Acme.put_cert cert d) = Acme.store_authz d).
Proof.
  intros _. split; [| repeat split].
  unfold Acme.DB_get.
  pose proof (table_get_put_any id_of o t id) as Hget.
  destruct (Acme.table_put id_of o t) as [| x t'] eqn:Hput.
  - destruct t as [| y t]; cbn [Acme.table_put] in Hput; [discriminate |].
    destruct (id_of y =? id_of o); discriminate.
  - rewrite Hget.
    destruct (id_of o =? id) eqn:Hid; [reflexivity |].
    destruct t as [| y t].
    + reflexivity.
    + destruct (Acme.table_get id_of (y :: t) id); [reflexivity |].
      destruct (JS.inherited id); reflexivity.
Qed.

(** The first authorization ever stored: the look-up of another
    identifier, and of [constructor], before and after. *)
Lemma put_then_get_witness :
  Acme.DB_get Acme.authz_id [] "no-such-authz" = Acme.Null
  /\ Acme.DB_get Acme.authz_id (Acme.table_put Acme.authz_id Samples.authz1 [])
                 "no-such-authz" = Acme.Undefined
  /\ Acme.DB_get Acme.authz_id (Acme.table_put Acme.authz_id Samples.authz1 [])
                 "constructor" = Acme.Inherited "constructor"
  /\ Acme.DB_get Acme.authz_id (Acme.table_put Acme.authz_id Samples.authz1 [])
                 (Acme.authz_id Samples.authz1) = Acme.Stored Samples.authz1.
Proof.
  split; [reflexivity |].
  split; [| split].
  - apply (put_then_get Acme.Authorization Acme.authz_id Samples.authz1 []
                        "no-such-authz").
    discriminate.
  - apply (put_then_get Acme.Authorization Acme.authz_id Samples.authz1 []
                        "constructor").
    discriminate.
  - apply (put_then_get Acme.Authorization Acme.authz_id Samples.authz1 []
                        (Acme.authz_id Samples.authz1)).
    discriminate.
Defined.

(** X2.  [put] keeps the keys of a class in the order they were created
    in: a key that exists keeps its place (its object is replaced), a new
    key goes to the end; so keys that were distinct stay distinct and no
    key is ever lost. *)
Theorem put_keeps_keys (T : Type) (id_of : T -> string) (o : T) (t : list T) :
  NoDup (map id_of t) ->
  map id_of (Acme.table_put id_of o t)
  = (if existsb (String.eqb (id_of o)) (map id_of t)
     then map id_of t
     else (map id_of t ++ [id_of o])%list)
  /\ NoDup (map id_of (Acme.table_put id_of o t))
  /\ (forall id : string, In id (map id_of t) ->
                          In id (map id_of (Acme.table_put id_of o t))).
Proof.
  intros Hdistinct.
  rewrite table_put_keys.
  split; [reflexivity |].
  destruct (existsb (String.eqb (id_of o)) (map id_of t)) eqn:E.
  - split; [assumption | auto].
  - split.
    + apply NoDup_app; [assumption | repeat constructor; intros [] | ].
      intros id Hin [<- | []].
      assert (Hex : existsb (String.eqb (id_of o)) (map id_of t) = true).
      { apply existsb_exists. exists (id_of o). split; [assumption |].
        apply String.eqb_refl. }
      congruence.
    + intros id Hin. apply in_or_app. left. assumption.
Qed.

Lemma put_keeps_keys_witness :
  map Acme.authz_id (Acme.table_put Acme.authz_id (Samples.authz_with Acme.valid)
                                    [Samples.authz1])
  = ["authz-1"].
Proof.
  destruct (put_keeps_keys Acme.Authorization Acme.authz_id
                           (Samples.authz_with Acme.valid) [Samples.authz1])
    as [Hkeys _].
  - repeat constructor. intros [].
  - rewrite Hkeys. reflexivity.
Defined.

(** ** Authorization.update, again *)

Section UpdateFacts.
Import Acme.

Lemma challenges_from_length (url : string) (l : list Challenge) :
  forall i : nat, List.length (challenges_from url i l) = List.length l.
Proof.
  induction l as [| x l IH]; intros i; [reflexivity |].
  cbn [challenges_from List.length]. rewrite IH. reflexivity.
Qed.

Lemma challenges_from_nth (url : string) (l : list Challenge) :
  forall (i k : nat) (x : Challenge),
    nth_error l k = Some x ->
    nth_error (challenges_from url i l) k
    = Some {| json_type := ch_type x; json_status := ch_status x;
              json_url := url ++ "/" ++ index_toString (i + k) |}.
Proof.
  induction l as [| y l IH]; intros i k x Hk.
  - destruct k; discriminate.
  - destruct k as [| k]; cbn [challenges_from nth_error] in *.
    + injection Hk as ->. rewrite Nat.add_0_r. reflexivity.
    + rewrite (IH (S i) k x Hk). rewrite Nat.add_succ_r. reflexivity.
Qed.

(** What [update()] never touches. *)
Lemma update_keeps (now : Z) (a : Authorization) :
  authz_id (Authorization_update now a) = authz_id a
  /\ authz_url (Authorization_update now a) = authz_url a
  /\ authz_thumbprint (Authorization_update now a) = authz_thumbprint a
  /\ authz_identifier (Authorization_update now a) = authz_identifier a
  /\ authz_scope (Authorization_update now a) = authz_scope a
  /\ authz_expires (Authorization_update now a) = authz_expires a
  /\ challengeObj (Authorization_update now a) = challengeObj a
  /\ challenges (Authorization_update now a)
     = challenges_from (authz_url a) 0 (challengeObj a).
Proof.
  unfold Authorization_update.
  repeat match goal with |- context [if ?b then _ else _] => destruct b end;
    repeat split.
Qed.

Lemma update_status_eq (now : Z) (a : Authorization) :
  authz_status (Authorization_update now a)
  = if Date_lt (authz_expires a) (Some now) then invalid
    else if existsb (fun x => status_eqb (ch_status x) valid) (challengeObj a)
         then valid else authz_status a.
Proof.
  unfold Authorization_update.
  cbn [set_challenges authz_expires challenges authz_url challengeObj].
  rewrite valid_challenges_from.
  destruct (Date_lt (authz_expires a) (Some now)); [reflexivity |].
  destruct (existsb _ _); reflexivity.
Qed.

(** Two authorizations with the same fields are the same. *)
Lemma Authorization_ext (a b : Authorization) :
  authz_id a = authz_id b -> authz_status a = authz_status b ->
  authz_url a = authz_url b -> authz_thumbprint a = authz_thumbprint b ->
  authz_identifier a = authz_identifier b -> authz_scope a = authz_scope b ->
  authz_expires a = authz_expires b -> challengeObj a = challengeObj b ->
  challenges a = challenges b -> a = b.
Proof.
  destruct a, b. cbn. intros. subst. reflexivity.
Qed.

End UpdateFacts.

(** X3.  After [update()] the list [challenges] mirrors [challengeObj]:
    it has as many elements, and the one at index [i] has the type and
    the status of [challengeObj[i]] and the URL of the authorization
    followed by [/i].  So an index is in [challenges] exactly when
    [challengeObj] has a challenge there. *)
Theorem update_mirrors_challenges (now : Z) (a : Acme.Authorization) :
  List.length (Acme.challenges (Acme.Authorization_update now a))
  = List.length (Acme.challengeObj a)
  /\ (forall (i : nat) (x : Acme.Challenge),
         nth_error (Acme.challengeObj a) i = Some x ->
         nth_error (Acme.challenges (Acme.Authorization_update now a)) i
         = Some {| Acme.json_type := Acme.ch_type x;
                   Acme.json_status := Acme.ch_status x;
                   Acme.json_url := Acme.authz_url a ++ "/" ++ Acme.index_toString i |})
  /\ (forall k : Z,
         JS.has_index (Acme.challenges (Acme.Authorization_update now a)) k = true
         <-> exists x : Acme.Challenge,
             JS.at_index (Acme.challengeObj (Acme.Authorization_update now a)) k
             = Some x).
Proof.
  destruct (update_keeps now a) as (_ & _ & _ & _ & _ & _ & Hobj & Hlist).
  rewrite Hlist, Hobj.
  split; [apply challenges_from_length |].
  split; [intros i x Hi; apply (challenges_from_nth _ _ 0 i x Hi) |].
  intros k. unfold JS.has_index, JS.at_index.
  rewrite challenges_from_length.
  destruct (0 <=? k)%Z eqn:Hk; cbn [andb].
  - apply Z.leb_le in Hk. rewrite Z.ltb_lt. split.
    + intros Hlt.
      destruct (nth_error (Acme.challengeObj a) (Z.to_nat k)) as [x |] eqn:E.
      * exists x. reflexivity.
      * apply nth_error_None in E. lia.
    + intros [x Hx].
      assert (Hsome : nth_error (Acme.challengeObj a) (Z.to_nat k) <> None)
        by congruence.
      apply nth_error_Some in Hsome. lia.
  - split; [discriminate | intros [x Hx]; discriminate].
Qed.

(** X4.  Running [update()] a second time at the same instant changes
    nothing. *)
Theorem update_idempotent (now : Z) (a : Acme.Authorization) :
  Acme.Authorization_update now (Acme.Authorization_update now a)
  = Acme.Authorization_update now a.
Proof.
  destruct (update_keeps now a) as (Hid & Hurl & Htp & Hname & Hscope & Hexp & Hobj & Hlist).
  destruct (update_keeps now (Acme.Authorization_update now a))
    as (Hid' & Hurl' & Htp' & Hname' & Hscope' & Hexp' & Hobj' & Hlist').
  apply Authorization_ext; try congruence.
  rewrite (update_status_eq now (Acme.Authorization_update now a)).
  rewrite Hexp, Hobj, (update_status_eq now a).
  destruct (Acme.Date_lt (Acme.authz_expires a) (Some now)); [reflexivity |].
  destruct (existsb _ _); reflexivity.
Qed.

(** X5.  Expiry is final.  Once [update()] has run at an instant after
    [expires], the status is [invalid] after every later run of
    [update()], whatever the challenges are by then; [update()] itself
    never moves [expires]. *)
Theorem expired_stays_invalid
        (a : Acme.Authorization) (expires : Z) (instants : list Z) :
  Acme.authz_expires a = Some expires ->
  instants <> [] ->
  Forall (fun now => (expires < now)%Z) instants ->
  let final := fold_left (fun a now => Acme.Authorization_update now a) instants a in
  Acme.authz_status final = Acme.invalid
  /\ Acme.authz_expires final = Some expires.
Proof.
  intros Hexp Hne Hlater.
  assert (Hgen : forall l a0,
             Acme.authz_expires a0 = Some expires ->
             Forall (fun now => (expires < now)%Z) l ->
             Acme.authz_expires
               (fold_left (fun a now => Acme.Authorization_update now a) l a0)
             = Some expires
             /\ (l <> [] \/ Acme.authz_status a0 = Acme.invalid ->
                 Acme.authz_status
                   (fold_left (fun a now => Acme.Authorization_update now a) l a0)
                 = Acme.invalid)).
  { clear. induction l as [| now l IH]; intros a0 Hexp Hall.
    - cbn. split; [assumption |]. intros [H | H]; [contradiction | assumption].
    - inversion Hall as [| ? ? Hnow Hrest]; subst.
      cbn [fold_left].
      destruct (update_keeps now a0) as (_ & _ & _ & _ & _ & Hkeep & _).
      destruct (IH (Acme.Authorization_update now a0)) as [IHexp IHstatus];
        [congruence | assumption |].
      split; [assumption |].
      intros _. apply IHstatus. right.
      rewrite update_status_eq, Hexp. unfold Acme.Date_lt.
      apply Z.ltb_lt in Hnow. rewrite Hnow. reflexivity. }
  destruct (Hgen instants a Hexp Hlater) as [Hfinal Hstatus].
  cbv zeta. split; [apply Hstatus; left; assumption | assumption].
Qed.

Lemma expired_stays_invalid_witness :
  Acme.authz_status
    (fold_left (fun a now => Acme.Authorization_update now a)
               [1001; 2000]%Z (Samples.authz_with Acme.valid))
  = Acme.invalid.
Proof.
  apply (expired_stays_invalid (Samples.authz_with Acme.valid) 1000 [1001; 2000]%Z).
  - reflexivity.
  - discriminate.
  - repeat constructor.
Defined.

(** ** The index of a challenge, written and read back *)

Section IndexRoundTrip.
Import JS.

Lemma parseDigits_uint (d : Decimal.uint) :
  forall a : Z,
    (0 <= a)%Z ->
    parseDigits 10 (NilEmpty.string_of_uint d) (Some a)
    = Some (Z.of_nat (Nat.of_uint_acc d (Z.to_nat a))).
Proof.
  induction d as [| d IH | d IH | d IH | d IH | d IH | d IH | d IH | d IH | d IH | d IH];
    intros a Ha;
    [ cbn; rewrite Z2Nat.id by assumption; reflexivity | .. ];
    cbn [NilEmpty.string_of_uint parseDigits Nat.of_uint_acc];
    match goal with
    | |- context [digitValue ?c] =>
        let v := eval vm_compute in (digitValue c) in
        change (digitValue c) with v
    end;
    cbn [Z.ltb Z.compare Pos.compare Pos.compare_cont];
    rewrite IH by lia;
    rewrite Nat.tail_mul_spec; f_equal; f_equal; f_equal; lia.
Qed.

Lemma to_uint_not_Nil (n : nat) : Nat.to_uint n <> Decimal.Nil.
Proof.
  intros H.
  pose proof (Unsigned.of_to n) as Hback. rewrite H in Hback.
  cbn in Hback. subst n. discriminate.
Qed.

Lemma parseInt_uint (d : Decimal.uint) :
  d <> Decimal.Nil ->
  parseInt (NilEmpty.string_of_uint d) = Some (Z.of_nat (Nat.of_uint d)).
Proof.
  intros Hd.
  assert (Hshape : parseInt (NilEmpty.string_of_uint d)
                   = match parseDigits 10 (NilEmpty.string_of_uint d) (Some 0%Z) with
                     | Some n => Some (1 * n)%Z
                     | None => None
                     end).
  { destruct d as [| d | d | d | d | d | d | d | d | d | d];
      [contradiction | | reflexivity ..].
    destruct d; reflexivity. }
  rewrite Hshape, (parseDigits_uint d 0 ltac:(lia)).
  unfold Nat.of_uint. change (Z.to_nat 0) with 0%nat.
  f_equal. lia.
Qed.

End IndexRoundTrip.

(** X6.  The URL of a challenge leads back to it.  [update()] ends the
    URL of the challenge at index [i] with [i.toString()]; [parseInt]
    reads that text back as [i], and the test of the handlers then finds
    the challenge at [i]. *)
Theorem challenge_url_leads_back
        (now : Z) (a : Acme.Authorization) (i : nat) (x : Acme.Challenge) :
  nth_error (Acme.challengeObj a) i = Some x ->
  JS.parseInt (Acme.index_toString i) = Some (Z.of_nat i)
  /\ Acme.existing_challenge (Some (Acme.Authorization_update now a))
                             (JS.parseInt (Acme.index_toString i))
     = Some (Acme.Authorization_update now a, Z.of_nat i)
  /\ JS.at_index (Acme.challenges (Acme.Authorization_update now a)) (Z.of_nat i)
     = Some {| Acme.json_type := Acme.ch_type x;
               Acme.json_status := Acme.ch_status x;
               Acme.json_url := Acme.authz_url a ++ "/" ++ Acme.index_toString i |}.
Proof.
  intros Hx.
  assert (Hparse : JS.parseInt (Acme.index_toString i) = Some (Z.of_nat i)).
  { unfold Acme.index_toString.
    rewrite (parseInt_uint _ (to_uint_not_Nil i)), Unsigned.of_to. reflexivity. }
  destruct (update_keeps now a) as (_ & _ & _ & _ & _ & _ & _ & Hlist).
  assert (Hnth : nth_error (Acme.challenges (Acme.Authorization_update now a)) i
                 = Some {| Acme.json_type := Acme.ch_type x;
                           Acme.json_status := Acme.ch_status x;
                           Acme.json_url :=
                             Acme.authz_url a ++ "/" ++ Acme.index_toString i |}).
  { rewrite Hlist. apply (challenges_from_nth _ _ 0 i x Hx). }
  assert (Hin : JS.has_index (Acme.challenges (Acme.Authorization_update now a))
                             (Z.of_nat i) = true).
  { unfold JS.has_index.
    assert (Hsome : nth_error (Acme.challenges (Acme.Authorization_update now a)) i
                    <> None) by congruence.
    apply nth_error_Some in Hsome.
    apply andb_true_intro. split; [apply Z.leb_le | apply Z.ltb_lt]; lia. }
  split; [exact Hparse |]. split.
  - rewrite Hparse. cbn [Acme.existing_challenge]. rewrite Hin. reflexivity.
  - unfold JS.at_index.
    replace (0 <=? Z.of_nat i)%Z with true by (symmetry; apply Z.leb_le; lia).
    rewrite Nat2Z.id. exact Hnth.
Qed.

Lemma challenge_url_leads_back_witness :
  JS.parseInt (Acme.index_toString 0) = Some 0%Z.
Proof.
  apply (challenge_url_leads_back 500 Samples.authz1 0 Acme.auto_challenge).
  reflexivity.
Defined.

(** ** DNS_RE *)

Section RegexFacts.
Import JS Notions.

Lemma matches_Empty (s : string) : matches Empty s = false.
Proof. induction s as [| c s IH]; [reflexivity | exact IH]. Qed.

Lemma alphabet_mkSeq (r1 r2 : regex) (c : ascii) :
  alphabet (mkSeq r1 r2) c = true -> alphabet r1 c || alphabet r2 c = true.
Proof.
  destruct r1; cbn; intros H; try discriminate; try assumption.
Qed.

Lemma alphabet_mkAlt (r1 r2 : regex) (c : ascii) :
  alphabet (mkAlt r1 r2) c = true -> alphabet r1 c || alphabet r2 c = true.
Proof.
  destruct r1, r2; cbn; intros H; try discriminate; try assumption;
    rewrite ?orb_false_r; try assumption.
Qed.

Lemma deriv_outside_alphabet (r : regex) (c : ascii) :
  alphabet r c = false -> deriv c r = Empty.
Proof.
  induction r as [| | ranges | r1 IH1 r2 IH2 | r1 IH1 r2 IH2 | r1 IH1 | r1 IH1 lo hi];
    cbn [alphabet deriv]; intros H.
  - reflexivity.
  - reflexivity.
  - rewrite H. reflexivity.
  - apply orb_false_elim in H. destruct H as [H1 H2].
    rewrite (IH1 H1), (IH2 H2). destruct (nullable r1); reflexivity.
  - apply orb_false_elim in H. destruct H as [H1 H2].
    rewrite (IH1 H1), (IH2 H2). reflexivity.
  - rewrite (IH1 H). reflexivity.
  - destruct hi; [reflexivity |]. rewrite (IH1 H). reflexivity.
Qed.

Lemma alphabet_deriv (r : regex) (c c' : ascii) :
  alphabet (deriv c r) c' = true -> alphabet r c' = true.
Proof.
  induction r as [| | ranges | r1 IH1 r2 IH2 | r1 IH1 r2 IH2 | r1 IH1 | r1 IH1 lo hi];
    cbn [alphabet deriv]; intros H.
  - discriminate.
  - discriminate.
  - destruct (in_class ranges c); discriminate.
  - apply alphabet_mkAlt in H. apply orb_true_iff in H. apply orb_true_iff.
    destruct H as [H | H].
    + apply alphabet_mkSeq in H. apply orb_true_iff in H.
      destruct H as [H | H]; [left; apply IH1, H | right; exact H].
    + destruct (nullable r1); [right; apply IH2, H | discriminate].
  - apply alphabet_mkAlt in H. apply orb_true_iff in H. apply orb_true_iff.
    destruct H as [H | H]; [left; apply IH1, H | right; apply IH2, H].
  - apply alphabet_mkSeq in H. apply orb_true_iff in H.
    destruct H as [H | H]; [apply IH1, H | exact H].
  - destruct hi; [discriminate |].
    apply alphabet_mkSeq in H. apply orb_true_iff in H.
    destruct H as [H | H]; [apply IH1, H | exact H].
Qed.

Lemma matches_alphabet (s : string) :
  forall r : regex,
    matches r s = true ->
    Forall (fun c => alphabet r c = true) (list_ascii_of_string s).
Proof.
  induction s as [| c s IH]; intros r H; cbn [list_ascii_of_string].
  - constructor.
  - cbn [matches] in H. constructor.
    + destruct (alphabet r c) eqn:E; [reflexivity |].
      rewrite (deriv_outside_alphabet r c E), matches_Empty in H. discriminate.
    + specialize (IH _ H).
      eapply Forall_impl; [| exact IH].
      intros c'. apply alphabet_deriv.
Qed.

Lemma DNS_RE_alphabet (c : ascii) :
  alphabet Pki.DNS_RE c = true -> in_class dns_characters c = true.
Proof.
  unfold Pki.DNS_RE, Plus, Pki.alnum, Pki.alnum_dash, dns_characters.
  cbn [alphabet in_class existsb].
  repeat match goal with
         | |- context [in_range ?a ?b c] =>
             destruct (in_range a b c); cbn [orb]
         end; intros H; try reflexivity; discriminate.
Qed.


Lemma needs_dot_not_nullable (r : regex) :
  needs_dot r = true -> nullable r = false.
Proof.
  induction r as [| | ranges | r1 IH1 r2 IH2 | r1 IH1 r2 IH2 | r1 IH1 | r1 IH1 lo hi];
    cbn [needs_dot nullable]; intros H; try reflexivity; try discriminate.
  - apply orb_true_iff in H. destruct H as [H | H].
    + rewrite (IH1 H). reflexivity.
    + rewrite (IH2 H). apply andb_false_r.
  - apply andb_true_iff in H. destruct H as [H1 H2].
    rewrite (IH1 H1), (IH2 H2). reflexivity.
  - apply andb_true_iff in H. destruct H as [Hlo H1].
    rewrite (IH1 H1). apply negb_true_iff in Hlo. rewrite Hlo. reflexivity.
Qed.

Lemma needs_dot_mkSeq (r1 r2 : regex) :
  needs_dot r1 || needs_dot r2 = true -> needs_dot (mkSeq r1 r2) = true.
Proof.
  destruct r1; cbn [mkSeq]; intros H; try reflexivity; try exact H.
Qed.

Lemma needs_dot_mkAlt (r1 r2 : regex) :
  needs_dot r1 = true -> needs_dot r2 = true -> needs_dot (mkAlt r1 r2) = true.
Proof.
  intros H1 H2.
  destruct r1, r2; cbn [mkAlt]; try assumption; try reflexivity;
    exact (andb_true_intro (conj H1 H2)).
Qed.

Lemma needs_dot_deriv (r : regex) (c : ascii) :
  c <> "."%char -> needs_dot r = true -> needs_dot (deriv c r) = true.
Proof.
  intros Hc.
  induction r as [| | ranges | r1 IH1 r2 IH2 | r1 IH1 r2 IH2 | r1 IH1 | r1 IH1 lo hi];
    cbn [needs_dot deriv]; intros H; try reflexivity; try discriminate.
  - destruct ranges as [| [lo hi] [| ? ?]]; try discriminate.
    apply andb_true_iff in H. destruct H as [Hlo Hhi].
    apply Ascii.eqb_eq in Hlo, Hhi. subst lo hi.
    replace (in_class [("."%char, "."%char)] c) with false; [reflexivity |].
    symmetry. unfold in_class, in_range. cbn [existsb]. rewrite orb_false_r.
    apply not_true_is_false. intros Hin.
    apply andb_true_iff in Hin. destruct Hin as [H1 H2].
    apply Nat.leb_le in H1, H2.
    apply Hc. rewrite <- (ascii_nat_embedding c).
    replace (nat_of_ascii c) with (nat_of_ascii ".") by lia.
    apply ascii_nat_embedding.
  - apply needs_dot_mkAlt.
    + apply needs_dot_mkSeq. apply orb_true_iff in H. apply orb_true_iff.
      destruct H as [H | H]; [left; apply IH1, H | right; exact H].
    + apply orb_true_iff in H. destruct H as [H | H].
      * rewrite (needs_dot_not_nullable _ H). reflexivity.
      * destruct (nullable r1); [apply IH2, H | reflexivity].
  - apply andb_true_iff in H. destruct H as [H1 H2].
    apply needs_dot_mkAlt; [apply IH1, H1 | apply IH2, H2].
  - apply andb_true_iff in H. destruct H as [_ H1].
    destruct hi; [reflexivity |].
    apply needs_dot_mkSeq. rewrite (IH1 H1). reflexivity.
Qed.

Lemma matches_needs_dot (s : string) :
  forall r : regex,
    needs_dot r = true -> matches r s = true ->
    In "."%char (list_ascii_of_string s).
Proof.
  induction s as [| c s IH]; intros r Hneeds H; cbn [matches list_ascii_of_string] in *.
  - rewrite (needs_dot_not_nullable _ Hneeds) in H. discriminate.
  - destruct (Ascii.eqb c ".") eqn:E.
    + apply Ascii.eqb_eq in E. left. exact E.
    + apply Ascii.eqb_neq in E. right.
      apply (IH (deriv c r)); [apply needs_dot_deriv; assumption | exact H].
Qed.

End RegexFacts.

(** X7.  What [DNS_RE] lets through.  A string the pattern matches is
    not empty, is made of lower-case letters, digits, hyphens and dots
    only, and has a dot in it. *)
Theorem DNS_RE_names (name : string) :
  JS.matches Pki.DNS_RE name = true ->
  name <> ""
  /\ Forall (fun c => JS.in_class Notions.dns_characters c = true)
            (list_ascii_of_string name)
  /\ In "."%char (list_ascii_of_string name).
Proof.
  intros H. split; [| split].
  - intros ->. discriminate.
  - eapply Forall_impl; [| apply (matches_alphabet name _ H)].
    intros c. apply DNS_RE_alphabet.
  - apply (matches_needs_dot name Pki.DNS_RE); [reflexivity | exact H].
Qed.

Lemma DNS_RE_names_witness : In "."%char (list_ascii_of_string "example.com").
Proof.
  apply (DNS_RE_names "example.com"). reflexivity.
Defined.

(** ** parseCSR: the padding loop *)

Section Padding.
Import Notions.

Lemma length_append (s t : string) :
  String.length (s ++ t) = (String.length s + String.length t)%nat.
Proof. induction s as [| c s IH]; cbn; [reflexivity | rewrite IH; reflexivity]. Qed.

Lemma append_empty (s : string) : s ++ "" = s.
Proof. induction s as [| c s IH]; cbn; [reflexivity | rewrite IH; reflexivity]. Qed.

Lemma append_cons (s t : string) (c : ascii) :
  (s ++ String c "") ++ t = s ++ String c t.
Proof. induction s as [| c' s IH]; cbn; [reflexivity | rewrite IH; reflexivity]. Qed.

Lemma pad_rounds (rounds : nat) :
  forall base64 : string,
    ((4 - String.length base64 mod 4) mod 4 <= rounds)%nat ->
    (String.length (Pki.pad rounds base64) mod 4 = 0)%nat
    /\ Pki.pad rounds base64
       = base64 ++ copies ((4 - String.length base64 mod 4) mod 4) "=".
Proof.
  induction rounds as [| rounds IH]; intros base64 Hrounds;
    pose proof (Nat.mod_upper_bound (String.length base64) 4 ltac:(lia)) as Hlt.
  - cbn [Pki.pad].
    assert (H0 : (String.length base64 mod 4 = 0)%nat).
    { destruct (String.length base64 mod 4) as [| [| [| [| ?]]]]; cbn in Hrounds; lia. }
    split; [exact H0 | rewrite H0; cbn; rewrite append_empty; reflexivity].
  - cbn [Pki.pad].
    destruct (String.length base64 mod 4 =? 0)%nat eqn:E.
    + apply Nat.eqb_eq in E.
      split; [exact E | rewrite E; cbn; rewrite append_empty; reflexivity].
    + apply Nat.eqb_neq in E.
      pose proof (Nat.div_mod_eq (String.length base64) 4) as Hdm.
      pose proof (Nat.div_mod_eq (String.length (base64 ++ "=")) 4) as Hdm'.
      pose proof (Nat.mod_upper_bound (String.length (base64 ++ "=")) 4 ltac:(lia)) as Hlt'.
      rewrite length_append in Hdm', Hlt'. cbn [String.length] in Hdm', Hlt'.
      assert (Hnext : ((4 - String.length (base64 ++ "=") mod 4) mod 4
                       = (4 - String.length base64 mod 4) mod 4 - 1)%nat
                      /\ (1 <= (4 - String.length base64 mod 4) mod 4)%nat).
      { rewrite length_append. cbn [String.length].
        destruct (String.length base64 mod 4) as [| [| [| [| ?]]]] eqn:Hr;
          [lia | | | | lia].
        - replace ((String.length base64 + 1) mod 4)%nat with 2%nat by lia.
          cbn. lia.
        - replace ((String.length base64 + 1) mod 4)%nat with 3%nat by lia.
          cbn. lia.
        - replace ((String.length base64 + 1) mod 4)%nat with 0%nat by lia.
          cbn. lia. }
      destruct Hnext as [Hnext Hpos].
      destruct (IH (base64 ++ "=")) as [Hlen Hshape]; [lia |].
      split; [exact Hlen |].
      rewrite Hshape, Hnext.
      destruct ((4 - String.length base64 mod 4) mod 4)%nat as [| k]; [lia |].
      cbn [copies]. rewrite Nat.sub_succ, Nat.sub_0_r. apply append_cons.
Qed.

End Padding.

(** X8.  The padding loop of [parseCSR] is done within three rounds: the
    text it leaves has a length that is a multiple of four, and is the
    text it was given followed by as many [=] as that takes, none when
    the length was a multiple of four already. *)
Theorem pad_completes (base64 : string) :
  (String.length (Pki.pad 3 base64) mod 4 = 0)%nat
  /\ Pki.pad 3 base64
     = base64 ++ Notions.copies ((4 - String.length base64 mod 4) mod 4) "=".
Proof.
  apply pad_rounds.
  pose proof (Nat.mod_upper_bound (4 - String.length base64 mod 4) 4 ltac:(lia)).
  lia.
Qed.

(** ** checkCSR: the names it returns *)

Section NamesFacts.
Import JS Pki.

Lemma map_for_effect_invariant {S A R : Type}
      (callback : S -> A -> R * S) (P : S -> Prop) (l : list A) :
  (forall s a, In a l -> P s -> P (snd (callback s a))) ->
  forall s : S, P s -> P (map_for_effect callback l s).
Proof.
  unfold map_for_effect.
  induction l as [| a l IH]; intros Hstep s Hs; cbn [fold_left]; [exact Hs |].
  apply IH.
  - intros s' a' Hin. apply Hstep. right. exact Hin.
  - apply Hstep; [left; reflexivity | exact Hs].
Qed.

Lemma insert_sorted_perm (x : N * string) (l : list (N * string)) :
  Permutation (insert_sorted x l) (x :: l).
Proof.
  induction l as [| y l IH]; cbn [insert_sorted]; [reflexivity |].
  destruct (fst x <=? fst y)%N; [reflexivity |].
  rewrite IH. apply perm_swap.
Qed.

Lemma own_keys_perm (o : list string) : Permutation (own_keys o) o.
Proof.
  unfold own_keys, index_keys.
  induction o as [| k o IH]; [reflexivity |].
  cbn [fold_right filter].
  destruct (arrayIndex k) as [n |].
  - rewrite insert_sorted_perm. cbn [map snd app].
    constructor. exact IH.
  - rewrite <- Permutation_middle. constructor. exact IH.
Qed.

Lemma has_key_In (o : list string) (k : string) :
  has_key o k = true <-> In k o.
Proof.
  unfold has_key. rewrite existsb_exists. split.
  - intros (x & Hin & E). apply String.eqb_eq in E. subst x. exact Hin.
  - intros Hin. exists k. split; [exact Hin | apply String.eqb_refl].
Qed.

Lemma set_key_NoDup (o : list string) (k : string) :
  NoDup o -> NoDup (set_key o k).
Proof.
  intros H. unfold set_key.
  destruct (k =? "__proto__"); [exact H |].
  destruct (has_key o k) eqn:E; [exact H |].
  apply NoDup_app; [exact H | repeat constructor; intros [] |].
  intros x Hin [<- | []].
  apply has_key_In in Hin. congruence.
Qed.

Lemma set_key_In (o : list string) (k x : string) :
  In x (set_key o k) -> In x o \/ x = k.
Proof.
  unfold set_key.
  destruct (k =? "__proto__"); [auto |].
  destruct (has_key o k); [auto |].
  intros H. apply in_app_or in H. destruct H as [H | [<- | []]]; auto.
Qed.

Lemma name_is (name : option string) (literal : string) :
  name_is_not name literal = false -> name = Some literal.
Proof.
  destruct name as [n |]; cbn; [| discriminate].
  intros H. apply negb_false_iff, String.eqb_eq in H. congruence.
Qed.

End NamesFacts.

(** X9.  The names [checkCSR] returns.  The list is never empty and has
    no name twice, and every name in it is the lower-cased value of a
    [commonName] of the subject, or the lower-cased value of a dNSName
    entry of a [subjectAltName] extension of an [extensionRequest]
    attribute that matches [DNS_RE]. *)
Theorem checkParsed_names (csr : Pki.CSR) (names : list string) :
  Pki.checkParsed csr = Returns (Pki.Names names) ->
  names <> []
  /\ NoDup names
  /\ forall name : string,
      In name names ->
      (exists attr : Pki.SubjectAttribute,
          In attr (Pki.subject_attributes csr)
          /\ Pki.sa_name attr = Some "commonName"
          /\ name = JS.toLowerCase (Pki.sa_value attr))
      \/ (JS.matches Pki.DNS_RE name = true
          /\ exists (attr : Pki.Attribute) (extn : Pki.Extension)
                    (san : Pki.GeneralName),
              In attr (Pki.attributes csr)
              /\ Pki.attr_name attr = Some "extensionRequest"
              /\ In extn (Pki.attr_extensions attr)
              /\ Pki.ext_name extn = Some "subjectAltName"
              /\ In san (Pki.ext_altNames extn)
              /\ Pki.san_type san = 2%Z
              /\ name = JS.toLowerCase (Pki.san_value san)).
Proof.
  unfold Pki.checkParsed.
  set (commonName := Pki.map_for_effect Pki.subject_callback _ None).
  set (extensions := Pki.map_for_effect Pki.attribute_callback _ []).
  set (sans := Pki.map_for_effect Pki.extension_callback extensions []).
  set (from_subject := fun name : string =>
         exists attr : Pki.SubjectAttribute,
           In attr (Pki.subject_attributes csr)
           /\ Pki.sa_name attr = Some "commonName"
           /\ name = JS.toLowerCase (Pki.sa_value attr)).
  set (from_san := fun name : string =>
         JS.matches Pki.DNS_RE name = true
         /\ exists (attr : Pki.Attribute) (extn : Pki.Extension)
                   (san : Pki.GeneralName),
             In attr (Pki.attributes csr)
             /\ Pki.attr_name attr = Some "extensionRequest"
             /\ In extn (Pki.attr_extensions attr)
             /\ Pki.ext_name extn = Some "subjectAltName"
             /\ In san (Pki.ext_altNames extn)
             /\ Pki.san_type san = 2%Z
             /\ name = JS.toLowerCase (Pki.san_value san)).
  assert (Hcn : forall cn, commonName = Some cn -> from_subject cn).
  { subst commonName.
    apply (map_for_effect_invariant Pki.subject_callback
             (fun s => forall cn, s = Some cn -> from_subject cn));
      [| discriminate].
    intros s attr Hin Hs cn. unfold Pki.subject_callback.
    destruct (Pki.name_is_not (Pki.sa_name attr) "commonName") eqn:Hname;
      [apply Hs |].
    destruct (JS.truthy s); [apply Hs |].
    destruct (negb _); cbn [snd]; intros [= <-];
      exists attr; (split; [exact Hin |]); (split; [apply name_is, Hname | reflexivity]). }
  assert (Hext : forall extn, In extn extensions ->
                   exists attr, In attr (Pki.attributes csr)
                                /\ Pki.attr_name attr = Some "extensionRequest"
                                /\ In extn (Pki.attr_extensions attr)).
  { subst extensions.
    apply (map_for_effect_invariant Pki.attribute_callback
             (fun s => forall extn, In extn s ->
                         exists attr, In attr (Pki.attributes csr)
                                      /\ Pki.attr_name attr = Some "extensionRequest"
                                      /\ In extn (Pki.attr_extensions attr)));
      [| intros ? []].
    intros s attr Hin Hs extn. unfold Pki.attribute_callback.
    destruct (Pki.name_is_not (Pki.attr_name attr) "extensionRequest") eqn:Hname;
      [apply Hs |].
    destruct (0 <? List.length s)%nat; [apply Hs |].
    cbn [snd]. intros Hextn. exists attr.
    split; [exact Hin |]. split; [apply name_is, Hname | exact Hextn]. }
  assert (Hsan : forall san, In san sans ->
                   exists attr extn, In attr (Pki.attributes csr)
                                /\ Pki.attr_name attr = Some "extensionRequest"
                                /\ In extn (Pki.attr_extensions attr)
                                /\ Pki.ext_name extn = Some "subjectAltName"
                                /\ In san (Pki.ext_altNames extn)).
  { subst sans.
    apply (map_for_effect_invariant Pki.extension_callback
             (fun s => forall san, In san s ->
                   exists attr extn, In attr (Pki.attributes csr)
                                /\ Pki.attr_name attr = Some "extensionRequest"
                                /\ In extn (Pki.attr_extensions attr)
                                /\ Pki.ext_name extn = Some "subjectAltName"
                                /\ In san (Pki.ext_altNames extn)));
      [| intros ? []].
    intros s extn Hin Hs san. unfold Pki.extension_callback.
    destruct (Pki.name_is_not (Pki.ext_name extn) "subjectAltName") eqn:Hname;
      [apply Hs |].
    destruct (0 <? List.length s)%nat; [apply Hs |].
    cbn [snd]. intros Hin_san.
    destruct (Hext extn Hin) as (attr & Hattr & Hreq & Hextn).
    exists attr, extn.
    repeat (split; [assumption |]).
    split; [apply name_is, Hname | exact Hin_san]. }
  set (start := match commonName with
                | Some cn => if JS.truthy commonName then JS.set_key [] cn else []
                | None => []
                end).
  assert (Hstart : NoDup start
                   /\ forall name, In name start -> from_subject name \/ from_san name).
  { subst start. destruct commonName as [cn |] eqn:E.
    - destruct (JS.truthy (Some cn)).
      + split; [apply set_key_NoDup; constructor |].
        intros name Hin. apply set_key_In in Hin.
        destruct Hin as [[] | ->]. left. apply Hcn. reflexivity.
      + split; [constructor | intros ? []].
    - split; [constructor | intros ? []]. }
  set (all := Pki.map_for_effect Pki.san_callback sans start).
  assert (Hall : NoDup all
                 /\ forall name, In name all -> from_subject name \/ from_san name).
  { subst all.
    apply (map_for_effect_invariant Pki.san_callback
             (fun s => NoDup s
                       /\ forall name, In name s -> from_subject name \/ from_san name));
      [| exact Hstart].
    intros s san Hin [Hnodup Hs]. unfold Pki.san_callback.
    destruct (negb (Pki.san_type san =? 2)%Z) eqn:Htype; [split; assumption |].
    destruct (negb (JS.matches Pki.DNS_RE (JS.toLowerCase (Pki.san_value san))))
      eqn:Hmatch; [split; assumption |].
    cbn [snd]. split; [apply set_key_NoDup, Hnodup |].
    intros name Hname. apply set_key_In in Hname.
    destruct Hname as [Hname | ->]; [apply Hs, Hname |].
    right. split; [apply negb_false_iff, Hmatch |].
    destruct (Hsan san Hin) as (attr & extn & H1 & H2 & H3 & H4 & H5).
    exists attr, extn, san.
    repeat (split; [assumption |]).
    split; [apply Z.eqb_eq, negb_false_iff, Htype | reflexivity]. }
  destruct Hall as [Hnodup Horigin].
  destruct (JS.has_key all "hasOwnProperty"); [discriminate |].
  destruct (List.length (JS.own_keys all) =? 0)%nat eqn:Hlen; [discriminate |].
  intros [= <-].
  pose proof (own_keys_perm all) as Hperm.
  split; [| split].
  - intros Hnil. rewrite Hnil in Hlen. discriminate.
  - apply (Permutation_NoDup (Permutation_sym Hperm) Hnodup).
  - intros name Hin. apply Horigin.
    apply (Permutation_in _ Hperm Hin).
Qed.

Lemma checkParsed_names_witness :
  NoDup ["not-example.com"; "www.not-example.com"].
Proof.
  apply (checkParsed_names Samples.testCSR ["not-example.com"; "www.not-example.com"]).
  vm_compute. reflexivity.
Defined.

(** X10.  The only error object [checkCSR] returns is [No names in CSR];
    on a request forge cannot parse it throws, and returns nothing. *)
Theorem checkCSR_only_error
        (certificationRequestFromPem : string -> option Pki.CSR) (base64url : string) :
  (forall message : string,
      Pki.checkCSR certificationRequestFromPem base64url = Returns (Pki.Error message) ->
      message = "No names in CSR")
  /\ (certificationRequestFromPem (Pki.pem_of base64url) = None ->
      exists e : string,
        Pki.checkCSR certificationRequestFromPem base64url = Throws e).
Proof.
  unfold Pki.checkCSR, Pki.parseCSR. split.
  - intros message.
    destruct (certificationRequestFromPem (Pki.pem_of base64url)) as [csr |];
      [apply checkParsed_error | discriminate].
  - intros ->. eexists. reflexivity.
Qed.

Lemma checkCSR_only_error_witness :
  (exists message : string,
      Pki.checkCSR (Samples.parses_to {| Pki.subject_attributes := [];
                                         Pki.attributes := [] |}) "AAAA"
      = Returns (Pki.Error message)
      /\ message = "No names in CSR")
  /\ exists e : string, Pki.checkCSR (fun _ => None) "AAAA" = Throws e.
Proof.
  split.
  - eexists. split; [reflexivity |].
    apply (proj1 (checkCSR_only_error
                    (Samples.parses_to {| Pki.subject_attributes := [];
                                          Pki.attributes := [] |}) "AAAA")).
    reflexivity.
  - apply (proj2 (checkCSR_only_error (fun _ => None) "AAAA")). reflexivity.
Defined.

(** ** newReg *)

Section NewReg.
Import Acme.

Lemma newReg_known (server : Server) (req : Request) (w : World) (r : Registration) :
  get_reg (db w) (accountKeyThumbprint req) = Some r ->
  exists w' : World,
    AcmeRest.newReg server req w = (Returns tt, w')
    /\ db w' = db w
    /\ statusCode (res w') = 200%Z
    /\ body (res w') = body (res w)
    /\ In ("location", makeURL server "reg" (accountKeyThumbprint req))
          (headers (res w')).
Proof.
  intros Hr. pose proof (table_get_id _ _ _ _ Hr) as Hkey.
  unfold AcmeRest.newReg, bind, read_db. rewrite Hr.
  eexists. split; [reflexivity |]. cbn. rewrite Hkey.
  repeat split. apply in_or_app. right. left. reflexivity.
Qed.

Lemma newReg_unknown (server : Server) (req : Request) (w : World) :
  get_reg (db w) (accountKeyThumbprint req) = None ->
  exists w' : World,
    AcmeRest.newReg server req w = (Returns tt, w')
    /\ db w' = put_reg (new_Registration (accountKeyThumbprint req) (accountKey req)
                                         (contact (payload req))) (db w)
    /\ statusCode (res w') = 201%Z
    /\ In ("location", makeURL server "reg" (accountKeyThumbprint req))
          (headers (res w')).
Proof.
  intros Hr.
  unfold AcmeRest.newReg, bind, read_db. rewrite Hr.
  destruct (JS.truthy (terms server)) eqn:Hterms; cbn;
    (eexists; split; [reflexivity |]); cbn; repeat split;
    repeat (apply in_or_app; first [right; left; reflexivity | left]).
Qed.

End NewReg.

(** X11.  [newReg] registers an account once.  For an account that is
    registered already it answers 200 with the location of the
    registration and leaves the store as it is; for a new account it
    answers 201 and stores a registration with status [good], the key and
    the contact of the request, next to the registrations that were
    there.  Either way a further [newReg] for the account changes
    nothing. *)
Theorem newReg_registers_once
        (server : Acme.Server) (req : Acme.Request) (w : Acme.World) :
  let thumbprint := Acme.accountKeyThumbprint req in
  exists w' : Acme.World,
    AcmeRest.newReg server req w = (Returns tt, w')
    /\ In ("location", Acme.makeURL server "reg" thumbprint) (Acme.headers (Acme.res w'))
    /\ match Acme.get_reg (Acme.db w) thumbprint with
       | Some existing =>
           Acme.db w' = Acme.db w
           /\ Acme.statusCode (Acme.res w') = 200%Z
           /\ Acme.body (Acme.res w') = Acme.body (Acme.res w)
       | None =>
           Acme.statusCode (Acme.res w') = 201%Z
           /\ Acme.get_reg (Acme.db w') thumbprint
              = Some (Acme.new_Registration thumbprint (Acme.accountKey req)
                                            (Acme.contact (Acme.payload req)))
           /\ (forall id : string,
                  id <> thumbprint ->
                  Acme.get_reg (Acme.db w') id = Acme.get_reg (Acme.db w) id)
           /\ Acme.store_app (Acme.db w') = Acme.store_app (Acme.db w)
           /\ Acme.store_authz (Acme.db w') = Acme.store_authz (Acme.db w)
           /\ Acme.store_cert (Acme.db w') = Acme.store_cert (Acme.db w)
       end
    /\ forall req' : Acme.Request,
        Acme.accountKeyThumbprint req' = thumbprint ->
        exists w'' : Acme.World,
          AcmeRest.newReg server req' w' = (Returns tt, w'')
          /\ Acme.db w'' = Acme.db w'
          /\ Acme.statusCode (Acme.res w'') = 200%Z.
Proof.
  cbv zeta.
  destruct (Acme.get_reg (Acme.db w) (Acme.accountKeyThumbprint req))
    as [existing |] eqn:Hreg.
  - destruct (newReg_known server req w existing Hreg)
      as (w' & Hrun & Hdb & Hcode & Hbody & Hloc).
    exists w'. split; [exact Hrun |]. split; [exact Hloc |].
    split; [repeat split; assumption |].
    intros req' Hsame.
    destruct (newReg_known server req' w' existing) as (w'' & Hrun' & Hdb' & Hcode' & _).
    + rewrite Hdb, Hsame. exact Hreg.
    + exists w''. repeat split; assumption.
  - destruct (newReg_unknown server req w Hreg) as (w' & Hrun & Hdb & Hcode & Hloc).
    assert (Hstored :
              Acme.get_reg (Acme.db w') (Acme.accountKeyThumbprint req)
              = Some (Acme.new_Registration (Acme.accountKeyThumbprint req)
                        (Acme.accountKey req) (Acme.contact (Acme.payload req)))).
    { rewrite Hdb. apply (table_get_put Acme.reg_id (Acme.new_Registration _ _ _)). }
    exists w'. split; [exact Hrun |]. split; [exact Hloc |].
    split.
    + split; [exact Hcode |]. split; [exact Hstored |].
      rewrite Hdb. split; [| repeat split].
      intros id Hid.
      apply (table_get_put_other Acme.reg_id (Acme.new_Registration _ _ _)).
      cbn. congruence.
    + intros req' Hsame.
      destruct (newReg_known server req' w' _ ltac:(rewrite Hsame; exact Hstored))
        as (w'' & Hrun' & Hdb' & Hcode' & _).
      exists w''. repeat split; assumption.
Qed.

(** Reduces the world a handler leaves to its fields, and nothing else. *)
Ltac world :=
  cbn [Acme.db Acme.res Acme.log Acme.uuids Acme.dates Acme.nextSerialNumber
       Acme.with_db Acme.with_res Acme.with_log
       Acme.write_db Acme.write_res Acme.record Acme.read_res Acme.read_db
       Acme.res_status Acme.res_send Acme.res_set Acme.res_links Acme.res_end
       Acme.bind Acme.ret Acme.statusCode Acme.headers Acme.body Acme.sent
       fst snd].

(** ** updateReg, again *)

(** X12.  [updateReg] is bound to the account of the key: a request of
    an unknown account, or for the registration of another account, is
    answered 401 [unauthorized] and changes nothing in the store. *)
Theorem updateReg_refuses_other_accounts
        (server : Acme.Server) (req : Acme.Request) (w : Acme.World) :
  Acme.get_reg (Acme.db w) (Acme.accountKeyThumbprint req) = None
  \/ Acme.params_id req <> Acme.accountKeyThumbprint req ->
  exists (w' : Acme.World) (title : string),
    Acme.updateReg server req w = (Returns tt, w')
    /\ Acme.db w' = Acme.db w
    /\ Acme.statusCode (Acme.res w') = 401%Z
    /\ Acme.body (Acme.res w') = Some (Acme.problem "unauthorized" title None).
Proof.
  intros Hwho.
  unfold Acme.updateReg, Acme.bind, Acme.read_db.
  destruct (Acme.get_reg (Acme.db w) (Acme.accountKeyThumbprint req)) as [reg |] eqn:Hreg.
  - destruct Hwho as [Hnone | Hother]; [discriminate |].
    apply String.eqb_neq in Hother. rewrite Hother. cbn.
    eexists. eexists. split; [reflexivity |]. repeat split.
  - cbn. eexists. eexists. split; [reflexivity |]. repeat split.
Qed.

Lemma updateReg_refuses_other_accounts_witness :
  exists (w' : Acme.World) (title : string),
    Acme.updateReg Samples.server1
      (Samples.request "bb22" "aa11" "" Samples.wrong_agreement)
      (Samples.world1 (Samples.order1 Acme.pending Acme.pending))
    = (Returns tt, w')
    /\ Acme.db w' = Acme.db (Samples.world1 (Samples.order1 Acme.pending Acme.pending))
    /\ Acme.statusCode (Acme.res w') = 401%Z
    /\ Acme.body (Acme.res w') = Some (Acme.problem "unauthorized" title None).
Proof.
  apply (updateReg_refuses_other_accounts
           Samples.server1
           (Samples.request "bb22" "aa11" "" Samples.wrong_agreement)
           (Samples.world1 (Samples.order1 Acme.pending Acme.pending))).
  right. discriminate.
Defined.

(** X13.  An update [updateReg] accepts.  For the registration of the
    account of the key, with no agreement in the payload or with the
    terms of the server as agreement, the answer is 200 with the
    registration as it is stored afterwards: the contact of the payload
    in place of the old one if the payload has one, the agreement set if
    the payload has one, the key and the status as they were.  The other
    registrations are not touched. *)
Theorem updateReg_accepts
        (server : Acme.Server) (req : Acme.Request) (w : Acme.World)
        (reg : Acme.Registration) :
  let thumbprint := Acme.accountKeyThumbprint req in
  let p := Acme.payload req in
  Acme.get_reg (Acme.db w) thumbprint = Some reg ->
  Acme.params_id req = thumbprint ->
  (JS.truthy (Acme.agreement p) = true -> Acme.agreement p = Acme.terms server) ->
  let updated :=
    {| Acme.reg_id := Acme.reg_id reg;
       Acme.reg_status := Acme.reg_status reg;
       Acme.reg_key := Acme.reg_key reg;
       Acme.reg_contact := match Acme.contact p with
                           | Some c => Some c
                           | None => Acme.reg_contact reg
                           end;
       Acme.reg_agreement := if JS.truthy (Acme.agreement p)
                             then Acme.agreement p
                             else Acme.reg_agreement reg |} in
  exists w' : Acme.World,
    Acme.updateReg server req w = (Returns tt, w')
    /\ Acme.statusCode (Acme.res w') = 200%Z
    /\ Acme.body (Acme.res w')
       = Some (Acme.OfRegistration (Acme.Registration_marshal updated))
    /\ Acme.get_reg (Acme.db w') thumbprint = Some updated
    /\ forall id : string,
        id <> thumbprint ->
        Acme.get_reg (Acme.db w') id = Acme.get_reg (Acme.db w) id.
Proof.
  cbv zeta. intros Hreg Hid Hterms.
  pose proof (table_get_id _ _ _ _ Hreg) as Hkey.
  assert (Hsame : forall a, Acme.differs (Some a) (Some a) = false).
  { intros a. cbn. rewrite String.eqb_refl. reflexivity. }
  assert (Hget : forall (r : Acme.Registration) (d : Acme.DB),
             Acme.reg_id r = Acme.accountKeyThumbprint req ->
             Acme.get_reg (Acme.put_reg r d) (Acme.accountKeyThumbprint req) = Some r).
  { intros r d Hr. rewrite <- Hr. apply (table_get_put Acme.reg_id). }
  assert (Hother : forall (r : Acme.Registration) (d : Acme.DB) (id : string),
             Acme.reg_id r = Acme.accountKeyThumbprint req ->
             id <> Acme.accountKeyThumbprint req ->
             Acme.get_reg (Acme.put_reg r d) id = Acme.get_reg d id).
  { intros r d id Hr Hne. apply (table_get_put_other Acme.reg_id). congruence. }
  unfold Acme.updateReg, Acme.bind, Acme.read_db.
  rewrite Hreg, Hid, String.eqb_refl. cbn [negb].
  remember (Acme.agreement (Acme.payload req)) as ag eqn:Hag.
  destruct (JS.truthy ag) eqn:Hagree.
  - rewrite <- (Hterms eq_refl).
    destruct ag as [a |]; [| discriminate].
    rewrite Hsame.
    unfold Acme.send_registration, Acme.bind.
    destruct (Acme.contact (Acme.payload req)) as [c |];
      destruct (JS.truthy (Acme.terms server)); world;
      (eexists; split; [reflexivity |]); world;
      (split; [reflexivity |]); (split; [reflexivity |]);
      (split; [ apply Hget; exact Hkey
              | intros id Hne;
                repeat (rewrite Hother by assumption); reflexivity ]).
  - unfold Acme.send_registration, Acme.bind.
    destruct (Acme.contact (Acme.payload req)) as [c |];
      destruct (JS.truthy (Acme.terms server)); world;
      (eexists; split; [reflexivity |]); world;
      (split; [reflexivity |]);
      (split; [destruct reg; reflexivity |]);
      (split; [ first [ apply Hget; exact Hkey
                      | rewrite Hreg; destruct reg; reflexivity ]
              | intros id Hne;
                repeat (rewrite Hother by assumption); reflexivity ]).
Qed.

Lemma updateReg_accepts_witness :
  exists w' : Acme.World,
    Acme.statusCode (Acme.res w') = 200%Z
    /\ option_map Acme.reg_agreement (Acme.get_reg (Acme.db w') "aa11")
       = Some (Some "https://example.com/terms")
    /\ option_map Acme.reg_contact (Acme.get_reg (Acme.db w') "aa11")
       = Some (Some ["mailto:new@example.com"]).
Proof.
  destruct (updateReg_accepts
              Samples.server1
              (Samples.request "aa11" "aa11" ""
                 {| Acme.contact := Some ["mailto:new@example.com"];
                    Acme.agreement := Some "https://example.com/terms";
                    Acme.csr := None |})
              (Samples.world1 (Samples.order1 Acme.pending Acme.pending))
              Samples.alice)
    as (w' & _ & Hcode & _ & Hget & _).
  - reflexivity.
  - reflexivity.
  - intros _. reflexivity.
  - exists w'. split; [exact Hcode |].
    change (Acme.accountKeyThumbprint _) with "aa11" in Hget.
    rewrite Hget. split; reflexivity.
Defined.

(** ** fetch *)

(** X14.  Registrations are never fetched: whatever is stored,
    [GET /reg/{id}] is answered 401 [unauthorized], and neither the store
    nor the clock is touched. *)
Theorem fetch_denies_registrations
        (clock : nat -> Z) (id : string) (w : Acme.World) :
  JS.inherited id = false ->
  exists w' : Acme.World,
    AcmeRest.fetch clock "reg" id w
    = (Returns (AcmeRest.Json
                  (Acme.problem "unauthorized"
                                "GET requests not allowed for registrations" None)),
       w')
    /\ Acme.statusCode (Acme.res w') = 401%Z
    /\ Acme.sent (Acme.res w') = true
    /\ Acme.db w' = Acme.db w
    /\ Acme.dates w' = Acme.dates w.
Proof.
  intros _.
  unfold AcmeRest.fetch, AcmeRest.fetch_body, Acme.bind, Acme.read_db.
  cbn [String.eqb Ascii.eqb Bool.eqb].
  destruct (Acme.get_reg (Acme.db w) id); cbn;
    (eexists; split; [reflexivity |]); repeat split.
Qed.

Lemma fetch_denies_registrations_witness :
  exists w' : Acme.World,
    AcmeRest.fetch Samples.clock500 "reg" "aa11"
                   (Samples.world1 (Samples.order1 Acme.pending Acme.pending))
    = (Returns (AcmeRest.Json
                  (Acme.problem "unauthorized"
                                "GET requests not allowed for registrations" None)),
       w')
    /\ Acme.statusCode (Acme.res w') = 401%Z
    /\ Acme.sent (Acme.res w') = true
    /\ Acme.db w' = Acme.db (Samples.world1 (Samples.order1 Acme.pending Acme.pending))
    /\ Acme.dates w' = Acme.dates (Samples.world1 (Samples.order1 Acme.pending Acme.pending)).
Proof.
  apply (fetch_denies_registrations Samples.clock500 "aa11"). reflexivity.
Defined.

(** X15.  Fetching an authorization writes to the store.  [GET
    /authz/{id}] of a stored authorization runs [update()] on it at the
    current time: the answer is 200 with the selection of the updated
    authorization, and the updated authorization is what the store holds
    afterwards. *)
Theorem fetch_refreshes_authorization
        (clock : nat -> Z) (id : string) (w : Acme.World) (authz : Acme.Authorization) :
  Acme.get_authz (Acme.db w) id = Some authz ->
  let updated := Acme.Authorization_update (clock (Acme.dates w)) authz in
  exists w' : Acme.World,
    AcmeRest.fetch clock "authz" id w
    = (Returns (AcmeRest.AuthorizationJson (AcmeRest.select_Authorization updated)), w')
    /\ Acme.statusCode (Acme.res w') = 200%Z
    /\ Acme.sent (Acme.res w') = true
    /\ Acme.get_authz (Acme.db w') id = Some updated
    /\ Acme.dates w' = S (Acme.dates w).
Proof.
  intros Hauthz updated.
  pose proof (table_get_id _ _ _ _ Hauthz) as Hkey.
  destruct (update_keeps (clock (Acme.dates w)) authz) as (Hid & _).
  unfold AcmeRest.fetch, AcmeRest.fetch_body, Acme.bind, Acme.read_db.
  cbn [String.eqb Ascii.eqb Bool.eqb]. rewrite Hauthz.
  cbn. fold updated.
  eexists. split; [reflexivity |]. world.
  repeat split.
  replace id with (Acme.authz_id updated) by (subst updated; congruence).
  apply (table_get_put Acme.authz_id).
Qed.

Lemma fetch_refreshes_authorization_witness :
  exists w' : Acme.World,
    Acme.get_authz (Acme.db w') "authz-1"
    = Some (Acme.Authorization_update 500 (Samples.authz_with Acme.valid))
    /\ Acme.dates w' = 1%nat.
Proof.
  destruct (fetch_refreshes_authorization
              Samples.clock500 "authz-1"
              {| Acme.db := {| Acme.store_reg := []; Acme.store_app := [];
                               Acme.store_authz := [Samples.authz_with Acme.valid];
                               Acme.store_cert := [] |};
                 Acme.nextSerialNumber := 1; Acme.uuids := 0; Acme.dates := 0;
                 Acme.res := Acme.fresh_response; Acme.log := [] |}
              (Samples.authz_with Acme.valid))
    as (w' & _ & _ & _ & Hget & Hdates).
  - reflexivity.
  - exists w'. split; [exact Hget | exact Hdates].
Defined.

(** X16.  Nothing to fetch.  For a type other than [reg] and an
    identifier under which no order, authorization or certificate is
    stored, [fetch] answers 404 with an empty body and leaves the store
    and the clock as they are. *)
Theorem fetch_not_found
        (clock : nat -> Z) (type id : string) (w : Acme.World) :
  JS.inherited type = false ->
  JS.inherited id = false ->
  type <> "reg" ->
  Acme.get_app (Acme.db w) id = None ->
  Acme.get_authz (Acme.db w) id = None ->
  Acme.get_cert (Acme.db w) id = None ->
  exists w' : Acme.World,
    AcmeRest.fetch clock type id w = (Returns AcmeRest.NoContent, w')
    /\ Acme.statusCode (Acme.res w') = 404%Z
    /\ Acme.sent (Acme.res w') = true
    /\ Acme.db w' = Acme.db w
    /\ Acme.dates w' = Acme.dates w.
Proof.
  intros _ _ Htype Happ Hauthz Hcert.
  apply String.eqb_neq in Htype.
  unfold AcmeRest.fetch, AcmeRest.fetch_body, Acme.bind, Acme.read_db.
  rewrite Htype, Happ, Hauthz, Hcert.
  destruct (type =? "app"), (type =? "authz"), (type =? "cert"); cbn;
    (eexists; split; [reflexivity |]); repeat split.
Qed.

Lemma fetch_not_found_witness :
  exists w' : Acme.World,
    AcmeRest.fetch Samples.clock500 "foo" "bar"
                   (Samples.world1 (Samples.order1 Acme.pending Acme.pending))
    = (Returns AcmeRest.NoContent, w')
    /\ Acme.statusCode (Acme.res w') = 404%Z.
Proof.
  destruct (fetch_not_found Samples.clock500 "foo" "bar"
              (Samples.world1 (Samples.order1 Acme.pending Acme.pending)))
    as (w' & Hrun & Hcode & _); try reflexivity; try discriminate.
  exists w'. split; [exact Hrun | exact Hcode].
Defined.

(** ** Objects that are not there *)



(** ** finalizeOrder, refused *)

(** X18.  A finalize request that is refused leaves the order [ready].
    When the payload has no CSR, or [checkCSR] throws or returns an
    error, the answer is 400 [malformed] with the message, and the order
    is stored with status [ready] whatever its status was before; no
    certificate is stored and no serial number is used. *)
Theorem finalizeOrder_refused_makes_ready
        (uuid_v4 : nat -> string) (clock : nat -> Z)
        (certificationRequestFromPem : string -> option Pki.CSR)
        (forge_certificate :
           Pki.CSR -> string -> Pki.validity -> Pki.validity -> string -> string
           -> option string)
        (server : Acme.Server) (req : Acme.Request) (w : Acme.World)
        (reg : Acme.Registration) (order : Acme.Application) (message : string) :
  Acme.get_reg (Acme.db w) (Acme.accountKeyThumbprint req) = Some reg ->
  Acme.get_app (Acme.db w) (Acme.params_id req) = Some order ->
  Acme.checked_request certificationRequestFromPem req = inl message ->
  exists w' : Acme.World,
    Acme.finalizeOrder uuid_v4 clock certificationRequestFromPem forge_certificate
                       server req w
    = (Returns tt, w')
    /\ Acme.statusCode (Acme.res w') = 400%Z
    /\ Acme.body (Acme.res w')
       = Some (Acme.problem "malformed" "Invalid new certificate request" (Some message))
    /\ Acme.get_app (Acme.db w') (Acme.params_id req)
       = Some (Acme.set_app_status Acme.ready order)
    /\ Acme.store_cert (Acme.db w') = Acme.store_cert (Acme.db w)
    /\ Acme.store_authz (Acme.db w') = Acme.store_authz (Acme.db w)
    /\ Acme.nextSerialNumber w' = Acme.nextSerialNumber w.
Proof.
  intros Hreg Happ Hcheck.
  pose proof (table_get_id _ _ _ _ Happ) as Hkey.
  unfold Acme.finalizeOrder, Acme.bind, Acme.read_db.
  rewrite Hreg, Happ. world. unfold Acme.new_uuid. rewrite Hcheck. world.
  eexists. split; [reflexivity |]. world.
  repeat split.
  rewrite <- Hkey.
  exact (table_get_put Acme.app_id (Acme.set_app_status Acme.ready order) _).
Qed.

Lemma finalizeOrder_refused_makes_ready_witness :
  exists w' : Acme.World,
    Acme.get_app (Acme.db w') "order-1"
    = Some (Acme.set_app_status Acme.ready (Samples.order1 Acme.pending Acme.pending))
    /\ Acme.statusCode (Acme.res w') = 400%Z.
Proof.
  destruct (finalizeOrder_refused_makes_ready
              Samples.uuid_of Samples.clock500 (Samples.parses_to Samples.testCSR)
              Samples.forge_signs Samples.server1
              (Samples.request "aa11" "order-1" "" Samples.no_payload)
              (Samples.world1 (Samples.order1 Acme.pending Acme.pending))
              Samples.alice (Samples.order1 Acme.pending Acme.pending)
              "CSR must be provided")
    as (w' & _ & Hcode & _ & Hget & _).
  - reflexivity.
  - reflexivity.
  - reflexivity.
  - exists w'. split; [exact Hget | exact Hcode].
Defined.

(** ** updateAuthz, refused and accepted *)

(** X19.  [updateAuthz] changes nothing for a request it refuses.  For
    an identifier that is not the name of a member of [Object.prototype]:
    when there is no such authorization or challenge the answer is 404;
    when the account is unknown, or is not the account of the
    authorization, it is 401 (404 if the challenge is missing as well).
    In each case the store and the clock are as before. *)
Theorem updateAuthz_refused_changes_nothing
        (clock : nat -> Z) (req : Acme.Request) (w : Acme.World) :
  JS.inherited (Acme.params_id req) = false ->
  Acme.existing_challenge (Acme.get_authz (Acme.db w) (Acme.params_id req))
                          (JS.parseInt (Acme.params_index req)) = None
  \/ Acme.get_reg (Acme.db w) (Acme.accountKeyThumbprint req) = None
  \/ (exists authz : Acme.Authorization,
         Acme.get_authz (Acme.db w) (Acme.params_id req) = Some authz
         /\ Acme.accountKeyThumbprint req <> Acme.authz_thumbprint authz) ->
  exists w' : Acme.World,
    Acme.updateAuthz clock req w = (Returns tt, w')
    /\ Acme.db w' = Acme.db w
    /\ Acme.dates w' = Acme.dates w
    /\ Acme.sent (Acme.res w') = true
    /\ (Acme.statusCode (Acme.res w') = 404%Z
        \/ Acme.statusCode (Acme.res w') = 401%Z).
Proof.
  intros _ Hrefused.
  unfold Acme.updateAuthz, Acme.bind, Acme.read_db.
  destruct (Acme.existing_challenge
              (Acme.get_authz (Acme.db w) (Acme.params_id req))
              (JS.parseInt (Acme.params_index req)))
    as [[authz index] |] eqn:Hfound.
  - destruct (Acme.get_reg (Acme.db w) (Acme.accountKeyThumbprint req))
      as [reg |] eqn:Hreg.
    + destruct Hrefused as [Hnone | [Hnone | (authz' & Hauthz & Hother)]];
        try discriminate.
      pose proof (table_get_id _ _ _ _ Hreg) as Hkey.
      rewrite Hauthz in Hfound. unfold Acme.existing_challenge in Hfound.
      destruct (JS.parseInt (Acme.params_index req)); [| discriminate].
      destruct (JS.has_index (Acme.challenges authz') z); [| discriminate].
      injection Hfound as <- <-.
      replace (Acme.reg_id reg =? Acme.authz_thumbprint authz') with false
        by (symmetry; apply String.eqb_neq; congruence).
      world. eexists. split; [reflexivity |]. world. repeat split. right. reflexivity.
    + world. eexists. split; [reflexivity |]. world. repeat split. right. reflexivity.
  - world. eexists. split; [reflexivity |]. world. repeat split. left. reflexivity.
Qed.

Lemma updateAuthz_refused_changes_nothing_witness :
  exists w' : Acme.World,
    Acme.updateAuthz Samples.clock500
      (Samples.request "bb22" "authz-1" "0" Samples.key_authorization)
      (Samples.world1 (Samples.order1 Acme.pending Acme.pending))
    = (Returns tt, w')
    /\ Acme.db w' = Acme.db (Samples.world1 (Samples.order1 Acme.pending Acme.pending))
    /\ Acme.statusCode (Acme.res w') = 401%Z.
Proof.
  destruct (updateAuthz_refused_changes_nothing
              Samples.clock500
              (Samples.request "bb22" "authz-1" "0" Samples.key_authorization)
              (Samples.world1 (Samples.order1 Acme.pending Acme.pending)))
    as (w' & Hrun & Hdb & _ & _ & Hcode).
  - reflexivity.
  - right. right. exists Samples.authz1. split; [reflexivity | discriminate].
  - exists w'. split; [exact Hrun |]. split; [exact Hdb |].
    destruct Hcode as [Hcode | Hcode]; [| exact Hcode].
    vm_compute in Hrun. injection Hrun as <-. discriminate Hcode.
Defined.

Section UpdateAuthzFacts.
Import Acme.

Lemma existsb_update_nth {A : Type} (p : A -> bool) (f : A -> A) (l : list A) :
  forall (n : nat) (x : A),
    nth_error l n = Some x -> p (f x) = true ->
    existsb p (update_nth n f l) = true.
Proof.
  induction l as [| y l IH]; intros n x Hn Hp.
  - destruct n; discriminate.
  - destruct n as [| n]; cbn [nth_error update_nth existsb] in *.
    + injection Hn as ->. rewrite Hp. reflexivity.
    + rewrite (IH n x Hn Hp). apply orb_true_r.
Qed.

(** What an accepted [updateAuthz] leaves. *)
Lemma updateAuthz_runs
      (clock : nat -> Z) (req : Request) (w : World)
      (authz : Authorization) (index : Z) (reg : Registration) (challenge : Challenge) :
  get_authz (db w) (params_id req) = Some authz ->
  JS.parseInt (params_index req) = Some index ->
  JS.has_index (challenges authz) index = true ->
  JS.at_index (challengeObj authz) index = Some challenge ->
  get_reg (db w) (accountKeyThumbprint req) = Some reg ->
  accountKeyThumbprint req = authz_thumbprint authz ->
  let answered :=
    set_challengeObj
      (update_nth (Z.to_nat index) (Challenge_update None) (challengeObj authz)) authz in
  let recomputed := Authorization_update (clock (dates w)) answered in
  exists w' : World,
    updateAuthz clock req w = (Returns tt, w')
    /\ db w' = updateAppsFor recomputed (put_authz recomputed (put_authz answered (db w)))
    /\ statusCode (res w') = 200%Z
    /\ body (res w') = Some (OfChallenge (JS.at_index (challenges recomputed) index)).
Proof.
  intros Hauthz Hindex Hin Hobj Hreg Hown answered recomputed.
  pose proof (table_get_id _ _ _ _ Hreg) as Hkey.
  unfold updateAuthz, bind, read_db.
  rewrite Hauthz, Hindex. cbn [existing_challenge]. rewrite Hin, Hreg.
  rewrite Hkey, Hown, String.eqb_refl. cbn [negb]. rewrite Hobj.
  eexists. split; [reflexivity |].
  cbn. unfold res_payload. fold answered. fold recomputed.
  repeat split.
Qed.

End UpdateAuthzFacts.

(** X20.  What answering a challenge achieves.  For a request
    [updateAuthz] accepts, made before the authorization expires, the
    authorization is stored with status [valid], and every pending order
    of the account whose requirements all point to this authorization or
    are valid already is stored with status [ready]. *)
Theorem updateAuthz_validates
        (clock : nat -> Z) (req : Acme.Request) (w : Acme.World)
        (authz : Acme.Authorization) (index : Z)
        (reg : Acme.Registration) (challenge : Acme.Challenge) :
  Acme.get_authz (Acme.db w) (Acme.params_id req) = Some authz ->
  JS.parseInt (Acme.params_index req) = Some index ->
  JS.has_index (Acme.challenges authz) index = true ->
  JS.at_index (Acme.challengeObj authz) index = Some challenge ->
  Acme.get_reg (Acme.db w) (Acme.accountKeyThumbprint req) = Some reg ->
  Acme.accountKeyThumbprint req = Acme.authz_thumbprint authz ->
  Acme.Date_lt (Acme.authz_expires authz) (Some (clock (Acme.dates w))) = false ->
  exists (w' : Acme.World) (authz' : Acme.Authorization),
    Acme.updateAuthz clock req w = (Returns tt, w')
    /\ Acme.get_authz (Acme.db w') (Acme.params_id req) = Some authz'
    /\ Acme.authz_status authz' = Acme.valid
    /\ forall (i : nat) (order : Acme.Application),
        nth_error (Acme.store_app (Acme.db w)) i = Some order ->
        Acme.app_thumbprint order = Acme.accountKeyThumbprint req ->
        Acme.app_status order = Acme.pending ->
        Forall (fun r => (Acme.req_type r = "authorization"
                          /\ Acme.req_url r = Acme.authz_url authz)
                         \/ Acme.req_status r = Acme.valid)
               (Acme.app_requirements order) ->
        exists order' : Acme.Application,
          nth_error (Acme.store_app (Acme.db w')) i = Some order'
          /\ Acme.app_id order' = Acme.app_id order
          /\ Acme.app_status order' = Acme.ready.
Proof.
  intros Hauthz Hindex Hin Hobj Hreg Hown Hfresh.
  pose proof (table_get_id _ _ _ _ Hauthz) as Hkey.
  destruct (updateAuthz_runs clock req w authz index reg challenge
              Hauthz Hindex Hin Hobj Hreg Hown)
    as (w' & Hrun & Hdb & _).
  set (answered :=
         Acme.set_challengeObj
           (Acme.update_nth (Z.to_nat index) (Acme.Challenge_update None)
                            (Acme.challengeObj authz)) authz) in *.
  set (recomputed := Acme.Authorization_update (clock (Acme.dates w)) answered) in *.
  destruct (update_keeps (clock (Acme.dates w)) answered)
    as (Hid & Hurl & Htp & _).
  assert (Hstatus : Acme.authz_status recomputed = Acme.valid).
  { subst recomputed. rewrite update_status_eq.
    change (Acme.authz_expires answered) with (Acme.authz_expires authz).
    rewrite Hfresh.
    replace (existsb _ (Acme.challengeObj answered)) with true; [reflexivity |].
    symmetry. unfold JS.at_index in Hobj.
    destruct (0 <=? index)%Z; [| discriminate].
    apply (existsb_update_nth _ _ _ _ challenge Hobj). reflexivity. }
  exists w', recomputed.
  split; [exact Hrun |]. split; [| split; [exact Hstatus |]].
  - rewrite Hdb. unfold Acme.updateAppsFor, Acme.get_authz.
    cbn [Acme.store_authz Acme.with_app Acme.put_authz Acme.with_authz].
    replace (Acme.params_id req) with (Acme.authz_id recomputed)
      by (rewrite <- Hkey; exact Hid).
    apply (table_get_put Acme.authz_id).
  - intros i order Hi Howner Hpending Hreqs.
    rewrite Hdb. unfold Acme.updateAppsFor.
    cbn [Acme.store_app Acme.with_app Acme.put_authz Acme.with_authz].
    eexists. split; [apply map_nth_error, map_nth_error, Hi |].
    cbv beta.
    assert (Hdep : (Acme.app_thumbprint order =? Acme.authz_thumbprint recomputed) = true).
    { apply String.eqb_eq. rewrite Howner, Hown. symmetry. exact Htp. }
    rewrite Hdep. cbn [Acme.app_thumbprint Acme.set_app_requirements]. rewrite Hdep.
    rewrite markAsReady_eq.
    cbn [Acme.app_status Acme.app_requirements Acme.set_app_requirements].
    rewrite Hpending. cbn [Acme.status_eqb andb].
    replace (forallb _ _) with true; [split; reflexivity |].
    symmetry. apply forallb_forall. intros r' Hr'.
    apply in_map_iff in Hr'. destruct Hr' as (r & <- & Hr).
    rewrite Forall_forall in Hreqs. specialize (Hreqs r Hr).
    unfold Acme.rewrite_requirement.
    destruct ((Acme.req_type r =? "authorization")
              && (Acme.req_url r =? Acme.authz_url recomputed)) eqn:Hmatch.
    + cbn [Acme.req_status]. rewrite Hstatus. reflexivity.
    + destruct Hreqs as [[Htype Hsame] | Hvalid].
      * unfold recomputed in Hmatch. rewrite Htype, Hsame, Hurl in Hmatch.
        change (Acme.authz_url answered) with (Acme.authz_url authz) in Hmatch.
        rewrite !String.eqb_refl in Hmatch. discriminate.
      * rewrite Hvalid. reflexivity.
Qed.

Lemma updateAuthz_validates_witness :
  exists (w' : Acme.World) (order' : Acme.Application),
    nth_error (Acme.store_app (Acme.db w')) 0 = Some order'
    /\ Acme.app_status order' = Acme.ready.
Proof.
  destruct (updateAuthz_validates
              Samples.clock500
              (Samples.request "aa11" "authz-1" "0" Samples.key_authorization)
              (Samples.world1 (Samples.order1 Acme.pending Acme.pending))
              Samples.authz1 0 Samples.alice Acme.auto_challenge)
    as (w' & authz' & _ & _ & _ & Horders); try reflexivity.
  assert (Hreqs :
            Forall (fun r => (Acme.req_type r = "authorization"
                              /\ Acme.req_url r = Acme.authz_url Samples.authz1)
                             \/ Acme.req_status r = Acme.valid)
                   (Acme.app_requirements (Samples.order1 Acme.pending Acme.pending))).
  { constructor; [left; split; reflexivity | constructor]. }
  destruct (Horders 0%nat (Samples.order1 Acme.pending Acme.pending)
                    eq_refl eq_refl eq_refl Hreqs)
    as (order' & Hnth & _ & Hready).
  exists w', order'. split; [exact Hnth | exact Hready].
Defined.

(** ** ACMEJose.verify: what an accepted request has *)

(** X21.  A request [verify] accepts is a flattened JWS whose protected
    header has [alg] and [nonce], and [url] unless the version is [le];
    in version [le] the key has at least 2048 bits; and node-jose has
    verified the signature under the key that is returned. *)
Theorem verify_accepted_request
        (K : Type) (decode_header : string -> option Jose.Header)
        (asKey : string -> option K) (key_length : K -> Z)
        (createVerify_verify : K -> Jose.JWS -> option string)
        (getKey : string -> option K) (acmeVersion : string)
        (jws : Jose.JWS) (key : K) (payload : string) :
  Jose.verify K decode_header asKey key_length createVerify_verify getKey
              acmeVersion jws
  = Returns (key, payload) ->
  JS.truthy (Jose.jws_protected jws) = true
  /\ Jose.jws_payload jws <> None
  /\ JS.truthy (Jose.jws_signature jws) = true
  /\ createVerify_verify key jws = Some payload
  /\ (acmeVersion = "le" -> (2048 <= key_length key)%Z)
  /\ exists (protected : string) (header : Jose.Header),
      Jose.jws_protected jws = Some protected
      /\ decode_header protected = Some header
      /\ JS.truthy (Jose.alg header) = true
      /\ JS.truthy (Jose.nonce header) = true
      /\ (acmeVersion <> "le" -> JS.truthy (Jose.url header) = true).
Proof.
  unfold Jose.verify. intros H.
  destruct (JS.truthy (Jose.jws_protected jws)) eqn:Hp; [| discriminate].
  destruct (Jose.jws_payload jws) as [body |] eqn:Hbody; [| discriminate].
  destruct (JS.truthy (Jose.jws_signature jws)) eqn:Hs; [| discriminate].
  cbn [negb orb] in H.
  destruct (Jose.jws_protected jws) as [protected |]; [| discriminate].
  destruct (decode_header protected) as [header |] eqn:Hheader; [| discriminate].
  destruct (JS.truthy (Jose.alg header)) eqn:Halg; [| discriminate].
  destruct (JS.truthy (Jose.kid header) || JS.truthy (Jose.jwk header));
    [| discriminate].
  destruct (JS.truthy (Jose.nonce header)) eqn:Hnonce; [| discriminate].
  cbn [negb orb] in H.
  destruct (negb (acmeVersion =? "le") && negb (JS.truthy (Jose.url header)))
    eqn:Hurl; [discriminate |].
  destruct (if JS.truthy (Jose.kid header) then _ else _) as [key' |];
    [| discriminate].
  destruct ((acmeVersion =? "le") && (key_length key' <? 2048)%Z) eqn:Hlen;
    [discriminate |].
  destruct (createVerify_verify key' jws) as [payload' |] eqn:Hverify;
    [| discriminate].
  injection H as <- <-.
  split; [reflexivity |]. split; [discriminate |]. split; [reflexivity |].
  split; [exact Hverify |]. split.
  - intros Hle. apply String.eqb_eq in Hle. rewrite Hle in Hlen.
    cbn [andb] in Hlen. apply Z.ltb_ge in Hlen. exact Hlen.
  - exists protected, header.
    repeat (split; [reflexivity || assumption |]).
    intros Hdraft. apply String.eqb_neq in Hdraft. rewrite Hdraft in Hurl.
    cbn [negb andb] in Hurl. apply negb_false_iff in Hurl. exact Hurl.
Qed.

Lemma verify_accepted_request_witness :
  JS.truthy (Jose.jws_signature Samples.signed_request) = true.
Proof.
  apply (verify_accepted_request
           string (fun _ => Some Samples.header_with_both)
           (fun jwk => Some jwk) (fun _ => 256%Z) (fun _ _ => Some "{}")
           Samples.lookup_alice "ietf-draft" Samples.signed_request
           "alice-key" "{}").
  reflexivity.
Defined.

(** ** makeURL *)

Section URLFacts.

Lemma append_cancel (s a b : string) : s ++ a = s ++ b -> a = b.
Proof.
  induction s as [| c s IH]; cbn; intros H; [exact H |].
  injection H as H. apply IH, H.
Qed.

End URLFacts.

(** X22.  The URL of an object names it.  For the four classes of the
    store, two URLs made by [makeURL] on one server are equal only if the
    types are equal and the identifiers are. *)
Theorem makeURL_names_object
        (server : Acme.Server) (type1 type2 id1 id2 : string) :
  In type1 ["reg"; "app"; "authz"; "cert"] ->
  In type2 ["reg"; "app"; "authz"; "cert"] ->
  Acme.makeURL server type1 id1 = Acme.makeURL server type2 id2 ->
  type1 = type2 /\ id1 = id2.
Proof.
  unfold Acme.makeURL. intros H1 H2 H.
  apply append_cancel in H.
  cbn [In] in H1, H2.
  repeat match goal with
         | H : _ \/ _ |- _ => destruct H as [<- | H]
         | H : False |- _ => destruct H
         end;
    cbn in H; try discriminate;
    (split; [reflexivity | congruence]).
Qed.

Lemma makeURL_names_object_witness :
  "authz" = "authz" /\ "uuid-0" = "uuid-0".
Proof.
  apply (makeURL_names_object Samples.server1 "authz" "authz" "uuid-0" "uuid-0").
  - right. right. left. reflexivity.
  - right. right. left. reflexivity.
  - reflexivity.
Defined.

(** ** updateAppsFor, twice *)

Section UpdateAppsFacts.
Import Acme Notions.

Lemma rewrite_requirement_twice (authz : Authorization) (r : Requirement) :
  rewrite_requirement authz (rewrite_requirement authz r) = rewrite_requirement authz r.
Proof.
  unfold rewrite_requirement.
  destruct ((req_type r =? "authorization") && (req_url r =? authz_url authz)) eqn:E.
  - cbn [req_type req_url]. rewrite E. reflexivity.
  - rewrite E. reflexivity.
Qed.

Lemma markAsReady_twice (app : Application) :
  markAsReady (markAsReady app) = markAsReady app.
Proof.
  rewrite (markAsReady_eq app).
  destruct (status_eqb (app_status app) pending
            && forallb (fun req => status_eqb (req_status req) valid)
                       (app_requirements app)) eqn:E.
  - reflexivity.
  - rewrite markAsReady_eq, E. reflexivity.
Qed.

Lemma markAsReady_keeps (app : Application) :
  app_thumbprint (markAsReady app) = app_thumbprint app
  /\ app_requirements (markAsReady app) = app_requirements app
  /\ app_id (markAsReady app) = app_id app.
Proof.
  rewrite markAsReady_eq. destruct (_ && _); repeat split.
Qed.

Lemma set_own_requirements (app : Application) :
  set_app_requirements (app_requirements app) app = app.
Proof. destruct app. reflexivity. Qed.

Lemma updateAppsFor_map (authz : Authorization) (d : DB) :
  updateAppsFor authz d = with_app (map (order_after authz) (store_app d)) d.
Proof.
  unfold updateAppsFor. f_equal. rewrite map_map.
  apply map_ext. intros app. unfold order_after.
  destruct (app_thumbprint app =? authz_thumbprint authz) eqn:E.
  - cbn [app_thumbprint set_app_requirements]. rewrite E. reflexivity.
  - rewrite E. reflexivity.
Qed.

Lemma order_after_twice (authz : Authorization) (app : Application) :
  order_after authz (order_after authz app) = order_after authz app.
Proof.
  unfold order_after.
  destruct (app_thumbprint app =? authz_thumbprint authz) eqn:E; [| rewrite E; reflexivity].
  set (rewritten := set_app_requirements
                      (map (rewrite_requirement authz) (app_requirements app)) app).
  destruct (markAsReady_keeps rewritten) as (Htp & Hreqs & _).
  rewrite Htp. change (app_thumbprint rewritten) with (app_thumbprint app). rewrite E.
  rewrite Hreqs. change (app_requirements rewritten)
    with (map (rewrite_requirement authz) (app_requirements app)).
  rewrite map_map.
  rewrite (map_ext _ _ (rewrite_requirement_twice authz)).
  change (map (rewrite_requirement authz) (app_requirements app))
    with (app_requirements rewritten).
  rewrite <- Hreqs, set_own_requirements.
  apply markAsReady_twice.
Qed.

End UpdateAppsFacts.

(** X23.  [updateAppsFor] settles in one run: running it again for the
    same authorization changes nothing.  It keeps the orders and their
    order in the store (only requirements and statuses move) and leaves
    registrations, authorizations and certificates alone. *)
Theorem updateAppsFor_idempotent (authz : Acme.Authorization) (d : Acme.DB) :
  Acme.updateAppsFor authz (Acme.updateAppsFor authz d) = Acme.updateAppsFor authz d
  /\ map Acme.app_id (Acme.store_app (Acme.updateAppsFor authz d))
     = map Acme.app_id (Acme.store_app d)
  /\ Acme.store_reg (Acme.updateAppsFor authz d) = Acme.store_reg d
  /\ Acme.store_authz (Acme.updateAppsFor authz d) = Acme.store_authz d
  /\ Acme.store_cert (Acme.updateAppsFor authz d) = Acme.store_cert d.
Proof.
  rewrite !updateAppsFor_map.
  cbn [Acme.store_app Acme.store_reg Acme.store_authz Acme.store_cert Acme.with_app].
  split; [| split; [| repeat split]].
  - unfold Acme.with_app.
    cbn [Acme.store_app Acme.store_reg Acme.store_authz Acme.store_cert].
    f_equal. rewrite map_map. apply map_ext. apply order_after_twice.
  - rewrite map_map. apply map_ext. intros app. unfold Notions.order_after.
    destruct (Acme.app_thumbprint app =? Acme.authz_thumbprint authz); [| reflexivity].
    destruct (markAsReady_keeps
                (Acme.set_app_requirements
                   (map (Acme.rewrite_requirement authz) (Acme.app_requirements app)) app))
      as (_ & _ & Hid).
    exact Hid.
Qed.

(** ** newApp *)

Section NewAppFacts.
Import Acme.
Variable uuid_v4 : nat -> string.
Variable clock : nat -> Z.

Lemma table_put_same {T : Type} (id_of : T -> string) (o : T) (t : list T) :
  NoDup (map id_of t) -> In o t -> table_put id_of o t = t.
Proof.
  induction t as [| x t IH]; intros Hnodup Hin; [destruct Hin |].
  cbn [table_put]. cbn [map] in Hnodup. inversion Hnodup as [| ? ? Hfresh Hrest]; subst.
  destruct Hin as [-> | Hin].
  - rewrite String.eqb_refl. reflexivity.
  - destruct (id_of x =? id_of o) eqn:E.
    + apply String.eqb_eq in E. exfalso. apply Hfresh. rewrite E.
      apply in_map, Hin.
    + rewrite (IH Hrest Hin). reflexivity.
Qed.

Lemma table_put_fresh {T : Type} (id_of : T -> string) (o : T) (t : list T) :
  ~ In (id_of o) (map id_of t) -> table_put id_of o t = (t ++ [o])%list.
Proof.
  induction t as [| x t IH]; intros Hfresh; [reflexivity |].
  cbn [table_put app]. cbn [map In] in Hfresh.
  destruct (id_of x =? id_of o) eqn:E.
  - apply String.eqb_eq in E. exfalso. apply Hfresh. left. exact E.
  - rewrite IH; [reflexivity |]. intros Hin. apply Hfresh. right. exact Hin.
Qed.

Lemma new_Authorization_spec
      (server : Server) (thumbprint name : string) (scope : option string) (w : World) :
  exists (authz : Authorization) (w' : World),
    new_Authorization uuid_v4 clock server thumbprint name scope w = (Returns authz, w')
    /\ authz_id authz = uuid_v4 (uuids w)
    /\ authz_thumbprint authz = thumbprint
    /\ authz_identifier authz = name
    /\ db w' = db w
    /\ uuids w' = S (uuids w)
    /\ res w' = res w.
Proof.
  unfold new_Authorization, bind, new_uuid, new_Date, record, ret. cbn.
  eexists. eexists. split; [reflexivity |].
  destruct (update_keeps
              (clock (S (dates w)))
              {| authz_id := uuid_v4 (uuids w); authz_status := pending;
                 authz_url := makeURL server "authz" (uuid_v4 (uuids w));
                 authz_thumbprint := thumbprint; authz_identifier := name;
                 authz_scope := scope;
                 authz_expires :=
                   match authzExpirySeconds (policy server) with
                   | Some seconds => TimeClip (clock (dates w) + seconds * 1000)
                   | None => None
                   end;
                 challengeObj :=
                   if challenges_auto (policy server) then [auto_challenge] else [];
                 challenges := [] |})
    as (Hid & _ & Htp & Hname & _).
  repeat split; assumption.
Qed.


Lemma find_app {A : Type} (f : A -> bool) (l l' : list A) :
  find f (l ++ l')%list = match find f l with
                          | Some x => Some x
                          | None => find f l'
                          end.
Proof.
  induction l as [| x l IH]; [reflexivity |].
  cbn [app find]. destruct (f x); [reflexivity | exact IH].
Qed.

Lemma require_names_spec
      (server : Server) (thumbprint : string) (scope : option string) :
  (forall m n : nat, uuid_v4 m = uuid_v4 n -> m = n) ->
  forall (names : list string) (w : World) (app : Application),
    Notions.fresh_ids uuid_v4 w ->
    exists (w' : World) (reqs : list Requirement),
      AcmeRest.require_names uuid_v4 clock server thumbprint scope names app w
      = (Returns (set_app_requirements (app_requirements app ++ reqs)%list app), w')
      /\ Notions.fresh_ids uuid_v4 w'
      /\ store_reg (db w') = store_reg (db w)
      /\ store_app (db w') = store_app (db w)
      /\ store_cert (db w') = store_cert (db w)
      /\ res w' = res w
      /\ (forall name a, authzFor (db w) thumbprint name = Some a ->
                         authzFor (db w') thumbprint name = Some a)
      /\ Forall2 (Notions.requires (db w') thumbprint) names reqs.
Proof.
  intros Hinj.
  induction names as [| name names IH]; intros w app Hfresh.
  - exists w, []. cbn [AcmeRest.require_names].
    rewrite app_nil_r. destruct app. cbn.
    repeat split; try assumption; try apply Hfresh; auto.
  - cbn [AcmeRest.require_names]. unfold bind at 1. unfold read_db at 1.
    destruct Hfresh as [Hnodup Hunused].
    destruct (authzFor (db w) thumbprint name) as [authz |] eqn:Hfor.
    + (* an authorization of the store is used again *)
      assert (Hin : In authz (store_authz (db w))).
      { unfold authzFor in Hfor. apply find_some in Hfor. apply Hfor. }
      unfold bind at 1. unfold ret at 1. unfold bind at 1. unfold write_db at 1.
      assert (Hsame : put_authz authz (db w) = db w).
      { unfold put_authz. rewrite (table_put_same authz_id authz _ Hnodup Hin).
        destruct (db w). reflexivity. }
      rewrite Hsame.
      replace (with_db (db w) w) with w by (destruct w; reflexivity).
      destruct (IH w (set_app_requirements
                        (app_requirements app ++ [asRequirement authz])%list app))
        as (w' & reqs & Hrun & Hfresh' & Hreg & Happ & Hcert & Hres & Hkeep & Hreqs);
        [split; assumption |].
      exists w', (asRequirement authz :: reqs).
      split.
      { rewrite Hrun. cbn [app_requirements set_app_requirements].
        rewrite <- app_assoc. reflexivity. }
      repeat (split; [assumption |]).
      constructor; [| exact Hreqs].
      exists authz. split; [apply Hkeep, Hfor | reflexivity].
    + (* a new authorization is made and stored *)
      unfold bind at 1.
      destruct (new_Authorization_spec server thumbprint name scope w)
        as (authz & w1 & Hnew & Hid & Htp & Hname & Hdb & Huuids & Hres1).
      rewrite Hnew. unfold bind at 1. unfold write_db at 1.
      assert (Hnot : ~ In (authz_id authz) (map authz_id (store_authz (db w)))).
      { rewrite Hid. apply Hunused. lia. }
      assert (Hput : store_authz (put_authz authz (db w1))
                     = (store_authz (db w) ++ [authz])%list).
      { unfold put_authz. cbn [store_authz with_authz]. rewrite Hdb.
        apply table_put_fresh, Hnot. }
      assert (Huuids1 : uuids (with_db (put_authz authz (db w1)) w1) = S (uuids w))
        by (rewrite <- Huuids; destruct w1; reflexivity).
      destruct (IH (with_db (put_authz authz (db w1)) w1)
                   (set_app_requirements
                      (app_requirements app ++ [asRequirement authz])%list app))
        as (w' & reqs & Hrun & Hfresh' & Hreg & Happ & Hcert & Hres & Hkeep & Hreqs).
      { split.
        - cbn [db with_db]. rewrite Hput, map_app. cbn [map].
          apply NoDup_app; [exact Hnodup | repeat constructor; intros [] |].
          intros id Hin [<- | []]. exact (Hnot Hin).
        - intros n Hn. rewrite Huuids1 in Hn.
          cbn [db with_db]. rewrite Hput, map_app. cbn [map].
          intros Hin. apply in_app_or in Hin.
          destruct Hin as [Hin | [Heq | []]].
          + apply (Hunused n); [lia | exact Hin].
          + rewrite Hid in Heq. apply Hinj in Heq. lia. }
      assert (Hfor1 : forall name' a,
                 authzFor (db w) thumbprint name' = Some a ->
                 authzFor (with_db (put_authz authz (db w1)) w1).(db) thumbprint name'
                 = Some a).
      { intros name' a Ha. unfold authzFor in *. cbn [db with_db].
        rewrite Hput, find_app, Ha. reflexivity. }
      assert (Hhead : authzFor (with_db (put_authz authz (db w1)) w1).(db) thumbprint name
                      = Some authz).
      { unfold authzFor in *. cbn [db with_db].
        rewrite Hput, find_app, Hfor. cbn [find].
        rewrite Htp, Hname, !String.eqb_refl. reflexivity. }
      exists w', (asRequirement authz :: reqs).
      cbn [db with_db] in Hreg, Happ, Hcert.
      replace (res (with_db (put_authz authz (db w1)) w1)) with (res w1) in Hres
        by (destruct w1; reflexivity).
      split.
      { rewrite Hrun. cbn [app_requirements set_app_requirements].
        rewrite <- app_assoc. reflexivity. }
      split; [exact Hfresh' |].
      split; [rewrite Hreg, <- Hdb; reflexivity |].
      split; [rewrite Happ, <- Hdb; reflexivity |].
      split; [rewrite Hcert, <- Hdb; reflexivity |].
      split; [congruence |].
      split; [intros name' a Ha; apply Hkeep, Hfor1, Ha |].
      constructor; [| exact Hreqs].
      exists authz. split; [apply Hkeep, Hhead | reflexivity].
Qed.

End NewAppFacts.

(** X24.  The order [newApp] creates.  For a registered account and a
    payload whose identifiers and dates are read without error, [newApp]
    answers 201 and stores, under a new identifier, an order of the
    account with status [pending] (also when every authorization is
    valid already), the dates of the payload and one requirement per
    name, in order: the requirement of the authorization that [authzFor]
    finds for the account and the name in the store afterwards.  An
    authorization that [authzFor] found before is the one it finds
    afterwards, so existing authorizations are used again and only the
    missing ones are made. *)
Theorem newApp_creates_order
        (uuid_v4 : nat -> string) (clock : nat -> Z) (Date_parse : string -> option Z)
        (server : Acme.Server) (thumbprint : string) (p : AcmeRest.NewOrder)
        (w : Acme.World) (reg : Acme.Registration)
        (names : list string) (before after : option string) :
  (forall m n : nat, uuid_v4 m = uuid_v4 n -> m = n) ->
  Notions.fresh_ids uuid_v4 w ->
  Acme.get_reg (Acme.db w) thumbprint = Some reg ->
  AcmeRest.read_order Date_parse p = inr (names, before, after) ->
  exists (w' : Acme.World) (order : Acme.Application),
    AcmeRest.newApp uuid_v4 clock Date_parse server thumbprint p w = (Returns tt, w')
    /\ Acme.statusCode (Acme.res w') = 201%Z
    /\ Acme.get_app (Acme.db w') (uuid_v4 (Acme.uuids w)) = Some order
    /\ Acme.app_status order = Acme.pending
    /\ Acme.app_thumbprint order = thumbprint
    /\ Acme.app_url order = Acme.makeURL server "app" (uuid_v4 (Acme.uuids w))
    /\ Acme.app_notBefore order = before
    /\ Acme.app_notAfter order = after
    /\ Acme.app_certificate order = None
    /\ Forall2 (Notions.requires (Acme.db w') thumbprint) names
               (Acme.app_requirements order)
    /\ (forall (name : string) (a : Acme.Authorization),
           Acme.authzFor (Acme.db w) thumbprint name = Some a ->
           Acme.authzFor (Acme.db w') thumbprint name = Some a)
    /\ Acme.store_reg (Acme.db w') = Acme.store_reg (Acme.db w)
    /\ Acme.store_cert (Acme.db w') = Acme.store_cert (Acme.db w)
    /\ exists view : Acme.ApplicationView,
        Acme.body (Acme.res w') = Some (Acme.OfApplication view)
        /\ Acme.view_status view = Acme.pending
        /\ Acme.view_requirements view = Acme.app_requirements order
        /\ Acme.view_authorizations view
           = map Acme.req_url (Acme.app_requirements order).
Proof.
  intros Hinj Hfresh Hreg Hread.
  unfold AcmeRest.newApp. unfold Acme.bind at 1. unfold Acme.read_db at 1.
  rewrite Hreg.
  unfold Acme.bind at 1. unfold AcmeRest.new_Application, Acme.bind at 1.
  unfold Acme.new_uuid at 1. unfold Acme.ret at 1.
  rewrite Hread.
  cbn [Acme.app_id Acme.app_status Acme.app_url Acme.app_thumbprint
       Acme.app_requirements Acme.app_certificate Acme.app_authorizations
       Acme.app_finalize].
  unfold Acme.bind at 1.
  match goal with
  | |- context [AcmeRest.require_names ?u ?c ?s ?t ?sc ?n ?a ?w0] =>
      destruct (require_names_spec u c s t sc Hinj n w0 a)
        as (w2 & reqs & Hrun & _ & Hreg2 & Happ2 & Hcert2 & Hres2 & Hkeep & Hreqs)
  end.
  { destruct Hfresh as [Hnodup Hunused]. split; [exact Hnodup |].
    intros n Hn. apply Hunused. cbn [Acme.uuids] in Hn. lia. }
  rewrite Hrun.
  cbn [Acme.app_requirements Acme.set_app_requirements app] in *.
  eexists. eexists. split; [reflexivity |]. world.
  cbn [Acme.Application_marshal Acme.app_id Acme.app_status Acme.app_url
       Acme.app_thumbprint Acme.app_requirements Acme.app_notBefore
       Acme.app_notAfter Acme.app_certificate Acme.set_app_requirements fst snd].
  split; [reflexivity |].
  split.
  { match goal with
    | |- Acme.get_app (Acme.put_app ?o _) _ = _ =>
        exact (table_get_put Acme.app_id o _)
    end. }
  repeat (split; [reflexivity |]).
  split; [exact Hreqs |].
  split; [exact Hkeep |].
  split; [exact Hreg2 |].
  split; [exact Hcert2 |].
  eexists. split; [reflexivity |]. repeat split.
Qed.

Lemma uuid_of_injective (m n : nat) : Samples.uuid_of m = Samples.uuid_of n -> m = n.
Proof.
  unfold Samples.uuid_of, Acme.index_toString. intros H.
  apply append_cancel in H.
  apply (f_equal NilEmpty.uint_of_string) in H.
  rewrite !NilEmpty.usu in H. injection H as H.
  apply Unsigned.to_uint_inj, H.
Qed.

Lemma newApp_creates_order_witness :
  exists (w' : Acme.World) (order : Acme.Application),
    Acme.get_app (Acme.db w') "uuid-0" = Some order
    /\ Acme.app_status order = Acme.pending
    /\ Forall2 (Notions.requires (Acme.db w') "aa11")
               ["example.com"; "new.example.com"] (Acme.app_requirements order).
Proof.
  destruct (newApp_creates_order
              Samples.uuid_of Samples.clock500 (fun _ => Some 0%Z)
              Samples.server1 "aa11"
              {| AcmeRest.identifiers := Some ["example.com"; "new.example.com"];
                 AcmeRest.notBefore := None; AcmeRest.notAfter := None |}
              (Samples.world1 (Samples.order1 Acme.pending Acme.pending))
              Samples.alice ["example.com"; "new.example.com"] None None)
    as (w' & order & _ & _ & Hget & Hstatus & _ & _ & _ & _ & _ & Hreqs & _).
  - exact uuid_of_injective.
  - split.
    + repeat constructor. intros [].
    + intros n _ [H | []]. cbn in H. discriminate H.
  - reflexivity.
  - reflexivity.
  - exists w', order. split; [exact Hget |]. split; [exact Hstatus | exact Hreqs].
Defined.

(** X25.  An order [newApp] refuses.  For a registered account, when the
    payload has no identifiers, or has a [notBefore] or a [notAfter] that
    is no date, the answer is 400 [malformed] and the store is as before:
    neither the order nor any authorization was stored. *)
Theorem newApp_refused_changes_nothing
        (uuid_v4 : nat -> string) (clock : nat -> Z) (Date_parse : string -> option Z)
        (server : Acme.Server) (thumbprint : string) (p : AcmeRest.NewOrder)
        (w : Acme.World) (reg : Acme.Registration) :
  Acme.get_reg (Acme.db w) thumbprint = Some reg ->
  AcmeRest.identifiers p = None
  \/ (exists text : string,
         AcmeRest.notBefore p = Some text /\ text <> "" /\ Date_parse text = None)
  \/ (exists text : string,
         AcmeRest.notAfter p = Some text /\ text <> "" /\ Date_parse text = None) ->
  exists (w' : Acme.World) (message : string),
    AcmeRest.newApp uuid_v4 clock Date_parse server thumbprint p w = (Returns tt, w')
    /\ Acme.statusCode (Acme.res w') = 400%Z
    /\ Acme.body (Acme.res w')
       = Some (Acme.problem "malformed" "Invalid new application" (Some message))
    /\ Acme.db w' = Acme.db w.
Proof.
  intros Hreg Hbad.
  assert (Hread : exists message, AcmeRest.read_order Date_parse p = inl message).
  { unfold AcmeRest.read_order, AcmeRest.invalid_date.
    destruct (AcmeRest.identifiers p) as [names |]; [| eexists; reflexivity].
    destruct Hbad as [Hnone | [(text & Htext & Hne & Hparse) | (text & Htext & Hne & Hparse)]];
      [discriminate | |].
    - rewrite Htext, Hparse.
      replace (JS.truthy (Some text)) with true
        by (symmetry; apply negb_true_iff, String.eqb_neq, Hne).
      eexists. reflexivity.
    - rewrite Htext, Hparse.
      replace (JS.truthy (Some text)) with true
        by (symmetry; apply negb_true_iff, String.eqb_neq, Hne).
      destruct (JS.truthy (AcmeRest.notBefore p) && _); eexists; reflexivity. }
  destruct Hread as [message Hread].
  unfold AcmeRest.newApp, Acme.bind, Acme.read_db.
  rewrite Hreg. unfold AcmeRest.new_Application, Acme.bind, Acme.new_uuid, Acme.ret.
  rewrite Hread.
  eexists. exists message. split; [reflexivity |]. repeat split.
Qed.

Lemma newApp_refused_changes_nothing_witness :
  exists (w' : Acme.World) (message : string),
    AcmeRest.newApp Samples.uuid_of Samples.clock500 (fun _ => None)
      Samples.server1 "aa11"
      {| AcmeRest.identifiers := Some ["example.com"];
         AcmeRest.notBefore := Some "yesterday"; AcmeRest.notAfter := None |}
      (Samples.world1 (Samples.order1 Acme.pending Acme.pending))
    = (Returns tt, w')
    /\ Acme.statusCode (Acme.res w') = 400%Z
    /\ Acme.body (Acme.res w')
       = Some (Acme.problem "malformed" "Invalid new application" (Some message))
    /\ Acme.db w' = Acme.db (Samples.world1 (Samples.order1 Acme.pending Acme.pending)).
Proof.
  apply (newApp_refused_changes_nothing
           Samples.uuid_of Samples.clock500 (fun _ => None)
           Samples.server1 "aa11"
           {| AcmeRest.identifiers := Some ["example.com"];
              AcmeRest.notBefore := Some "yesterday"; AcmeRest.notAfter := None |}
           (Samples.world1 (Samples.order1 Acme.pending Acme.pending))
           Samples.alice).
  - reflexivity.
  - right. left. exists "yesterday". repeat split. discriminate.
Defined.

(** ** issueCRT and the serial counter *)

(** X26.  A certificate gets the serial of the counter.  When [issueCRT]
    returns a certificate, the request parsed, forge was given the
    even-length hexadecimal numeral of the counter as serial, and the
    counter has moved on by one [++]; when the request does not parse,
    the counter is left alone. *)
Theorem issueCRT_uses_counter
        (certificationRequestFromPem : string -> option Pki.CSR)
        (forge_certificate :
           Pki.CSR -> string -> Pki.validity -> Pki.validity -> string -> string
           -> option string)
        (text : string) (notBefore notAfter : Pki.validity)
        (caCert caKey : string) (counter : N) :
  let result := Pki.issueCRT certificationRequestFromPem forge_certificate
                             text notBefore notAfter caCert caKey counter in
  (forall der : string,
      fst result = Returns der ->
      exists (csr : Pki.CSR) (serial : string),
        certificationRequestFromPem (Pki.pem_of text) = Some csr
        /\ forge_certificate csr serial notBefore notAfter caCert caKey = Some der
        /\ JS.hexNumber 0 serial = Some counter
        /\ (String.length serial mod 2 = 0)%nat
        /\ snd result = JS.increment counter)
  /\ (certificationRequestFromPem (Pki.pem_of text) = None ->
      snd result = counter /\ exists e : string, fst result = Throws e).
Proof.
  cbv zeta. unfold Pki.issueCRT, Pki.parseCSR.
  destruct (certificationRequestFromPem (Pki.pem_of text)) as [csr |].
  - split; [| discriminate].
    intros der Hder.
    destruct (serial_value counter) as [Hvalue Heven].
    destruct (Pki.getNextSerialNumber counter) as [serial next] eqn:Hcall.
    cbn [fst] in Hvalue, Heven.
    assert (Hnext : next = JS.increment counter).
    { unfold Pki.getNextSerialNumber in Hcall. injection Hcall as _ <-. reflexivity. }
    destruct (forge_certificate csr serial notBefore notAfter caCert caKey)
      as [der' |] eqn:Hforge; cbn [fst snd] in *; [| discriminate].
    injection Hder as ->.
    exists csr, serial. repeat split; assumption.
  - split; [discriminate |].
    intros _. split; [reflexivity | eexists; reflexivity].
Qed.

Lemma issueCRT_uses_counter_witness :
  exists (der serial : string),
    fst (Pki.issueCRT (Samples.parses_to Samples.testCSR) Samples.forge_signs
                      "AAAA" (Pki.At (Some 500%Z)) (Pki.FromOrder "2030-01-01") "ca-cert" "ca-key" 255)
    = Returns der
    /\ Samples.forge_signs Samples.testCSR serial (Pki.At (Some 500%Z)) (Pki.FromOrder "2030-01-01") "ca-cert" "ca-key"
       = Some der
    /\ JS.hexNumber 0 serial = Some 255%N
    /\ snd (Pki.issueCRT (Samples.parses_to Samples.testCSR) Samples.forge_signs
                         "AAAA" (Pki.At (Some 500%Z)) (Pki.FromOrder "2030-01-01") "ca-cert" "ca-key" 255)
       = 256%N.
Proof.
  destruct (proj1 (issueCRT_uses_counter
                     (Samples.parses_to Samples.testCSR) Samples.forge_signs
                     "AAAA" (Pki.At (Some 500%Z)) (Pki.FromOrder "2030-01-01") "ca-cert" "ca-key" 255)
                  "der-ff" eq_refl)
    as (csr & serial & Hparse & Hforge & Hserial & _ & Hnext).
  injection Hparse as <-.
  exists "der-ff", serial. split; [reflexivity |].
  split; [exact Hforge |]. split; [exact Hserial |]. exact Hnext.
Defined.

(** ** finalizeOrder, then getCert and getOrder *)

(** X27.  What was issued is served.  After a [finalizeOrder] that
    issued a certificate, [getCert] for the identifier of the
    certificate, asked by any registered account, returns the bytes forge
    produced (for the parsed request, the serial number of the counter
    and the validity of the order) and changes nothing in the store, and
    [getOrder] for the order answers 200 with status [valid] and the URL
    of the certificate. *)
Theorem issued_certificate_is_served
        (uuid_v4 : nat -> string) (clock : nat -> Z)
        (certificationRequestFromPem : string -> option Pki.CSR)
        (forge_certificate :
           Pki.CSR -> string -> Pki.validity -> Pki.validity -> string -> string
           -> option string)
        (server : Acme.Server) (req download : Acme.Request) (w : Acme.World)
        (reg other : Acme.Registration) (order : Acme.Application)
        (text : string) (names : list string) :
  Acme.get_reg (Acme.db w) (Acme.accountKeyThumbprint req) = Some reg ->
  Acme.get_app (Acme.db w) (Acme.params_id req) = Some order ->
  Acme.csr (Acme.payload req) = Some text ->
  text <> "" ->
  Pki.checkCSR certificationRequestFromPem text = Returns (Pki.Names names) ->
  (forall c serial notBefore notAfter,
      forge_certificate c serial notBefore notAfter
                        (Acme.caCert server) (Acme.caKey server)
      <> None) ->
  Acme.get_reg (Acme.db w) (Acme.accountKeyThumbprint download) = Some other ->
  Acme.params_id download = uuid_v4 (Acme.uuids w) ->
  exists (w1 : Acme.World) (der : string),
    Acme.finalizeOrder uuid_v4 clock certificationRequestFromPem forge_certificate
                       server req w
    = (Returns tt, w1)
    /\ (exists (parsed : Pki.CSR) (serial : string),
           certificationRequestFromPem (Pki.pem_of text) = Some parsed
           /\ forge_certificate parsed serial
                                (fst (Notions.validity_of clock order w))
                                (snd (Notions.validity_of clock order w))
                                (Acme.caCert server) (Acme.caKey server)
              = Some der
           /\ JS.hexNumber 0 serial = Some (Acme.nextSerialNumber w))
    /\ (exists w2 : Acme.World,
           AcmeRest.getCert download w1 = (Returns (Some (AcmeRest.Der der)), w2)
           /\ Acme.db w2 = Acme.db w1)
    /\ exists (w3 : Acme.World) (view : Acme.ApplicationView),
        AcmeRest.getOrder req w1 = (Returns tt, w3)
        /\ Acme.statusCode (Acme.res w3) = 200%Z
        /\ Acme.body (Acme.res w3) = Some (Acme.OfApplication view)
        /\ Acme.view_status view = Acme.valid
        /\ Acme.view_certificate view
           = Some (Acme.makeURL server "cert" (uuid_v4 (Acme.uuids w)))
        /\ Acme.view_requirements view = Acme.app_requirements order.
Proof.
  intros Hreg Happ Hcsr Htext Hcheck Hforge Hother Hid.
  destruct (finalizeOrder_runs uuid_v4 clock certificationRequestFromPem
              forge_certificate server req w reg order text names
              Hreg Happ Hcsr Htext Hcheck Hforge)
    as (w1 & order' & der & parsed & Hrun & Hget & Hstatus & Hcert & _ & Hreqs
        & Hstored & _ & _ & _ & Hregs & Hparsed & Hissue & _).
  exists w1, der. split; [exact Hrun |]. split; [| split].
  - exists parsed, (fst (Pki.getNextSerialNumber (Acme.nextSerialNumber w))).
    split; [exact Hparsed |]. split; [exact Hissue |].
    apply serial_value.
  - unfold AcmeRest.getCert, Acme.bind, Acme.read_db.
    replace (Acme.get_reg (Acme.db w1) (Acme.accountKeyThumbprint download))
      with (Some other)
      by (unfold Acme.get_reg in *; rewrite Hregs; symmetry; exact Hother).
    rewrite Hid, Hstored. cbn [Acme.cert_body].
    eexists. split; [reflexivity |]. reflexivity.
  - unfold AcmeRest.getOrder, Acme.bind, Acme.read_db. rewrite Hget.
    world. unfold Acme.Application_marshal.
    eexists. eexists. split; [reflexivity |]. world.
    cbn [Acme.view_status Acme.view_certificate Acme.view_requirements].
    rewrite Hstatus, Hcert, Hreqs.
    pose proof (makeURL_truthy server "cert" (uuid_v4 (Acme.uuids w))) as Hurl.
    rewrite Hurl. repeat split.
Qed.

Lemma issued_certificate_is_served_witness :
  exists (w1 w2 : Acme.World) (der serial : string),
    AcmeRest.getCert (Samples.request "aa11" "uuid-0" "" Samples.no_payload) w1
    = (Returns (Some (AcmeRest.Der der)), w2)
    /\ der = "der-" ++ serial
    /\ JS.hexNumber 0 serial = Some 1%N.
Proof.
  destruct (issued_certificate_is_served
              Samples.uuid_of Samples.clock500
              (Samples.parses_to Samples.testCSR) Samples.forge_signs
              Samples.server1
              (Samples.request "bb22" "order-1" "" Samples.csr_payload)
              (Samples.request "aa11" "uuid-0" "" Samples.no_payload)
              (Samples.world1 (Samples.order1 Acme.pending Acme.pending))
              Samples.bob Samples.alice (Samples.order1 Acme.pending Acme.pending)
              "MIIC" ["not-example.com"; "www.not-example.com"])
    as (w1 & der & _ & (parsed & serial & _ & Hissue & Hserial) & (w2 & Hcert & _) & _).
  - reflexivity.
  - reflexivity.
  - reflexivity.
  - discriminate.
  - vm_compute. reflexivity.
  - discriminate.
  - reflexivity.
  - reflexivity.
  - exists w1, w2, der, serial. split; [exact Hcert |].
    split; [| exact Hserial].
    unfold Samples.forge_signs in Hissue. injection Hissue as <-. reflexivity.
Defined.


(* ----------------------------------------------------------------- *)
(** ** authzFor *)

Lemma find_first (T : Type) (p : T -> bool) (l : list T) :
  match find p l with
  | Some x =>
      p x = true
      /\ exists before after : list T,
          l = (before ++ x :: after)%list /\ Forall (fun y => p y = false) before
  | None => Forall (fun y => p y = false) l
  end.
Proof.
  induction l as [| y l IH]; cbn [find].
  - constructor.
  - destruct (p y) eqn:Hy.
    + split; [exact Hy |]. exists [], l. split; [reflexivity | constructor].
    + destruct (find p l) as [x |].
      * destruct IH as (Hx & before & after & -> & Hbefore).
        split; [exact Hx |]. exists (y :: before), after.
        split; [reflexivity | constructor; assumption].
      * constructor; assumption.
Qed.

Lemma find_map (T : Type) (p : T -> bool) (f : T -> T) (l : list T) :
  (forall x, p (f x) = p x) ->
  find p (map f l) = option_map f (find p l).
Proof.
  intros Hp. induction l as [| y l IH]; cbn [find map option_map].
  - reflexivity.
  - rewrite Hp. destruct (p y); [reflexivity | exact IH].
Qed.

(** X28.  [authzFor] returns the first authorization, in the order the
    authorizations were created in, that belongs to the account and is
    for the name, and [null] only if the store has none.  Neither the
    status nor [expires] plays a part: after [update()] has run on every
    stored authorization, at whatever instant, [authzFor] finds the same
    authorization, updated, so one that has expired is found as well. *)
Theorem authzFor_first_match (d : Acme.DB) (thumbprint name : string) :
  match Acme.authzFor d thumbprint name with
  | Some authz =>
      Acme.authz_thumbprint authz = thumbprint
      /\ Acme.authz_identifier authz = name
      /\ exists before after : list Acme.Authorization,
          Acme.store_authz d = (before ++ authz :: after)%list
          /\ Forall (fun b => Acme.authz_thumbprint b <> thumbprint
                              \/ Acme.authz_identifier b <> name) before
  | None =>
      Forall (fun b => Acme.authz_thumbprint b <> thumbprint
                       \/ Acme.authz_identifier b <> name) (Acme.store_authz d)
  end
  /\ forall now : Z,
      Acme.authzFor (Acme.with_authz (map (Acme.Authorization_update now)
                                          (Acme.store_authz d)) d)
                    thumbprint name
      = option_map (Acme.Authorization_update now) (Acme.authzFor d thumbprint name).
Proof.
  assert (Hno : forall b : Acme.Authorization,
             (Acme.authz_thumbprint b =? thumbprint)
             && (Acme.authz_identifier b =? name) = false ->
             Acme.authz_thumbprint b <> thumbprint
             \/ Acme.authz_identifier b <> name).
  { intros b Hb. apply andb_false_iff in Hb.
    destruct Hb as [Hb | Hb]; apply String.eqb_neq in Hb; [left | right]; exact Hb. }
  split.
  - unfold Acme.authzFor.
    pose proof (find_first _ (fun authz => (Acme.authz_thumbprint authz =? thumbprint)
                                           && (Acme.authz_identifier authz =? name))
                           (Acme.store_authz d)) as Hfirst.
    destruct (find _ (Acme.store_authz d)) as [authz |].
    + destruct Hfirst as (Hmatch & before & after & Hstore & Hbefore).
      apply andb_true_iff in Hmatch. destruct Hmatch as [Ht Hn].
      apply String.eqb_eq in Ht. apply String.eqb_eq in Hn.
      split; [exact Ht |]. split; [exact Hn |].
      exists before, after. split; [exact Hstore |].
      eapply Forall_impl; [| exact Hbefore]. exact Hno.
    + eapply Forall_impl; [| exact Hfirst]. exact Hno.
  - intros now. unfold Acme.authzFor, Acme.with_authz. cbn [Acme.store_authz].
    apply find_map. intros a.
    destruct (update_keeps now a) as (_ & _ & -> & -> & _). reflexivity.
Qed.
